(** * Sylon agent: metric sampling and resilient delivery

    A shallow embedding of [src/server/api.js] (the Node.js telemetry agent)
    and the proofs of the properties its specification states.

    Conventions of the embedding:
    - JavaScript numbers that hold counters, status codes and retry bounds
      are [Z]; numbers that hold seconds, percentages and random draws are
      rationals [Q].  The CPU percentage is computed as the code computes
      it, every operation rounded to binary64 ([double]); the delays, the
      durations and the memory quotient are exact;
    - strings are byte strings ([string]);
    - everything the agent reads from outside (the network, [Math.random],
      [crypto.randomUUID], the filesystem, the [os] module) is an explicit
      input, and everything it does to the outside (log lines, HTTPS
      requests, timers) is an explicit list of events;
    - [url.parse] and [JSON.stringify] are library functions of the runtime
      and stay parameters. *)

From Stdlib Require Import ZArith QArith Qround Qabs Qpower Lia Lqa String Ascii List Bool.
From stdpp Require Import gmap strings list.
Import ListNotations.

Local Open Scope string_scope.
Local Open Scope list_scope.
Local Open Scope Z_scope.

(** ** Observable events *)

(** One argument of a [log] call, as passed (before [%s] substitution).
    [LFixed q d] is the string [q.toFixed(d)]. *)
Inductive logarg : Type :=
| LNum (z : Z)
| LStr (s : string)
| LFixed (q : Q) (digits : nat).

(** The record [url.parse] returns; only the fields the agent could look at.
    A component the URL does not have is [None] (JavaScript [null]). *)
Record UrlObject : Type := {
  protocol : option string;
  auth : option string;
  host : option string;
  url_port : option string;
  hostname : option string;
  pathname : option string;
  search : option string;
  hash : option string
}.

Record Headers : Type := {
  content_type : string;
  content_length : nat;
  authorization : string
}.

(** The [options] object handed to [https.request]. *)
Record RequestOptions : Type := {
  opt_hostname : option string;
  opt_port : Z;
  opt_path : option string;
  opt_method : string;
  opt_headers : Headers;
  opt_timeout : Q
}.

(** What one HTTPS exchange ends in: the promise resolves with a status code
    and a body, or rejects with an error (connection error, or the
    ['Request Timeout'] error the timeout handler destroys the request with). *)
Inductive NetResult : Type :=
| Response (statusCode : Z) (body : string)
| Failure (message : string).

(** A call that changes the filesystem. *)
Inductive fs_call : Type :=
| Mkdir (p : string)
| WriteFile (p data : string).

(** What the process does to the outside: a line on the console, an HTTPS
    request (with what came back and the seconds it took), a timer of [ms]
    milliseconds it waits for, a call that changes the filesystem (and
    whether it succeeded). *)
Inductive event : Type :=
| EvLog (level : string) (message : string) (args : list logarg)
| EvRequest (opts : RequestOptions) (postData : string) (result : NetResult) (elapsed : Q)
| EvSleep (ms : Q)
| EvFs (call : fs_call) (succeeded : bool).

Definition log (level message : string) (args : list logarg) : list event :=
  [EvLog level message args].

(** ** Configuration *)

Record Config : Type := {
  endpoint : string;
  api_key : string;
  interval_seconds : Z;
  timeout_seconds : Q;
  max_retries : Z;
  backoff_base : Q;
  jitter : Q
}.

Definition DEFAULT_CONFIG : Config := {|
  endpoint := "NULL";
  api_key := "NULL";
  interval_seconds := 300;
  timeout_seconds := 10;
  max_retries := 5;
  backoff_base := 2;
  jitter := 3 # 10
|}.

(** ** Delivery: [sendPayload] *)

(** What the outside world answers during one call of [sendPayload], by
    attempt number: the result of the HTTPS exchange of that attempt, the
    seconds it took, and the value [Math.random()] returns in the backoff
    after it. *)
Record Network : Type := {
  respond : Z -> NetResult;
  latency : Z -> Q;
  random : Z -> Q
}.

Definition msg_unconfigured : string :=
  "L'endpoint de l'API n'est pas configuré. Abandon de l'envoi.".
Definition msg_accepted : string := "Charge utile acceptée (status=%s)".
Definition msg_client_error : string :=
  "Erreur client lors de l'envoi de la charge utile: %s %s".
Definition msg_server_error : string := "Erreur serveur %s; tentative %s/%s".
Definition msg_request_failed : string := "Échec de la requête tentative %s/%s: %s".
Definition msg_retry : string := "Nouvelle tentative dans %s secondes...".
Definition msg_all_failed : string := "Toutes les tentatives ont échoué.".

Section Delivery.

Context {Payload : Type}.
Variable url_parse : string -> UrlObject.
Variable JSON_stringify : Payload -> string.

Definition build_options (cfg : Config) (postData : string) : RequestOptions :=
  let u := url_parse (endpoint cfg) in
  {| opt_hostname := hostname u;
     opt_port := 443;
     opt_path := pathname u;
     opt_method := "POST";
     opt_headers := {| content_type := "application/json";
                       content_length := String.length postData;
                       authorization := String.append "Bearer " (api_key cfg) |};
     opt_timeout := (timeout_seconds cfg * 1000)%Q |}.

(** The [try]/[catch] of one loop iteration: the events it produces and,
    when it executes a [return], the value returned. *)
Definition attempt_once (cfg : Config) (opts : RequestOptions) (postData : string)
    (net : Network) (attempt : Z) : list event * option bool :=
  let result := respond net attempt in
  let req := EvRequest opts postData result (latency net attempt) in
  match result with
  | Response statusCode body =>
      if (200 <=? statusCode) && (statusCode <? 300) then
        (req :: log "INFO" msg_accepted [LNum statusCode], Some true)
      else if (400 <=? statusCode) && (statusCode <? 500) then
        (req :: log "ERROR" msg_client_error [LNum statusCode; LStr body], Some false)
      else
        (req :: log "WARN" msg_server_error
                  [LNum statusCode; LNum attempt; LNum (max_retries cfg)], None)
  | Failure message =>
      (req :: log "WARN" msg_request_failed
                [LNum attempt; LNum (max_retries cfg); LStr message], None)
  end.

Definition sleepTime (cfg : Config) (net : Network) (attempt : Z) : Q :=
  (backoff_base cfg ^ attempt + random net attempt * jitter cfg)%Q.

(** The [if (attempt < max_retries)] block that ends an iteration. *)
Definition backoff (cfg : Config) (net : Network) (attempt : Z) : list event :=
  if attempt <? max_retries cfg then
    log "INFO" msg_retry [LFixed (sleepTime cfg net attempt) 2]
      ++ [EvSleep (sleepTime cfg net attempt * 1000)%Q]
  else [].

(** The values [attempt] takes in
    [for (let attempt = 1; attempt <= max_retries; attempt++)]. *)
Definition attempt_numbers (max_retries : Z) : list Z :=
  map Z.of_nat (seq 1 (Z.to_nat max_retries)).

(** The [for] loop and the two statements after it, by recursion on the
    attempt numbers still to run. *)
Fixpoint retry_loop (cfg : Config) (opts : RequestOptions) (postData : string)
    (net : Network) (attempts : list Z) : bool * list event :=
  match attempts with
  | [] => (false, log "ERROR" msg_all_failed [])
  | attempt :: rest =>
      match attempt_once cfg opts postData net attempt with
      | (evs, Some ret) => (ret, evs)
      | (evs, None) =>
          let '(ret, trace) := retry_loop cfg opts postData net rest in
          (ret, evs ++ backoff cfg net attempt ++ trace)
      end
  end.

Definition sendPayload (cfg : Config) (payload : Payload) (net : Network)
    : bool * list event :=
  if String.eqb (endpoint cfg) "NULL" then
    (false, log "ERROR" msg_unconfigured [])
  else
    let postData := JSON_stringify payload in
    let opts := build_options cfg postData in
    retry_loop cfg opts postData net (attempt_numbers (max_retries cfg)).

End Delivery.

(** The specification's [DeliveryOutcome].  [sendPayload] itself returns a
    boolean and tells the cases apart in its last log line; [outcome] reads
    the tagged result back from the two. *)
Inductive Reason : Type :=
| Unconfigured
| Status (statusCode : Z).

Inductive DeliveryOutcome : Type :=
| Delivered
| Rejected (reason : Reason)
| Exhausted.

Definition outcome (run : bool * list event) : option DeliveryOutcome :=
  match fst run, List.last (snd run) (EvSleep 0) with
  | true, EvLog level message [LNum _] =>
      if String.eqb level "INFO" && String.eqb message msg_accepted
      then Some Delivered else None
  | false, EvLog level message [LNum statusCode; LStr _] =>
      if String.eqb level "ERROR" && String.eqb message msg_client_error
      then Some (Rejected (Status statusCode)) else None
  | false, EvLog level message [] =>
      if String.eqb level "ERROR" && String.eqb message msg_unconfigured
      then Some (Rejected Unconfigured)
      else if String.eqb level "ERROR" && String.eqb message msg_all_failed
      then Some Exhausted else None
  | _, _ => None
  end.

Definition is_request (e : event) : bool :=
  match e with EvRequest _ _ _ _ => true | _ => false end.

(** The HTTPS requests of a trace, in order. *)
Definition requests (trace : list event) : list event :=
  List.filter is_request trace.

(** ** Exceptions and the state of the process *)

Inductive JsError : Type :=
| TypeError (message : string)
| SystemError (code : string).

Definition error_message (e : JsError) : string :=
  match e with
  | TypeError message => message
  | SystemError code => code
  end.

Inductive result (A : Type) : Type :=
| Ok (value : A)
| Throw (e : JsError).
Arguments Ok {A} value.
Arguments Throw {A} e.

(** One logical CPU as [os.cpus()] reports it (milliseconds per category). *)
Record CpuTimes : Type := {
  user : Z;
  nice : Z;
  sys : Z;
  idle : Z;
  irq : Z
}.

Record CpuInfo : Type := { times : CpuTimes }.

(** An element of [previousCpuTicks]: the object [{ idle, total }]. *)
Record CpuTick : Type := {
  tick_idle : Z;
  tick_total : Z
}.

(** The filesystem as the agent sees it: the regular files with their
    contents, the directories, the paths whose reading fails and the paths
    whose creation or writing fails (permissions, read-only mounts). *)
Record FileSystem : Type := {
  files : gmap string string;
  dirs : gset string;
  unreadable : gset string;
  readonly : gset string
}.

(** The mutable state of the Node.js process and of the host around it:
    the filesystem, the identifiers [crypto.randomUUID] will return next,
    the module-level variable [previousCpuTicks], and what the process has
    done so far. *)
Record World : Type := {
  fs : FileSystem;
  uuid_source : nat -> string;
  previousCpuTicks : option (list CpuTick);
  trace : list event
}.

(** Statements that read and write the world and may throw; the effects of
    a statement that throws stay. *)
Definition M (A : Type) : Type := World -> result A * World.

#[global] Instance M_ret : MRet M := fun A a w => (Ok a, w).

#[global] Instance M_bind : MBind M := fun A B f m w =>
  match m w with
  | (Ok a, w') => f a w'
  | (Throw e, w') => (Throw e, w')
  end.

Definition throw {A : Type} (e : JsError) : M A := fun w => (Throw e, w).

Definition try_catch {A : Type} (body : M A) (handler : JsError -> M A) : M A :=
  fun w =>
    match body w with
    | (Ok a, w') => (Ok a, w')
    | (Throw e, w') => handler e w'
    end.

Definition emit (evs : list event) : M unit :=
  fun w => (Ok tt, {| fs := fs w; uuid_source := uuid_source w;
                      previousCpuTicks := previousCpuTicks w;
                      trace := trace w ++ evs |}).

Definition logM (level message : string) (args : list logarg) : M unit :=
  emit (log level message args).

Definition set_fs (fs' : FileSystem) : M unit :=
  fun w => (Ok tt, {| fs := fs'; uuid_source := uuid_source w;
                      previousCpuTicks := previousCpuTicks w;
                      trace := trace w |}).

Definition set_previousCpuTicks (ticks : list CpuTick) : M unit :=
  fun w => (Ok tt, {| fs := fs w; uuid_source := uuid_source w;
                      previousCpuTicks := Some ticks;
                      trace := trace w |}).

(** [crypto.randomUUID()]: takes the next identifier of the source. *)
Definition randomUUID : M string :=
  fun w => (Ok (uuid_source w 0%nat),
            {| fs := fs w; uuid_source := fun n => uuid_source w (S n);
               previousCpuTicks := previousCpuTicks w;
               trace := trace w |}).

(** ** Filesystem calls *)

Definition existsSync (f : FileSystem) (p : string) : bool :=
  bool_decide (is_Some (files f !! p)) || bool_decide (p ∈ dirs f).

Definition readFileSync (f : FileSystem) (p : string) : result string :=
  if bool_decide (p ∈ unreadable f) then Throw (SystemError "EACCES")
  else match files f !! p with
       | Some content => Ok content
       | None => Throw (SystemError (if bool_decide (p ∈ dirs f) then "EISDIR" else "ENOENT"))
       end.

(** [path.dirname] on a path without trailing or doubled slashes. *)
Fixpoint dirname_aux (s : string) : option string :=
  match s with
  | EmptyString => None
  | String c rest =>
      match dirname_aux rest with
      | Some d => Some (String c d)
      | None => if Ascii.eqb c "/" then Some EmptyString else None
      end
  end.

Definition dirname (s : string) : string :=
  match dirname_aux s with
  | None => "."
  | Some EmptyString => "/"
  | Some d => d
  end.

(** The directories above [p], nearest first: [path.dirname] again and
    again until it no longer changes the path. *)
Fixpoint ancestors_aux (fuel : nat) (p : string) : list string :=
  match fuel with
  | O => []
  | S fuel' =>
      let d := dirname p in
      if String.eqb d p then [] else d :: ancestors_aux fuel' d
  end.

Definition ancestors (p : string) : list string :=
  ancestors_aux (String.length p) p.

Definition make_dir (f : FileSystem) (d : string) : FileSystem :=
  {| files := files f; dirs := {[d]} ∪ dirs f;
     unreadable := unreadable f; readonly := readonly f |}.

(** [fs.mkdirSync(p, { recursive: true })] on the chain [p], its parent, the
    parent of that, and so on: the call walks up to the nearest directory
    that exists and creates the missing ones from there down.  A chain
    member that is a regular file fails the call ([code] for [p] itself,
    [ENOTDIR] for a directory above it), and so does a directory that may
    not be created; what was created before the failure stays, so the
    filesystem the call leaves is returned either way. *)
Fixpoint mkdirp (f : FileSystem) (chain : list string) (code : string)
    : result unit * FileSystem :=
  match chain with
  | [] => (Ok tt, f)
  | d :: up =>
      if bool_decide (d ∈ dirs f) then (Ok tt, f)
      else if bool_decide (is_Some (files f !! d)) then (Throw (SystemError code), f)
      else
        match mkdirp f up "ENOTDIR" with
        | (Ok _, f1) =>
            if bool_decide (d ∈ readonly f1) then (Throw (SystemError "EACCES"), f1)
            else (Ok tt, make_dir f1 d)
        | (Throw e, f1) => (Throw e, f1)
        end
  end.

Definition mkdirSync (f : FileSystem) (p : string) : result unit * FileSystem :=
  mkdirp f (p :: ancestors p) "EEXIST".

Definition writeFileSync (f : FileSystem) (p data : string) : result FileSystem :=
  if bool_decide (p ∈ readonly f) then Throw (SystemError "EACCES")
  else if bool_decide (p ∈ dirs f) then Throw (SystemError "EISDIR")
  else if bool_decide (dirname p ∈ dirs f) then
    Ok {| files := <[p := data]> (files f); dirs := dirs f;
          unreadable := unreadable f; readonly := readonly f |}
  else Throw (SystemError "ENOENT").

(** [String.prototype.trim] for the whitespace of ASCII: tab, line feed,
    vertical tab, form feed, carriage return and space. *)
Definition is_space (c : ascii) : bool :=
  let n := nat_of_ascii c in
  (Nat.leb 9 n && Nat.leb n 13) || Nat.eqb n 32.

Fixpoint trimStart (s : string) : string :=
  match s with
  | EmptyString => EmptyString
  | String c rest => if is_space c then trimStart rest else s
  end.

Fixpoint trimEnd (s : string) : string :=
  match s with
  | EmptyString => EmptyString
  | String c rest =>
      match trimEnd rest with
      | EmptyString => if is_space c then EmptyString else String c EmptyString
      | rest' => String c rest'
      end
  end.

Definition trim (s : string) : string := trimEnd (trimStart s).

Definition existsSyncM (p : string) : M bool :=
  fun w => (Ok (existsSync (fs w) p), w).

Definition readFileSyncM (p : string) : M string :=
  fun w => (readFileSync (fs w) p, w).

Definition mkdirSyncM (p : string) : M unit :=
  fun w =>
    match mkdirSync (fs w) p with
    | (Ok _, f') => (set_fs f' ;; emit [EvFs (Mkdir p) true]) w
    | (Throw e, f') => (set_fs f' ;; emit [EvFs (Mkdir p) false] ;; throw e) w
    end.

Definition writeFileSyncM (p data : string) : M unit :=
  fun w =>
    match writeFileSync (fs w) p data with
    | Ok f' => (set_fs f' ;; emit [EvFs (WriteFile p data) true]) w
    | Throw e => (emit [EvFs (WriteFile p data) false] ;; throw e) w
    end.

(** ** Identity: [getMachineId] *)

Definition paths : list string :=
  ["/etc/machine-id"; "/var/lib/dbus/machine-id"].

Definition persistencePath : string := "/var/lib/sylon/id".

Definition msg_id_error : string :=
  "Impossible de lire/écrire l'ID machine persistant: %s".

(** The [for (const p of paths)] loop: [Some id] when an iteration returns,
    [None] when the loop runs to its end.  A read that throws is swallowed
    by the [catch] inside the loop. *)
Fixpoint probe (f : FileSystem) (candidates : list string) : option string :=
  match candidates with
  | [] => None
  | p :: rest =>
      if existsSync f p then
        match readFileSync f p with
        | Ok content => Some (trim content)
        | Throw _ => probe f rest
        end
      else probe f rest
  end.

(** The body of the second [try]. *)
Definition persistent_id : M string :=
  found ← existsSyncM persistencePath;
  if (found : bool) then
    content ← readFileSyncM persistencePath;
    mret (trim content)
  else
    mid ← randomUUID;
    let dir := dirname persistencePath in
    dir_found ← existsSyncM dir;
    (if negb dir_found then mkdirSyncM dir else mret tt) ;;
    writeFileSyncM persistencePath mid ;;
    mret mid.

Definition getMachineId : M string :=
  fun w =>
    match probe (fs w) paths with
    | Some id => (Ok id, w)
    | None =>
        try_catch persistent_id
          (fun e => logM "ERROR" msg_id_error [LStr (error_message e)] ;; randomUUID) w
    end.

(** The canonical textual form of a UUID: 8-4-4-4-12 lower-case hexadecimal
    digits. *)
Definition is_hex (c : ascii) : bool :=
  let n := nat_of_ascii c in
  (Nat.leb 48 n && Nat.leb n 57) || (Nat.leb 97 n && Nat.leb n 102).

Fixpoint hex_run (n : nat) (s : string) : option string :=
  match n, s with
  | O, _ => Some s
  | S n', String c rest => if is_hex c then hex_run n' rest else None
  | S _, EmptyString => None
  end.

Definition dash (s : option string) : option string :=
  match s with
  | Some (String c rest) => if Ascii.eqb c "-" then Some rest else None
  | _ => None
  end.

Definition canonical_uuid (s : string) : bool :=
  let after n (o : option string) :=
    match o with Some t => hex_run n t | None => None end in
  match after 12%nat (dash (after 4%nat (dash (after 4%nat (dash
          (after 4%nat (dash (hex_run 8 s)))))))) with
  | Some EmptyString => true
  | _ => false
  end.

(** ** CPU utilisation: [calculateCpuPercent] *)

Definition currentTick (t : CpuTimes) : Z :=
  user t + nice t + sys t + idle t + irq t.

(** The array [currentCpuTicks].  (The sums [totalIdle] and [totalTick] the
    same callback accumulates are never read.) *)
Definition currentCpuTicks (cpus : list CpuInfo) : list CpuTick :=
  map (fun cpu => {| tick_idle := idle (times cpu);
                     tick_total := currentTick (times cpu) |}) cpus.

Definition undefined_property : JsError :=
  TypeError "Cannot read properties of undefined (reading 'idle')".

(** The loop [for (let i = 0; i < cpus.length; i++)] over the indices still
    to visit; [acc] is [(idleDifference, totalDifference)].  An index one of
    the arrays does not have reads [undefined], and reading [.idle] of it
    throws. *)
Fixpoint differences (indices : list nat) (current previous : list CpuTick)
    (acc : Z * Z) : result (Z * Z) :=
  match indices with
  | [] => Ok acc
  | i :: rest =>
      match current !! i, previous !! i with
      | Some c, Some p =>
          differences rest current previous
            (fst acc + (tick_idle c - tick_idle p),
             snd acc + (tick_total c - tick_total p))
      | _, _ => Throw undefined_property
      end
  end.

(** The whole number nearest to [y], the even one when two are equally
    near. *)
Definition round_even (y : Q) : Z :=
  let f := Qfloor y in
  match (y - inject_Z f ?= 1 # 2)%Q with
  | Lt => f
  | Gt => f + 1
  | Eq => if Z.even f then f else f + 1
  end.

(** The exponent [e] with [2^e <= |x| < 2^(e+1)], for [x] other than 0. *)
Definition binade (x : Q) : Z :=
  let e := Z.log2 (Z.abs (Qnum x)) - Z.log2 (Zpos (Qden x)) in
  if Qle_bool (2 ^ e) (Qabs x) then e else e - 1.

(** The binary64 number nearest to [x]: 53 significant bits, halfway cases to
    the even significand.  The exponent is not bounded: the quotients,
    products and differences the agent forms of tick counts lie far inside
    the range of binary64. *)
Definition double (x : Q) : Q :=
  let x := Qred x in
  if Qeq_bool x 0 then 0%Q
  else let e := binade x - 52 in
       Qred (inject_Z (round_even (x / 2 ^ e)) * 2 ^ e).

(** The operators [/], [*] and [-] on numbers. *)
Definition fdiv (a b : Q) : Q := double (a / b).
Definition fmul (a b : Q) : Q := double (a * b).
Definition fsub (a b : Q) : Q := double (a - b).

(** [parseFloat(x.toFixed(1))]: the multiple of 1/10 nearest to [x], the one
    of larger magnitude when two are equally near.  The result is held as
    that decimal, which is also how [JSON.stringify] prints the number
    [parseFloat] returns. *)
Definition toFixed1 (x : Q) : Q :=
  let n := Qfloor (Qabs x * 10 + (1 # 2)) in
  if Qle_bool 0 x then inject_Z n / 10 else - (inject_Z n / 10).

Definition calculateCpuPercent (cpus : list CpuInfo) : M Q :=
  fun w =>
    let current := currentCpuTicks cpus in
    match previousCpuTicks w with
    | None => (set_previousCpuTicks current ;; mret 0%Q) w
    | Some previous =>
        match differences (seq 0 (length cpus)) current previous (0, 0) with
        | Throw e => (Throw e, w)
        | Ok (idleDifference, totalDifference) =>
            (set_previousCpuTicks current ;;
             if 0 <? totalDifference then
               let idlePercent :=
                 fdiv (inject_Z idleDifference) (inject_Z totalDifference) in
               mret (toFixed1 (fsub 100 (fmul idlePercent 100)))
             else mret 0%Q) w
        end
    end.

(** ** Sampling: [getDiskUsage] and [collectMetrics] *)

Record DiskUsage : Type := {
  disk_total : Z;
  disk_used : Z;
  disk_free : Z;
  disk_percent : Q
}.

Definition msg_disk_simulated : string :=
  "Les métriques de disque (total, utilisé, libre) sont simulées. Un package externe est requis pour les valeurs réelles.".

Definition getDiskUsage : M DiskUsage :=
  logM "WARN" msg_disk_simulated [] ;;
  mret {| disk_total := 100000000000;
          disk_used := 40000000000;
          disk_free := 60000000000;
          disk_percent := 40 |}.

Record NetAddr : Type := {
  address : string;
  family : string;
  internal : bool
}.

(** The calls of the [os] module that throw a [SystemError] when the query
    of the operating system fails. *)
Inductive os_call : Type :=
| Hostname
| Uptime
| NetworkInterfaces.

(** What the [os] module and the clock answer during one call of
    [collectMetrics]: the value every call returns, and for the calls that
    can fail the error one throws instead of returning ([os_error]). *)
Record OsReading : Type := {
  now_iso : string;
  os_hostname : string;
  os_type : string;
  os_release : string;
  os_version : string;
  os_cpus : list CpuInfo;
  os_totalmem : Z;
  os_freemem : Z;
  os_loadavg : Q * Q * Q;
  os_uptime : Q;
  os_networkInterfaces : list (string * list NetAddr);
  os_error : os_call -> option JsError
}.

(** A call of the [os] module that may throw. *)
Definition checked {A : Type} (os : OsReading) (call : os_call) (value : A) : M A :=
  match os_error os call with
  | Some e => throw e
  | None => mret value
  end.

Record Platform : Type := {
  system : string;
  release : string;
  version : string
}.

(** [percent] is [None] when the quotient is not a finite number
    ([totalMem] is 0). *)
Record Memory : Type := {
  mem_total : Z;
  mem_available : Z;
  mem_percent : option Q
}.

Record MetricSnapshot : Type := {
  timestamp : string;
  snap_hostname : string;
  machine_id : string;
  platform : Platform;
  cpu_percent : Q;
  cpu_count_logical : nat;
  cpu_count_physical : nat;
  memory : Memory;
  disk : DiskUsage;
  loadavg : Q * Q * Q;
  uptime_seconds : Q;
  ipv4 : option string
}.

Definition is_digit (c : ascii) : bool :=
  let n := nat_of_ascii c in Nat.leb 48 n && Nat.leb n 57.

(** [s.replace(/\.\d{3}Z$/, 'Z')]. *)
Definition strip_millis (s : string) : string :=
  match List.rev (list_ascii_of_string s) with
  | z :: d3 :: d2 :: d1 :: dot :: rest =>
      if Ascii.eqb z "Z" && is_digit d3 && is_digit d2 && is_digit d1 && Ascii.eqb dot "."
      then string_of_list_ascii (List.rev rest ++ ["Z"%char])
      else s
  | _ => s
  end.

Definition is_public_ipv4 (a : NetAddr) : bool :=
  String.eqb (family a) "IPv4" && negb (internal a).

Definition truthy (s : option string) : bool :=
  match s with
  | Some (String _ _) => true
  | _ => false
  end.

(** The two nested loops over [os.networkInterfaces()]; [ipv4] is the
    variable of that name. *)
Fixpoint scan_interfaces (ifs : list (string * list NetAddr)) (ipv4 : option string)
    : option string :=
  match ifs with
  | [] => ipv4
  | (_, addrs) :: rest =>
      let ipv4' := match List.find is_public_ipv4 addrs with
                   | Some a => Some (address a)
                   | None => ipv4
                   end in
      if truthy ipv4' then ipv4' else scan_interfaces rest ipv4'
  end.

Definition collectMetrics (os : OsReading) : M MetricSnapshot :=
  host ← checked os Hostname (os_hostname os);
  id ← getMachineId;
  cpu ← calculateCpuPercent (os_cpus os);
  let totalMem := os_totalmem os in
  let freeMem := os_freemem os in
  let usedMem := totalMem - freeMem in
  let memPercent :=
    if totalMem =? 0 then None
    else Some (toFixed1 (inject_Z usedMem / inject_Z totalMem * 100)) in
  d ← getDiskUsage;
  up ← checked os Uptime (os_uptime os);
  interfaces ← checked os NetworkInterfaces (os_networkInterfaces os);
  mret {| timestamp := strip_millis (now_iso os);
          snap_hostname := host;
          machine_id := id;
          platform := {| system := os_type os; release := os_release os;
                         version := os_version os |};
          cpu_percent := cpu;
          cpu_count_logical := length (os_cpus os);
          cpu_count_physical := length (os_cpus os);
          memory := {| mem_total := totalMem; mem_available := freeMem;
                       mem_percent := memPercent |};
          disk := d;
          loadavg := os_loadavg os;
          uptime_seconds := up;
          ipv4 := scan_interfaces interfaces None |}.

(** ** The agent loop: [main] *)

Definition msg_first_run : string := "Erreur lors de la première exécution: %s".
Definition msg_main_loop : string := "Erreur inattendue dans la boucle principale: %s".

(** What the outside answers during one cycle. *)
Record TickInput : Type := {
  reading : OsReading;
  network : Network
}.

Definition event_seconds (e : event) : Q :=
  match e with
  | EvRequest _ _ _ elapsed => elapsed
  | EvSleep ms => ms / 1000
  | _ => 0
  end.

(** The time a trace takes: its requests and its timers (timers fire
    exactly after the delay asked for; everything else is instantaneous). *)
Definition duration (evs : list event) : Q :=
  fold_right (fun e acc => event_seconds e + acc)%Q 0%Q evs.

Section AgentLoop.

Variable url_parse : string -> UrlObject.
Variable JSON_stringify : MetricSnapshot -> string.

(** What [await sendPayload(cfg, payload)] does in a cycle started in world
    [w]; nothing when [collectMetrics] throws. *)
Definition delivery (cfg : Config) (inp : TickInput) (w : World) : list event :=
  match collectMetrics (reading inp) w with
  | (Ok payload, _) => snd (sendPayload url_parse JSON_stringify cfg payload (network inp))
  | (Throw _, _) => []
  end.

(** The [try]/[catch] both the first run and the interval callback consist
    of. *)
Definition cycle (cfg : Config) (catch_message : string) (inp : TickInput) : M unit :=
  try_catch
    (payload ← collectMetrics (reading inp);
     emit (snd (sendPayload url_parse JSON_stringify cfg payload (network inp))))
    (fun e => logM "ERROR" catch_message [LStr (error_message e)]).

(** The world in which cycle [k] starts.  The sampling part of a cycle is
    synchronous, so the cycles sample in the order they start. *)
Fixpoint world_before (cfg : Config) (inputs : nat -> TickInput) (w0 : World) (k : nat)
    : World :=
  match k with
  | O => w0
  | S k' =>
      snd (cycle cfg (if Nat.eqb k' 0 then msg_first_run else msg_main_loop)
             (inputs k') (world_before cfg inputs w0 k'))
  end.

Definition network_phase (cfg : Config) (inputs : nat -> TickInput) (w0 : World) (k : nat)
    : Q :=
  duration (delivery cfg (inputs k) (world_before cfg inputs w0 k)).

Record Tick : Type := {
  started : Q;
  finished : Q
}.

(** Cycle [k] of [main], on a clock of seconds that starts with the process.
    Cycle 0 runs at once and is awaited; then [setInterval] is armed, and
    fires every [interval] seconds from then on, whether or not the promise
    of the previous callback has settled. *)
Definition main (cfg : Config) (inputs : nat -> TickInput) (w0 : World) (k : nat) : Tick :=
  let interval := interval_seconds cfg in
  let start :=
    match k with
    | O => 0%Q
    | S _ => (network_phase cfg inputs w0 0
              + inject_Z (Z.of_nat k) * inject_Z interval)%Q
    end in
  {| started := start;
     finished := (start + network_phase cfg inputs w0 k)%Q |}.

End AgentLoop.

(** ** Logging: the body of [log] *)

(** [message.replace(/%s/g, () => args.shift())], the arguments already
    turned into strings as [replace] does with what the callback returns: the
    matches of [%s] are found from left to right in [message] itself, each is
    replaced by the next argument, and by ["undefined"] once the arguments
    have run out. *)
Fixpoint formattedMessage (message : string) (args : list string) : string :=
  match message with
  | EmptyString => EmptyString
  | String c rest =>
      match rest with
      | String c' rest' =>
          if Ascii.eqb c "%" && Ascii.eqb c' "s" then
            String.append (match args with a :: _ => a | [] => "undefined" end)
              (formattedMessage rest' (tl args))
          else String c (formattedMessage rest args)
      | EmptyString => String c EmptyString
      end
  end.

(** ** Configuration file: [loadConfig] *)

(** A value of a configuration object. *)
#[local] Unset Elimination Schemes.
Inductive JsValue : Type :=
| VNull
| VBool (b : bool)
| VNum (q : Q)
| VStr (s : string)
| VArr (items : list JsValue)
| VObj (entries : list (string * JsValue)).
#[local] Set Elimination Schemes.

(** What [jsyaml.load] returned, as [if (cfgFromFile)] and [Object.assign]
    see it: a falsy value ([undefined] for an empty document, [null],
    [false], 0, the empty string), or a truthy value with its own enumerable
    properties (the entries of a mapping). *)
Inductive YamlValue : Type :=
| Falsy
| Truthy (own : gmap string JsValue).

(** The object [{ ...DEFAULT_CONFIG }] of a configuration. *)
Definition config_object (c : Config) : gmap string JsValue :=
  <["endpoint" := VStr (endpoint c)]>
  (<["api_key" := VStr (api_key c)]>
  (<["interval_seconds" := VNum (inject_Z (interval_seconds c))]>
  (<["timeout_seconds" := VNum (timeout_seconds c)]>
  (<["max_retries" := VNum (inject_Z (max_retries c))]>
  (<["backoff_base" := VNum (backoff_base c)]>
  (<["jitter" := VNum (jitter c)]> ∅)))))).

Definition msg_config_loaded : string := "Configuration chargée depuis %s.".
Definition msg_config_missing : string :=
  "Fichier de configuration non trouvé (%s), utilisation des valeurs par défaut.".
Definition msg_config_error : string :=
  "Erreur lors du chargement ou de l'analyse du fichier de configuration : %s".

Definition default_config_path : string := "/etc/sylon/config.yaml".

Section LoadConfig.

(** [jsyaml.load]: the message of the exception it throws, or the value it
    returns. *)
Variable jsyaml_load : string -> string + YamlValue.

(** [Object.assign(config, cfgFromFile)] is the union that prefers the
    properties of the file. *)
Definition loadConfig (configPath : string) : M (gmap string JsValue) :=
  let config := config_object DEFAULT_CONFIG in
  let failed (message : string) : M (gmap string JsValue) :=
    logM "ERROR" msg_config_error [LStr message] ;; mret config in
  try_catch
    (found ← existsSyncM configPath;
     if (found : bool) then
       fileContents ← readFileSyncM configPath;
       match jsyaml_load fileContents with
       | inl message => failed message
       | inr Falsy => mret config
       | inr (Truthy own) =>
           logM "INFO" msg_config_loaded [LStr configPath] ;;
           mret (own ∪ config)
       end
     else
       logM "WARN" msg_config_missing [LStr configPath] ;;
       mret config)
    (fun e => failed (error_message e)).

End LoadConfig.

(** * Vocabulary of the properties *)

(** An outcome the loop retries: a status outside [200,300) and [400,500),
    or an exchange that failed. *)
Definition is_transient (r : NetResult) : bool :=
  match r with
  | Response statusCode _ =>
      negb ((200 <=? statusCode) && (statusCode <? 300))
      && negb ((400 <=? statusCode) && (statusCode <? 500))
  | Failure _ => true
  end.

(** What a trace does on the network and on the clock: the attempts and the
    pauses (milliseconds asked of the timer) between them, in order. *)
Inductive step : Type :=
| Attempt
| Pause (ms : Q).

Definition steps_of (e : event) : list step :=
  match e with
  | EvRequest _ _ _ _ => [Attempt]
  | EvSleep ms => [Pause ms]
  | _ => []
  end.

Definition schedule (trace : list event) : list step := flat_map steps_of trace.

(** The sums the specification names: over the logical CPUs, the growth of
    a counter between the stored reading and the current one. *)
Fixpoint sum_deltas (f : CpuTick -> Z) (previous current : list CpuTick) : Z :=
  match previous, current with
  | p :: previous', c :: current' => (f c - f p) + sum_deltas f previous' current'
  | _, _ => 0
  end.

Definition idle_delta (previous current : list CpuTick) : Z :=
  sum_deltas tick_idle previous current.

Definition total_delta (previous current : list CpuTick) : Z :=
  sum_deltas tick_total previous current.

(** No counter of a CPU went backwards between two readings. *)
Definition nondecreasing (p c : CpuInfo) : Prop :=
  user (times p) <= user (times c)
  /\ nice (times p) <= nice (times c)
  /\ sys (times p) <= sys (times c)
  /\ idle (times p) <= idle (times c)
  /\ irq (times p) <= irq (times c).

(** The world once [previousCpuTicks] holds [ticks]. *)
Definition sampled (ticks : list CpuTick) (w : World) : World :=
  {| fs := fs w; uuid_source := uuid_source w;
     previousCpuTicks := Some ticks; trace := trace w |}.

(** What the generating branch of [getMachineId] does to the filesystem:
    create the directory of the persistence file when it is missing (and the
    directories above it that are missing too), then write the identifier. *)
Definition ensure_dir (f : FileSystem) : result FileSystem :=
  if existsSync f (dirname persistencePath) then Ok f
  else match mkdirSync f (dirname persistencePath) with
       | (Ok _, f1) => Ok f1
       | (Throw e, _) => Throw e
       end.

(** The filesystem that step leaves, whether or not it threw. *)
Definition after_ensure_dir (f : FileSystem) : FileSystem :=
  if existsSync f (dirname persistencePath) then f
  else snd (mkdirSync f (dirname persistencePath)).

(** The directory of the persistence file and the directories above it. *)
Definition persistence_dirs : list string :=
  dirname persistencePath :: ancestors (dirname persistencePath).

Definition persist (f : FileSystem) (mid : string) : result FileSystem :=
  match ensure_dir f with
  | Ok f1 => writeFileSync f1 persistencePath mid
  | Throw e => Throw e
  end.

Fixpoint no_space (s : string) : bool :=
  match s with
  | EmptyString => true
  | String c rest => negb (is_space c) && no_space rest
  end.

(** The world after the [catch] of [getMachineId] ran: [drawn] identifiers
    taken from the source, the filesystem [f], the error logged last. *)
Definition after_fallback (w w' : World) (f : FileSystem) (drawn : nat) (e : JsError)
    : Prop :=
  fs w' = f
  /\ (forall n, uuid_source w' n = uuid_source w (drawn + n)%nat)
  /\ previousCpuTicks w' = previousCpuTicks w
  /\ List.last (trace w') (EvSleep 0)
     = EvLog "ERROR" msg_id_error [LStr (error_message e)].

(** Two filesystems in which path [p] looks the same. *)
Definition same_at (p : string) (f f' : FileSystem) : Prop :=
  files f' !! p = files f !! p
  /\ (p ∈ dirs f' <-> p ∈ dirs f)
  /\ (p ∈ unreadable f' <-> p ∈ unreadable f).

(** The number of [%s] in a message, counted as [formattedMessage] finds
    them. *)
Fixpoint placeholders (message : string) : nat :=
  match message with
  | EmptyString => 0
  | String c rest =>
      match rest with
      | String c' rest' =>
          if Ascii.eqb c "%" && Ascii.eqb c' "s" then S (placeholders rest')
          else placeholders rest
      | EmptyString => 0
      end
  end.

(** A log call that passes as many arguments as its message has
    placeholders. *)
Definition well_formed (e : event) : bool :=
  match e with
  | EvLog _ message args => Nat.eqb (placeholders message) (length args)
  | _ => true
  end.

(** [n] attempts from attempt number [attempt] on, with the backoff pause
    between any two of them. *)
Fixpoint alternating (cfg : Config) (net : Network) (attempt : Z) (n : nat) : list step :=
  match n with
  | O => []
  | S n' =>
      Attempt ::
      match n' with
      | O => []
      | S _ => Pause (sleepTime cfg net attempt * 1000) ::
               alternating cfg net (attempt + 1) n'
      end
  end.

(** The longest a call of [sendPayload] can take when no exchange takes
    longer than [T] seconds: every attempt made, every pause at its
    largest. *)
Definition worst_case (cfg : Config) (T : Q) : Q :=
  fold_right Qplus 0%Q
    (map (fun k => (T + if k <? max_retries cfg
                        then backoff_base cfg ^ k + jitter cfg else 0)%Q)
         (attempt_numbers (max_retries cfg))).

(** The configuration a configuration object stands for, when its seven
    settings have the types of the defaults (strings, numbers, whole numbers
    for the interval and the retry bound). *)
Definition whole (q : Q) : option Z :=
  if Qeq_bool q (inject_Z (Qfloor q)) then Some (Qfloor q) else None.

Definition read_config (o : gmap string JsValue) : option Config :=
  match o !! "endpoint", o !! "api_key", o !! "interval_seconds",
        o !! "timeout_seconds", o !! "max_retries", o !! "backoff_base",
        o !! "jitter" with
  | Some (VStr e), Some (VStr a), Some (VNum i), Some (VNum t), Some (VNum m),
    Some (VNum b), Some (VNum j) =>
      match whole i, whole m with
      | Some i', Some m' =>
          Some {| endpoint := e; api_key := a; interval_seconds := i';
                  timeout_seconds := t; max_retries := m'; backoff_base := b;
                  jitter := j |}
      | _, _ => None
      end
  | _, _, _, _, _, _, _ => None
  end.

(** A string of whitespace only (the empty string included). *)
Fixpoint blank (s : string) : bool :=
  match s with
  | EmptyString => true
  | String c rest => is_space c && blank rest
  end.

(** The snapshot [collectMetrics] builds from a reading, the identity and
    the CPU percentage. *)
Definition snapshot_of (os : OsReading) (id : string) (cpu : Q) : MetricSnapshot :=
  {| timestamp := strip_millis (now_iso os);
     snap_hostname := os_hostname os;
     machine_id := id;
     platform := {| system := os_type os; release := os_release os;
                    version := os_version os |};
     cpu_percent := cpu;
     cpu_count_logical := length (os_cpus os);
     cpu_count_physical := length (os_cpus os);
     memory := {| mem_total := os_totalmem os; mem_available := os_freemem os;
                  mem_percent :=
                    if os_totalmem os =? 0 then None
                    else Some (toFixed1 (inject_Z (os_totalmem os - os_freemem os)
                                         / inject_Z (os_totalmem os) * 100)) |};
     disk := {| disk_total := 100000000000; disk_used := 40000000000;
                disk_free := 60000000000; disk_percent := 40 |};
     loadavg := os_loadavg os;
     uptime_seconds := os_uptime os;
     ipv4 := scan_interfaces (os_networkInterfaces os) None |}.

(** The addresses of all interfaces, in the order of enumeration. *)
Definition all_addresses (ifs : list (string * list NetAddr)) : list NetAddr :=
  concat (map snd ifs).

(** * Concrete inputs *)

Definition example_endpoint : string :=
  "https://collector.example:8443/ingest?token=abc".

(** What [url.parse] makes of [example_endpoint]. *)
Definition example_url : UrlObject := {|
  protocol := Some "https:";
  auth := None;
  host := Some "collector.example:8443";
  url_port := Some "8443";
  hostname := Some "collector.example";
  pathname := Some "/ingest";
  search := Some "?token=abc";
  hash := None
|}.

Definition null_url : UrlObject := {|
  protocol := None; auth := None; host := None; url_port := None;
  hostname := None; pathname := None; search := None; hash := None
|}.

Definition example_url_parse (s : string) : UrlObject :=
  if String.eqb s example_endpoint then example_url else null_url.

(** The same host and path, with no port and no query. *)
Definition plain_url_parse (s : string) : UrlObject :=
  if String.eqb s example_endpoint then
    {| protocol := Some "https:"; auth := None; host := Some "collector.example";
       url_port := None; hostname := Some "collector.example";
       pathname := Some "/ingest"; search := None; hash := None |}
  else null_url.

Definition example_cfg : Config := {|
  endpoint := example_endpoint;
  api_key := "secret";
  interval_seconds := 300;
  timeout_seconds := 10;
  max_retries := 5;
  backoff_base := 2;
  jitter := 3 # 10
|}.

(** An agent told to sample every second and to try twice. *)
Definition hasty_cfg : Config := {|
  endpoint := example_endpoint;
  api_key := "secret";
  interval_seconds := 1;
  timeout_seconds := 10;
  max_retries := 2;
  backoff_base := 2;
  jitter := 3 # 10
|}.

(** An endpoint that gives the same answer at once, every time, while
    [Math.random()] returns one half. *)
Definition always (r : NetResult) : Network := {|
  respond := fun _ => r;
  latency := fun _ => 0%Q;
  random := fun _ => (1 # 2)%Q
|}.

Definition uuid_a : string := "3f2b8c1e-5d4a-4f6b-9a7c-0e1d2c3b4a59".
Definition uuid_b : string := "7a9e4d2c-1b3f-4c5d-8e6f-a0b1c2d3e4f5".
Definition uuid_c : string := "c4d5e6f7-0a1b-4c2d-b3e4-f5a6b7c8d9e0".
Definition uuid_d : string := "e8f9a0b1-2c3d-4e5f-a6b7-c8d9e0f1a2b3".

Definition example_uuids (n : nat) : string :=
  match n with
  | 0%nat => uuid_a
  | 1%nat => uuid_b
  | 2%nat => uuid_c
  | _ => uuid_d
  end.

(** A host without machine-id files where the agent may write. *)
Definition fresh_fs : FileSystem := {|
  files := ∅;
  dirs := {["/"; "/var"; "/var/lib"]};
  unreadable := ∅;
  readonly := ∅
|}.


(** A host with a systemd machine id. *)
Definition host_fs : FileSystem := {|
  files := {["/etc/machine-id" :=
               String.append "4c4c4544004b35108052b4c04f4d5731"
                 (String "010"%char EmptyString)]};
  dirs := {["/"; "/etc"]};
  unreadable := ∅;
  readonly := ∅
|}.

Definition world_of (f : FileSystem) (previous : option (list CpuTick)) : World := {|
  fs := f;
  uuid_source := example_uuids;
  previousCpuTicks := previous;
  trace := []
|}.

Definition cpu (busy idle_ms : Z) : CpuInfo :=
  {| times := {| user := busy; nice := 0; sys := 0; idle := idle_ms; irq := 0 |} |}.

Definition example_os : OsReading := {|
  now_iso := "2025-01-15T10:30:00.123Z";
  os_hostname := "node-1";
  os_type := "Linux";
  os_release := "6.1.0";
  os_version := "#1 SMP";
  os_cpus := [cpu 20 40];
  os_totalmem := 8000000000;
  os_freemem := 2000000000;
  os_loadavg := ((1 # 2)%Q, (1 # 4)%Q, (1 # 10)%Q);
  os_uptime := 3600%Q;
  os_networkInterfaces :=
    [("lo", [{| address := "127.0.0.1"; family := "IPv4"; internal := true |}]);
     ("eth0", [{| address := "fe80::1"; family := "IPv6"; internal := false |};
               {| address := "192.0.2.10"; family := "IPv4"; internal := false |}])];
  os_error := fun _ => None
|}.

Definition example_stringify (snap : MetricSnapshot) : string := "{}".

Definition hasty_inputs (k : nat) : TickInput :=
  {| reading := example_os; network := always (Response 500 "") |}.

(** An endpoint that answers 500 twice and then 200. *)
Definition recovering : Network := {|
  respond := fun k => if k <? 3 then Response 500 "" else Response 200 "ok";
  latency := fun _ => 0%Q;
  random := fun _ => (1 # 2)%Q
|}.

(** A host whose machine-id file holds a line feed only. *)
Definition blank_fs : FileSystem := {|
  files := {["/etc/machine-id" := String "010"%char EmptyString]};
  dirs := {["/"; "/etc"]};
  unreadable := ∅;
  readonly := ∅
|}.

(** A host with a configuration file. *)
Definition configured_fs : FileSystem := {|
  files := {[default_config_path := "endpoint: https://collector.example/ingest"]};
  dirs := {["/"; "/etc"; "/etc/sylon"]};
  unreadable := ∅;
  readonly := ∅
|}.

(** What [jsyaml.load] makes of three documents. *)
Definition example_jsyaml_load (fileContents : string) : string + YamlValue :=
  if String.eqb fileContents "endpoint: https://collector.example/ingest" then
    inr (Truthy {["endpoint" := VStr "https://collector.example/ingest"]})
  else if String.eqb fileContents "" then inr Falsy
  else inl "bad indentation of a mapping entry".

(** The reading of [example_os] after a second CPU came online. *)
Definition bigger_os : OsReading := {|
  now_iso := "2025-01-15T10:35:00.456Z";
  os_hostname := "node-1";
  os_type := "Linux";
  os_release := "6.1.0";
  os_version := "#1 SMP";
  os_cpus := [cpu 30 60; cpu 5 5];
  os_totalmem := 8000000000;
  os_freemem := 2000000000;
  os_loadavg := ((1 # 2)%Q, (1 # 4)%Q, (1 # 10)%Q);
  os_uptime := 3900%Q;
  os_networkInterfaces := [];
  os_error := fun _ => None
|}.

Definition bigger_inputs (k : nat) : TickInput :=
  {| reading := bigger_os; network := always (Response 200 "ok") |}.

(** A host on which [/var/lib] does not exist yet. *)
Definition bare_fs : FileSystem := {|
  files := ∅;
  dirs := {["/"; "/var"]};
  unreadable := ∅;
  readonly := ∅
|}.

(** The reading of [example_os] when one query of the operating system
    fails. *)
Definition failing_os (failed : os_call) : OsReading := {|
  now_iso := now_iso example_os;
  os_hostname := os_hostname example_os;
  os_type := os_type example_os;
  os_release := os_release example_os;
  os_version := os_version example_os;
  os_cpus := os_cpus example_os;
  os_totalmem := os_totalmem example_os;
  os_freemem := os_freemem example_os;
  os_loadavg := os_loadavg example_os;
  os_uptime := os_uptime example_os;
  os_networkInterfaces := os_networkInterfaces example_os;
  os_error := fun call =>
    match failed, call with
    | Hostname, Hostname | Uptime, Uptime | NetworkInterfaces, NetworkInterfaces =>
        Some (SystemError "ERR_SYSTEM_ERROR")
    | _, _ => None
    end
|}.

(** * Properties *)

(** ** Delivery *)

Lemma schedule_app (t1 t2 : list event) :
  schedule (t1 ++ t2) = schedule t1 ++ schedule t2.
Proof. unfold schedule. apply flat_map_app. Qed.

Lemma requests_app (t1 t2 : list event) :
  requests (t1 ++ t2) = requests t1 ++ requests t2.
Proof. unfold requests. apply List.filter_app. Qed.

Lemma last_skip {A : Type} (l1 l2 : list A) (x d : A) :
  List.last (l1 ++ x :: l2) d = List.last (x :: l2) d.
Proof.
  induction l1 as [|y l1 IH]; [reflexivity|].
  simpl app. rewrite <- IH. simpl. destruct (l1 ++ x :: l2) eqn:E; [|reflexivity].
  destruct l1; discriminate.
Qed.

(** The attempt numbers from [a] on, as the loop visits them. *)
Lemma attempt_numbers_from (n a : nat) :
  map Z.of_nat (seq a (S n)) = Z.of_nat a :: map Z.of_nat (seq (S a) n).
Proof. reflexivity. Qed.

Lemma in_attempt_numbers (m k : Z) :
  In k (attempt_numbers m) <-> 1 <= k <= m.
Proof.
  unfold attempt_numbers. rewrite in_map_iff. split.
  - intros (n & <- & Hn). apply in_seq in Hn. lia.
  - intros Hk. exists (Z.to_nat k). split; [lia|]. apply in_seq. lia.
Qed.

Section DeliveryProofs.

Context {Payload : Type}.
Variable url_parse : string -> UrlObject.
Variable JSON_stringify : Payload -> string.

Lemma attempt_once_shape cfg opts postData net attempt :
  exists l ret,
    attempt_once cfg opts postData net attempt
    = ([EvRequest opts postData (respond net attempt) (latency net attempt); l], ret)
    /\ is_request l = false /\ steps_of l = [].
Proof.
  unfold attempt_once, log.
  destruct (respond net attempt) as [s body|msg].
  - destruct ((200 <=? s) && (s <? 300)); [|destruct ((400 <=? s) && (s <? 500))];
      eauto 6.
  - eauto 6.
Qed.

Lemma attempt_once_transient cfg opts postData net attempt :
  is_transient (respond net attempt) = true ->
  snd (attempt_once cfg opts postData net attempt) = None.
Proof.
  unfold attempt_once, is_transient.
  destruct (respond net attempt) as [s body|msg]; [|reflexivity].
  destruct ((200 <=? s) && (s <? 300)); [discriminate|].
  destruct ((400 <=? s) && (s <? 500)); [discriminate|reflexivity].
Qed.

Lemma attempt_once_client_error cfg opts postData net attempt s body :
  respond net attempt = Response s body -> 400 <= s < 500 ->
  attempt_once cfg opts postData net attempt
  = ([EvRequest opts postData (Response s body) (latency net attempt);
      EvLog "ERROR" msg_client_error [LNum s; LStr body]], Some false).
Proof.
  intros Hr Hs. unfold attempt_once, log. rewrite Hr.
  replace ((200 <=? s) && (s <? 300)) with false by lia.
  replace ((400 <=? s) && (s <? 500)) with true by lia.
  reflexivity.
Qed.

Lemma backoff_no_request cfg net attempt :
  requests (backoff cfg net attempt) = [].
Proof. unfold backoff, log. destruct (attempt <? max_retries cfg); reflexivity. Qed.

(** Every request of the loop carries the options and the body it was
    started with. *)
Lemma retry_loop_requests cfg opts postData net attempts e :
  In e (snd (retry_loop cfg opts postData net attempts)) ->
  is_request e = true ->
  exists attempt, e = EvRequest opts postData (respond net attempt) (latency net attempt).
Proof.
  induction attempts as [|a rest IH]; simpl.
  - intros [<-|[]]; discriminate.
  - destruct (attempt_once_shape cfg opts postData net a) as (l & ret & -> & Hl & _).
    destruct ret as [ret|].
    + simpl. intros [<-|[<-|[]]] He; [eauto|congruence].
    + destruct (retry_loop cfg opts postData net rest) as [ret trace] eqn:Hloop.
      simpl in *. intros [<-|[<-|Hin]] He; [eauto|congruence|].
      apply in_app_or in Hin as [Hin|Hin]; [|auto].
      exfalso. pose proof (backoff_no_request cfg net a) as Hb.
      unfold requests in Hb.
      assert (In e (List.filter is_request (backoff cfg net a))) as Hf
        by (apply List.filter_In; auto).
      rewrite Hb in Hf. destruct Hf.
Qed.

(** The run of the loop when every remaining attempt is transient. *)
Lemma retry_loop_exhausted cfg opts postData net attempts :
  (forall a, In a attempts -> is_transient (respond net a) = true) ->
  let run := retry_loop cfg opts postData net attempts in
  fst run = false
  /\ List.last (snd run) (EvSleep 0) = EvLog "ERROR" msg_all_failed []
  /\ length (requests (snd run)) = length attempts
  /\ schedule (snd run)
     = flat_map (fun k => Attempt ::
                   if k <? max_retries cfg
                   then [Pause (sleepTime cfg net k * 1000)] else []) attempts.
Proof.
  induction attempts as [|a rest IH]; intros Htr; simpl.
  - auto.
  - pose proof (attempt_once_transient cfg opts postData net a (Htr a (or_introl eq_refl)))
      as Hnone.
    destruct (attempt_once_shape cfg opts postData net a) as (l & ret & Hshape & Hl & Hsl).
    rewrite Hshape in *. simpl in Hnone. subst ret.
    destruct IH as (Hret & Hlast & Hcount & Hsched);
      [intros; apply Htr; right; assumption|].
    destruct (retry_loop cfg opts postData net rest) as [ret trace] eqn:Hloop.
    simpl in *. subst ret. split; [reflexivity|]. split; [|split].
    + destruct trace as [|t trace]; [discriminate|].
      etransitivity; [|exact Hlast].
      exact (last_skip (EvRequest opts postData (respond net a) (latency net a)
                          :: l :: backoff cfg net a) trace t (EvSleep 0)).
    + rewrite Hl, requests_app, backoff_no_request. simpl. f_equal. exact Hcount.
    + rewrite schedule_app, Hsched, Hsl. simpl. f_equal. f_equal.
      unfold backoff, log. destruct (a <? max_retries cfg); reflexivity.
Qed.

(** In a trace that is some events without a request followed by [tr], a
    request is a request of [tr]. *)
Lemma request_after_prefix (quiet tr pre post : list event) (e : event) :
  is_request e = true ->
  requests quiet = [] ->
  pre ++ e :: post = quiet ++ tr ->
  exists pre', pre' ++ e :: post = tr.
Proof.
  intros He. revert pre. induction quiet as [|q quiet IH]; intros pre Hq Heq.
  - eauto.
  - unfold requests in Hq. simpl in Hq.
    destruct (is_request q) eqn:Hrq; [discriminate|].
    destruct pre as [|p pre]; simpl in Heq.
    + injection Heq as -> _. congruence.
    + injection Heq as _ Heq. eapply IH; eauto.
Qed.

(** A request that came back with a client error is the last one: the loop
    returns [false] after logging it. *)
Lemma retry_loop_rejected cfg opts postData net attempts
    pre opts' postData' s body elapsed post :
  snd (retry_loop cfg opts postData net attempts)
  = pre ++ EvRequest opts' postData' (Response s body) elapsed :: post ->
  400 <= s < 500 ->
  fst (retry_loop cfg opts postData net attempts) = false
  /\ post = [EvLog "ERROR" msg_client_error [LNum s; LStr body]].
Proof.
  intros Htrace Hs. revert pre Htrace.
  induction attempts as [|a rest IH]; intros pre Htrace; simpl in *.
  - destruct pre as [|? [|? ?]]; discriminate.
  - destruct (attempt_once_shape cfg opts postData net a) as (l & ret & Hshape & Hl & _).
    rewrite Hshape in *.
    assert (pre = [] -> ret = Some false
                        /\ l = EvLog "ERROR" msg_client_error [LNum s; LStr body])
      as Hhere.
    { intros ->. simpl in Htrace.
      assert (respond net a = Response s body) as Hr
        by (destruct ret as [?|]; [|destruct (retry_loop _ _ _ _ rest)];
            simpl in Htrace; congruence).
      rewrite (attempt_once_client_error cfg opts postData net a s body Hr Hs) in Hshape.
      injection Hshape as _ <- <-. auto. }
    destruct ret as [ret|].
    + simpl in *. destruct pre as [|p [|? [|? ?]]]; try discriminate.
      * destruct Hhere as [[= ->] ->]; [reflexivity|].
        injection Htrace as _ <-. auto.
      * injection Htrace as _ Hreq. rewrite Hreq in Hl. discriminate.
    + destruct (retry_loop cfg opts postData net rest) as [ret trace] eqn:Hloop.
      simpl in *. destruct pre as [|p pre].
      * destruct Hhere as [[=] _]. reflexivity.
      * injection Htrace as _ Htrace.
        destruct (request_after_prefix (l :: backoff cfg net a) trace pre post
                    (EvRequest opts' postData' (Response s body) elapsed))
          as (pre' & Hpre'); [reflexivity| |exact (eq_sym Htrace)|].
        { unfold requests. simpl. rewrite Hl. apply backoff_no_request. }
        exact (IH pre' (eq_sym Hpre')).
Qed.

Lemma sleepTime_bounds cfg net k :
  (0 <= jitter cfg)%Q -> (0 <= random net k < 1)%Q ->
  (backoff_base cfg ^ k <= sleepTime cfg net k <= backoff_base cfg ^ k + jitter cfg)%Q.
Proof.
  intros Hj [Hr0 Hr1]. unfold sleepTime.
  set (b := (backoff_base cfg ^ k)%Q). set (r := random net k) in *.
  set (j := jitter cfg) in *.
  assert (0 <= r * j)%Q by (apply Qmult_le_0_compat; assumption).
  assert (r * j <= 1 * j)%Q
    by (apply Qmult_le_compat_r; [apply Qlt_le_weak|]; assumption).
  split; lra.
Qed.

(** C1. Against an endpoint whose every answer is transient (HTTP 500, any
    status outside [200,300) and [400,500), or a failed exchange),
    [sendPayload] makes exactly [max_retries] attempts, asks the timer for
    [backoff_base^k + Math.random() * jitter] seconds between attempt [k] and
    attempt [k+1] for every attempt [k < max_retries], a duration within
    [backoff_base^k, backoff_base^k + jitter], and ends exhausted: it logs
    that all attempts failed and returns [false]. *)
Theorem sendPayload_exhausts_retries cfg payload net :
  endpoint cfg <> "NULL" ->
  0 <= max_retries cfg ->
  (0 <= jitter cfg)%Q ->
  (forall k, (0 <= random net k < 1)%Q) ->
  (forall k, 1 <= k <= max_retries cfg -> is_transient (respond net k) = true) ->
  let run := sendPayload url_parse JSON_stringify cfg payload net in
  fst run = false
  /\ outcome run = Some Exhausted
  /\ Z.of_nat (length (requests (snd run))) = max_retries cfg
  /\ schedule (snd run)
     = flat_map (fun k => Attempt ::
                   if k <? max_retries cfg
                   then [Pause (sleepTime cfg net k * 1000)] else [])
         (attempt_numbers (max_retries cfg))
  /\ forall k, 1 <= k < max_retries cfg ->
       sleepTime cfg net k = (backoff_base cfg ^ k + random net k * jitter cfg)%Q
       /\ (backoff_base cfg ^ k <= sleepTime cfg net k
           <= backoff_base cfg ^ k + jitter cfg)%Q.
Proof.
  intros Hep Hmax Hj Hrand Htr run. subst run. unfold sendPayload.
  apply String.eqb_neq in Hep. rewrite Hep.
  set (postData := JSON_stringify payload).
  set (opts := build_options url_parse cfg postData).
  destruct (retry_loop_exhausted cfg opts postData net (attempt_numbers (max_retries cfg)))
    as (Hret & Hlast & Hcount & Hsched).
  { intros a Ha. apply Htr. apply in_attempt_numbers. exact Ha. }
  repeat split.
  - exact Hret.
  - unfold outcome. rewrite Hret, Hlast. reflexivity.
  - rewrite Hcount. unfold attempt_numbers.
    rewrite length_map, length_seq. lia.
  - exact Hsched.
  - apply sleepTime_bounds; auto.
  - apply sleepTime_bounds; auto.
Qed.

(** C2. A run in which an attempt receives a status in [400,500) stops
    there: the request is followed by the client-error log line only (no
    pause, no further request), and the run is rejected with that status
    ([sendPayload] returns [false]).  In particular, against an endpoint
    that always answers 404, one attempt is made and the run is rejected. *)
Theorem sendPayload_client_error_stops cfg payload net :
  (forall pre opts postData s body elapsed post,
      snd (sendPayload url_parse JSON_stringify cfg payload net)
      = pre ++ EvRequest opts postData (Response s body) elapsed :: post ->
      400 <= s < 500 ->
      fst (sendPayload url_parse JSON_stringify cfg payload net) = false
      /\ post = [EvLog "ERROR" msg_client_error [LNum s; LStr body]]
      /\ requests post = [] /\ schedule post = []
      /\ outcome (sendPayload url_parse JSON_stringify cfg payload net)
         = Some (Rejected (Status s)))
  /\ (endpoint cfg <> "NULL" -> 1 <= max_retries cfg ->
      (forall k, exists body, respond net k = Response 404 body) ->
      length (requests (snd (sendPayload url_parse JSON_stringify cfg payload net))) = 1%nat
      /\ fst (sendPayload url_parse JSON_stringify cfg payload net) = false
      /\ outcome (sendPayload url_parse JSON_stringify cfg payload net)
         = Some (Rejected (Status 404))).
Proof.
  split.
  - intros pre opts postData s body elapsed post Htrace Hs.
    assert (fst (sendPayload url_parse JSON_stringify cfg payload net) = false
            /\ post = [EvLog "ERROR" msg_client_error [LNum s; LStr body]])
      as [Hret Hpost].
    { unfold sendPayload in *.
      destruct (String.eqb (endpoint cfg) "NULL").
      - simpl in Htrace. destruct pre as [|? [|? ?]]; discriminate.
      - eapply retry_loop_rejected; eauto. }
    subst post. repeat split; try assumption.
    unfold outcome. rewrite Hret, Htrace, last_skip. reflexivity.
  - intros Hep Hmax H404. unfold sendPayload.
    apply String.eqb_neq in Hep. rewrite Hep.
    unfold attempt_numbers.
    destruct (Z.to_nat (max_retries cfg)) as [|n] eqn:Hn; [lia|].
    rewrite attempt_numbers_from. simpl retry_loop.
    destruct (H404 1) as [body Hbody].
    rewrite (attempt_once_client_error _ _ _ _ _ 404 body Hbody) by lia.
    repeat split.
Qed.

(** C3. With the endpoint left at its "not configured" value, [sendPayload]
    returns at once: it logs that the endpoint is not configured, makes no
    request, waits for no timer, and the run is rejected as unconfigured. *)
Theorem sendPayload_unconfigured cfg payload net :
  endpoint cfg = "NULL" ->
  sendPayload url_parse JSON_stringify cfg payload net
  = (false, [EvLog "ERROR" msg_unconfigured []])
  /\ requests (snd (sendPayload url_parse JSON_stringify cfg payload net)) = []
  /\ schedule (snd (sendPayload url_parse JSON_stringify cfg payload net)) = []
  /\ outcome (sendPayload url_parse JSON_stringify cfg payload net)
     = Some (Rejected Unconfigured).
Proof.
  intros Hep. unfold sendPayload. rewrite Hep. repeat split.
Qed.

(** C10. With a configured endpoint (and at least one attempt allowed) a run
    starts with a request, and every request of a run goes to port 443 of the
    host name [url.parse] finds in the endpoint, with the path name it finds
    as the request path; nothing else of the URL is used: whatever port,
    query, fragment, credentials or scheme the parsed URL has, the run is the
    same. *)
Theorem requests_use_host_port_443_and_pathname cfg payload net :
  (forall opts postData result elapsed,
      In (EvRequest opts postData result elapsed)
         (snd (sendPayload url_parse JSON_stringify cfg payload net)) ->
      opt_hostname opts = hostname (url_parse (endpoint cfg))
      /\ opt_port opts = 443
      /\ opt_path opts = pathname (url_parse (endpoint cfg)))
  /\ (endpoint cfg <> "NULL" -> 1 <= max_retries cfg ->
      exists opts rest,
        snd (sendPayload url_parse JSON_stringify cfg payload net)
        = EvRequest opts (JSON_stringify payload) (respond net 1) (latency net 1) :: rest
        /\ opt_hostname opts = hostname (url_parse (endpoint cfg))
        /\ opt_port opts = 443
        /\ opt_path opts = pathname (url_parse (endpoint cfg)))
  /\ (forall url_parse' : string -> UrlObject,
      hostname (url_parse' (endpoint cfg)) = hostname (url_parse (endpoint cfg)) ->
      pathname (url_parse' (endpoint cfg)) = pathname (url_parse (endpoint cfg)) ->
      sendPayload url_parse' JSON_stringify cfg payload net
      = sendPayload url_parse JSON_stringify cfg payload net).
Proof.
  split; [|split].
  - intros opts postData result elapsed Hin. unfold sendPayload in Hin.
    destruct (String.eqb (endpoint cfg) "NULL").
    + destruct Hin as [Hin|[]]. discriminate.
    + apply retry_loop_requests in Hin as [attempt Hreq]; [|reflexivity].
      injection Hreq as -> _ _ _. repeat split.
  - intros Hep Hmax. unfold sendPayload.
    apply String.eqb_neq in Hep. rewrite Hep.
    unfold attempt_numbers.
    destruct (Z.to_nat (max_retries cfg)) as [|n] eqn:Hn; [lia|].
    rewrite attempt_numbers_from. simpl retry_loop.
    destruct (attempt_once_shape cfg (build_options url_parse cfg (JSON_stringify payload))
                (JSON_stringify payload) net (Z.of_nat 1)) as (l & ret & -> & _).
    destruct ret as [ret|];
      [|destruct (retry_loop cfg _ (JSON_stringify payload) net _) as [ret trace]];
      simpl; do 2 eexists; repeat split.
  - intros url_parse' Hh Hp. unfold sendPayload, build_options.
    rewrite Hh, Hp. reflexivity.
Qed.

End DeliveryProofs.

(** ** Binary64 arithmetic *)

Lemma round_even_cases (y : Q) :
  round_even y = Qfloor y \/ round_even y = Qfloor y + 1.
Proof.
  unfold round_even. destruct (_ ?= _)%Q; [destruct (Z.even _)|..]; auto.
Qed.

(** The nearest integer is within one half. *)
Lemma round_even_near (y : Q) : (Qabs (inject_Z (round_even y) - y) <= 1 # 2)%Q.
Proof.
  pose proof (Qfloor_le y) as Hlo. pose proof (Qlt_floor y) as Hhi.
  rewrite inject_Z_plus in Hhi. change (inject_Z 1) with 1%Q in Hhi.
  apply Qabs_Qle_condition. unfold round_even.
  destruct (y - inject_Z (Qfloor y) ?= 1 # 2)%Q eqn:Hc.
  - apply Qeq_alt in Hc. destruct (Z.even (Qfloor y)).
    + split; lra.
    + rewrite inject_Z_plus. change (inject_Z 1) with 1%Q. split; lra.
  - apply Qlt_alt in Hc. split; lra.
  - apply Qgt_alt in Hc. rewrite inject_Z_plus. change (inject_Z 1) with 1%Q. split; lra.
Qed.

Lemma round_even_le (y : Q) (m : Z) : (y <= inject_Z m)%Q -> round_even y <= m.
Proof.
  intros Hy. pose proof (Qfloor_le y) as Hlo.
  assert (Qfloor y <= m) as Hf
    by (rewrite <- (Qfloor_Z m); apply Qfloor_resp_le; exact Hy).
  unfold round_even.
  destruct (y - inject_Z (Qfloor y) ?= 1 # 2)%Q eqn:Hc.
  - destruct (Z.even (Qfloor y)); [exact Hf|].
    apply Qeq_alt in Hc.
    assert (Qfloor y < m); [|lia].
    rewrite Zlt_Qlt. lra.
  - exact Hf.
  - apply Qgt_alt in Hc. assert (Qfloor y < m); [|lia].
    rewrite Zlt_Qlt. lra.
Qed.

Lemma round_even_ge (y : Q) (m : Z) : (inject_Z m <= y)%Q -> m <= round_even y.
Proof.
  intros Hy.
  assert (m <= Qfloor y) as Hf
    by (rewrite <- (Qfloor_Z m); apply Qfloor_resp_le; exact Hy).
  destruct (round_even_cases y) as [-> | ->]; lia.
Qed.

Lemma two_power_pos (e : Z) : (0 < 2 ^ e)%Q.
Proof. apply Qpower_0_lt. reflexivity. Qed.

Lemma two_power_plus (n m : Z) : (2 ^ (n + m) == 2 ^ n * 2 ^ m)%Q.
Proof. apply Qpower_plus. discriminate. Qed.

Lemma log2_bounds (a : Z) :
  0 < a -> (2 ^ Z.log2 a <= inject_Z a < 2 ^ (Z.log2 a + 1))%Q.
Proof.
  intros Ha. destruct (Z.log2_spec a Ha) as [Hlo Hhi].
  pose proof (Z.log2_nonneg a) as Hnn.
  change 2%Q with (inject_Z 2).
  rewrite <- !Zpower_Qpower by lia.
  split; [rewrite <- Zle_Qle; exact Hlo|rewrite <- Zlt_Qlt; exact Hhi].
Qed.

(** [binade x] is the exponent of the power of two next below [|x|]. *)
Lemma binade_spec (x : Q) :
  ~ (x == 0)%Q -> (2 ^ binade x <= Qabs x < 2 ^ (binade x + 1))%Q.
Proof.
  intros Hx. unfold binade.
  set (a := Z.abs (Qnum x)). set (b := Z.pos (Qden x)).
  assert (0 < a) as Ha.
  { subst a. destruct x as [[|n|n] d]; simpl; try lia. exfalso. apply Hx. reflexivity. }
  assert (0 < b) as Hb by (subst b; lia).
  destruct (log2_bounds a Ha) as [Ha1 Ha2]. destruct (log2_bounds b Hb) as [Hb1 Hb2].
  assert (Qabs x == inject_Z a / inject_Z b)%Q as Habs.
  { subst a b. destruct x as [n d]. unfold Qabs, Qeq, Qdiv, Qmult, Qinv, inject_Z.
    simpl. lia. }
  set (la := Z.log2 a) in *. set (lb := Z.log2 b) in *.
  assert (0 < inject_Z b)%Q as HbQ by (rewrite Zlt_Qlt in Hb; exact Hb).
  pose proof (two_power_pos la) as Hpa. pose proof (two_power_pos lb) as Hpb.
  pose proof (two_power_pos (la - lb)) as Hpe.
  assert (2 ^ la == 2 ^ (la - lb) * 2 ^ lb)%Q as Hsplit
    by (rewrite <- two_power_plus; f_equiv; lia).
  assert (2 ^ (la + 1) == 2 * 2 ^ la)%Q as Ha3
    by (rewrite two_power_plus; change (2 ^ 1)%Q with 2%Q; ring).
  assert (2 ^ (lb + 1) == 2 * 2 ^ lb)%Q as Hb3
    by (rewrite two_power_plus; change (2 ^ 1)%Q with 2%Q; ring).
  set (q := (inject_Z a / inject_Z b)%Q) in *.
  assert (q * inject_Z b == inject_Z a)%Q as Hq by (subst q; field; lra).
  assert (q < 2 * 2 ^ (la - lb))%Q as Hupper.
  { apply Qnot_le_lt. intros Hle.
    assert (2 * 2 ^ (la - lb) * inject_Z b <= q * inject_Z b)%Q
      by (apply Qmult_le_compat_r; lra).
    assert (2 * 2 ^ (la - lb) * 2 ^ lb <= 2 * 2 ^ (la - lb) * inject_Z b)%Q
      by (apply Qmult_le_l; lra).
    lra. }
  assert (2 ^ (la - lb) < 2 * q)%Q as Hlower.
  { apply Qnot_le_lt. intros Hle.
    assert (2 * q * inject_Z b <= 2 ^ (la - lb) * inject_Z b)%Q
      by (apply Qmult_le_compat_r; lra).
    assert (2 ^ (la - lb) * inject_Z b < 2 ^ (la - lb) * (2 * 2 ^ lb))%Q
      by (apply Qmult_lt_l; lra).
    lra. }
  destruct (Qle_bool (2 ^ (la - lb)) (Qabs x)) eqn:Htest; rewrite Habs.
  - apply Qle_bool_iff in Htest. rewrite Habs in Htest.
    split; [exact Htest|]. rewrite two_power_plus. change (2 ^ 1)%Q with 2%Q. lra.
  - assert (q < 2 ^ (la - lb))%Q as Hlt.
    { apply Qnot_le_lt. intros Hle. rewrite <- Habs in Hle.
      apply Qle_bool_iff in Hle. congruence. }
    assert (2 ^ (la - lb) == 2 * 2 ^ (la - lb - 1))%Q as Hhalf.
    { replace (la - lb) with (1 + (la - lb - 1)) at 1 by lia.
      rewrite two_power_plus. change (2 ^ 1)%Q with 2%Q. ring. }
    replace (la - lb - 1 + 1) with (la - lb) by lia.
    split; lra.
Qed.

Lemma double_Qeq (x y : Q) : (x == y)%Q -> double x = double y.
Proof. intros Hxy. unfold double. rewrite (Qred_complete x y Hxy). reflexivity. Qed.

Lemma double_0 : double 0 = 0%Q.
Proof. reflexivity. Qed.

(** [double x] written out, for [x] other than 0. *)
Lemma double_unfold (x : Q) :
  ~ (x == 0)%Q ->
  exists e, e = binade (Qred x) - 52
    /\ (double x == inject_Z (round_even (x / 2 ^ e)) * 2 ^ e)%Q.
Proof.
  intros Hx. unfold double.
  assert (Qeq_bool (Qred x) 0 = false) as ->.
  { apply not_true_is_false. intros H. apply Qeq_bool_iff in H.
    rewrite Qred_correct in H. contradiction. }
  eexists. split; [reflexivity|]. cbv zeta. rewrite Qred_correct.
  set (e := binade (Qred x) - 52).
  assert (round_even (Qred x / 2 ^ e) = round_even (x / 2 ^ e)) as ->; [|reflexivity].
  unfold round_even.
  assert (Qred x / 2 ^ e == x / 2 ^ e)%Q as Heq by (rewrite Qred_correct; reflexivity).
  rewrite (Qfloor_comp _ _ Heq).
  assert ((Qred x / 2 ^ e - inject_Z (Qfloor (x / 2 ^ e)) ?= 1 # 2)%Q
          = (x / 2 ^ e - inject_Z (Qfloor (x / 2 ^ e)) ?= 1 # 2)%Q) as ->; [|reflexivity].
  apply Qcompare_comp; [rewrite Heq|]; reflexivity.
Qed.

(** Rounding to a double changes a number by at most 2^-53 of it. *)
Lemma double_error (x : Q) :
  (Qabs (double x - x) <= Qabs x * (1 # 2 ^ 53))%Q.
Proof.
  destruct (Qeq_dec x 0) as [Hx|Hx].
  - rewrite (double_Qeq x 0 Hx), double_0, Hx. unfold Qle. simpl. lia.
  - destruct (double_unfold x Hx) as (e & He & ->).
    destruct (binade_spec (Qred x)) as [Hlo _]; [rewrite Qred_correct; exact Hx|].
    rewrite (Qabs_wd _ _ (Qred_correct x)) in Hlo.
    replace (binade (Qred x)) with (e + 52) in Hlo by lia.
    rewrite two_power_plus in Hlo.
    pose proof (two_power_pos e) as Hp.
    set (p := (2 ^ e)%Q) in *.
    pose proof (round_even_near (x / p)) as Hnear.
    set (m := inject_Z (round_even (x / p))) in *.
    assert (m * p - x == (m - x / p) * p)%Q as -> by (field; lra).
    rewrite Qabs_Qmult, (Qabs_pos p) by lra.
    assert (Qabs (m - x / p) * p <= (1 # 2) * p)%Q
      by (apply Qmult_le_compat_r; lra).
    change (2 ^ 52)%Q with (inject_Z (2 ^ 52)) in Hlo.
    assert ((1 # 2 ^ 53) == (1 # 2) * / inject_Z (2 ^ 52))%Q as Hu by reflexivity.
    assert (p <= Qabs x * / inject_Z (2 ^ 52))%Q.
    { apply Qle_shift_div_l; [reflexivity|exact Hlo]. }
    rewrite Hu. lra.
Qed.

(** A number between 0 and a whole number below 2^53 stays there. *)
Lemma double_range (x : Q) (n : Z) :
  0 <= n < 2 ^ 53 -> (0 <= x <= inject_Z n)%Q -> (0 <= double x <= inject_Z n)%Q.
Proof.
  intros [Hn0 Hn] [Hx0 Hxn].
  destruct (Qeq_dec x 0) as [Hx|Hx].
  { rewrite (double_Qeq x 0 Hx), double_0. split; [lra|].
    change 0%Q with (inject_Z 0). rewrite <- Zle_Qle. exact Hn0. }
  destruct (double_unfold x Hx) as (e & He & ->).
  destruct (binade_spec (Qred x)) as [Hlo _]; [rewrite Qred_correct; exact Hx|].
  rewrite (Qabs_wd _ _ (Qred_correct x)), (Qabs_pos x Hx0) in Hlo.
  assert (e <= 0) as He0.
  { assert (binade (Qred x) < 53); [|lia].
    apply (Qpower_lt_compat_l_inv 2); [|reflexivity].
    apply (Qle_lt_trans _ x); [exact Hlo|].
    apply (Qle_lt_trans _ (inject_Z n)); [exact Hxn|].
    change (2 ^ 53)%Q with (inject_Z (2 ^ 53)). rewrite <- Zlt_Qlt. exact Hn. }
  pose proof (two_power_pos e) as Hp.
  assert (2 ^ e * inject_Z (2 ^ (- e)) == 1)%Q as Hinv.
  { rewrite Zpower_Qpower by lia. change (inject_Z 2) with 2%Q.
    rewrite <- two_power_plus. replace (e + - e) with 0 by lia. reflexivity. }
  set (p := (2 ^ e)%Q) in *. set (k := inject_Z (2 ^ (- e))) in *.
  assert (x / p == x * k)%Q as Hy.
  { assert (k == / p)%Q as -> by (field_simplify_eq; [lra|lra]). reflexivity. }
  assert (0 <= k)%Q as Hk.
  { subst k. change 0%Q with (inject_Z 0). rewrite <- Zle_Qle. apply Z.pow_nonneg. lia. }
  assert (0 <= round_even (x / p) <= n * 2 ^ (- e)) as [Hr0 Hr1].
  { split.
    - apply round_even_ge. rewrite Hy. change (inject_Z 0) with 0%Q.
      apply Qmult_le_0_compat; assumption.
    - apply round_even_le. rewrite Hy, inject_Z_mult. fold k.
      apply Qmult_le_compat_r; assumption. }
  rewrite Zle_Qle in Hr0, Hr1. rewrite inject_Z_mult in Hr1. fold k in Hr1.
  change (inject_Z 0) with 0%Q in Hr0.
  set (m := inject_Z (round_even (x / p))) in *.
  split.
  - apply Qmult_le_0_compat; lra.
  - assert (m * p <= inject_Z n * k * p)%Q by (apply Qmult_le_compat_r; lra).
    assert (inject_Z n * k * p == inject_Z n)%Q as Hnk.
    { transitivity (inject_Z n * (p * k))%Q; [ring|]. rewrite Hinv. ring. }
    lra.
Qed.

(** ** CPU utilisation *)

Lemma toFixed1_Qeq (x y : Q) : (x == y)%Q -> toFixed1 x = toFixed1 y.
Proof.
  intros Hxy. unfold toFixed1.
  assert (Qfloor (Qabs x * 10 + (1 # 2)) = Qfloor (Qabs y * 10 + (1 # 2))) as ->
    by (apply Qfloor_comp; rewrite Hxy; reflexivity).
  assert (Qle_bool 0 x = Qle_bool 0 y) as ->; [|reflexivity].
  destruct (Qle_bool 0 y) eqn:Hy.
  - apply Qle_bool_iff. apply Qle_bool_iff in Hy. rewrite Hxy. exact Hy.
  - destruct (Qle_bool 0 x) eqn:Hx; [|reflexivity].
    apply Qle_bool_iff in Hx. rewrite Hxy in Hx. apply Qle_bool_iff in Hx. congruence.
Qed.

(** [toFixed1 x] is a whole number of tenths. *)
Lemma toFixed1_tenths (x : Q) : exists n : Z, (toFixed1 x == inject_Z n / 10)%Q.
Proof.
  unfold toFixed1. destruct (Qle_bool 0 x).
  - eexists. reflexivity.
  - exists (- Qfloor (Qabs x * 10 + (1 # 2))).
    rewrite inject_Z_opp. field.
Qed.


Lemma toFixed1_range (x : Q) : (0 <= x <= 100)%Q -> (0 <= toFixed1 x <= 100)%Q.
Proof.
  intros [H0 H100]. unfold toFixed1.
  assert (Qle_bool 0 x = true) as -> by (apply Qle_bool_iff; exact H0).
  assert (0 <= Qfloor (Qabs x * 10 + (1 # 2)) <= 1000) as [Hlo Hhi].
  { rewrite (Qfloor_comp _ (x * 10 + (1 # 2))%Q)
      by (rewrite (Qabs_pos x H0); reflexivity).
    split.
    - change 0 with (Qfloor 0). apply Qfloor_resp_le. lra.
    - change 1000 with (Qfloor (1000 + (1 # 2))). apply Qfloor_resp_le. lra. }
  rewrite Zle_Qle in Hlo, Hhi.
  set (n := inject_Z (Qfloor (Qabs x * 10 + (1 # 2)))) in *.
  change (inject_Z 0) with 0%Q in Hlo. change (inject_Z 1000) with 1000%Q in Hhi.
  assert (n / 10 == n * (1 # 10))%Q as -> by field. split; lra.
Qed.

Lemma Qfloor_unique (y : Q) (n : Z) :
  (inject_Z n <= y < inject_Z n + 1)%Q -> Qfloor y = n.
Proof.
  intros [Hlo Hhi]. pose proof (Qfloor_le y) as H1. pose proof (Qlt_floor y) as H2.
  rewrite inject_Z_plus in H2. change (inject_Z 1) with 1%Q in H2.
  assert (Qfloor y < n + 1).
  { rewrite Zlt_Qlt, inject_Z_plus. change (inject_Z 1) with 1%Q. lra. }
  assert (n < Qfloor y + 1).
  { rewrite Zlt_Qlt, inject_Z_plus. change (inject_Z 1) with 1%Q. lra. }
  lia.
Qed.

(** The three operations of [100 - idlePercent * 100] on a quotient in
    [0, 1]: the result stays in [0, 100] and is off by at most 300 * 2^-53. *)
Lemma utilisation_double (i t : Z) :
  0 <= i <= t -> 0 < t ->
  let r := fsub 100 (fmul (fdiv (inject_Z i) (inject_Z t)) 100) in
  (0 <= r <= 100)%Q
  /\ (Qabs (r - 100 * (1 - inject_Z i / inject_Z t)) <= 300 # 2 ^ 53)%Q.
Proof.
  intros [Hi Hit] Ht r. subst r. unfold fsub, fmul, fdiv.
  rewrite Zle_Qle in Hi, Hit. rewrite Zlt_Qlt in Ht.
  change (inject_Z 0) with 0%Q in *.
  set (q := (inject_Z i / inject_Z t)%Q).
  assert (0 <= q)%Q as Hq0 by (apply Qle_shift_div_l; [assumption|lra]).
  assert (q <= 1)%Q as Hq1 by (apply Qle_shift_div_r; [assumption|lra]).
  pose proof (double_error q) as E1.
  destruct (double_range q 1) as [R1lo R1hi]; [lia|split; assumption|].
  change (inject_Z 1) with 1%Q in R1hi.
  set (r1 := double q) in *.
  pose proof (double_error (r1 * 100)) as E2.
  destruct (double_range (r1 * 100) 100) as [R2lo R2hi];
    [lia|change (inject_Z 100) with 100%Q; split; lra|].
  change (inject_Z 100) with 100%Q in R2hi.
  set (r2 := double (r1 * 100)) in *.
  pose proof (double_error (100 - r2)) as E3.
  destruct (double_range (100 - r2) 100) as [R3lo R3hi];
    [lia|change (inject_Z 100) with 100%Q; split; lra|].
  change (inject_Z 100) with 100%Q in R3hi.
  set (r3 := double (100 - r2)) in *.
  split; [split; assumption|].
  rewrite (Qabs_pos q Hq0) in E1.
  rewrite (Qabs_pos (r1 * 100)) in E2 by lra.
  rewrite (Qabs_pos (100 - r2)) in E3 by lra.
  set (u := (1 # 2 ^ 53)%Q) in *.
  assert (0 < u)%Q as Hu by reflexivity.
  assert (q * u <= 1 * u)%Q by (apply Qmult_le_compat_r; lra).
  assert (r1 * 100 * u <= 100 * u)%Q by (apply Qmult_le_compat_r; lra).
  assert ((100 - r2) * u <= 100 * u)%Q by (apply Qmult_le_compat_r; lra).
  assert ((300 # 2 ^ 53) == 300 * u)%Q as -> by reflexivity.
  apply Qabs_Qle_condition in E1, E2, E3. apply Qabs_Qle_condition.
  split; lra.
Qed.

(** Rounded to one decimal, a value that is off by less than the distance of
    [x] to the nearest rounding boundary is within half a tenth of [x]. *)
Lemma toFixed1_of_approximation (i t : Z) (r : Q) :
  0 <= i <= t -> 0 < t < 2 ^ 40 ->
  (0 <= r)%Q ->
  (Qabs (r - 100 * (1 - inject_Z i / inject_Z t)) <= 300 # 2 ^ 53)%Q ->
  let x := (100 * (1 - inject_Z i / inject_Z t))%Q in
  (Qabs (toFixed1 r - x) <= 1 # 20)%Q
  /\ ((forall k : Z, ~ (10 * x == inject_Z k + (1 # 2))%Q) -> toFixed1 r = toFixed1 x).
Proof.
  intros [Hi Hit] [Ht Hbound] Hr Happrox x.
  assert (0 <= x)%Q as Hx.
  { subst x. rewrite Zle_Qle in Hi, Hit. rewrite Zlt_Qlt in Ht.
    change (inject_Z 0) with 0%Q in *.
    assert (inject_Z i / inject_Z t <= 1)%Q
      by (apply Qle_shift_div_r; [assumption|lra]).
    lra. }
  unfold toFixed1.
  assert (Qle_bool 0 r = true) as -> by (apply Qle_bool_iff; exact Hr).
  assert (Qle_bool 0 x = true) as -> by (apply Qle_bool_iff; exact Hx).
  rewrite (Qfloor_comp (Qabs r * 10 + (1 # 2)) (r * 10 + (1 # 2)))
    by (rewrite (Qabs_pos r Hr); reflexivity).
  rewrite (Qfloor_comp (Qabs x * 10 + (1 # 2)) (x * 10 + (1 # 2)))
    by (rewrite (Qabs_pos x Hx); reflexivity).
  pose proof (Qfloor_le (r * 10 + (1 # 2))) as Hlo.
  pose proof (Qlt_floor (r * 10 + (1 # 2))) as Hhi.
  rewrite inject_Z_plus in Hhi. change (inject_Z 1) with 1%Q in Hhi.
  set (n := Qfloor (r * 10 + (1 # 2))) in *.
  (* both bounds, as whole numbers *)
  assert (0 < inject_Z t)%Q as HtQ by (rewrite Zlt_Qlt in Ht; exact Ht).
  assert (inject_Z t * x == 100 * (inject_Z t - inject_Z i))%Q as Htx
    by (subst x; field; lra).
  assert (2 * t * n <= 2000 * (t - i) + t /\ 2000 * (t - i) - t <= 2 * t * n) as [Hup Hdn].
  { apply Qabs_Qle_condition in Happrox. fold x in Happrox.
    assert (inject_Z t < inject_Z (2 ^ 40))%Q as HbQ
      by (rewrite <- Zlt_Qlt; exact Hbound).
    change (inject_Z (2 ^ 40)) with (1099511627776 # 1)%Q in HbQ.
    assert ((300 # 2 ^ 53) * (1099511627776 # 1) < 1 # 20)%Q as Hc by reflexivity.
    assert (0 < (300 # 2 ^ 53))%Q as Hc0 by reflexivity.
    set (c := (300 # 2 ^ 53)%Q) in *.
    assert (inject_Z t * c < 1 # 20)%Q as Hslack.
    { assert (c * inject_Z t < c * (1099511627776 # 1))%Q
        by (apply Qmult_lt_l; assumption).
      lra. }
    assert (inject_Z t * (r - x) <= inject_Z t * c)%Q
      by (apply Qmult_le_l; lra).
    assert (inject_Z t * (- c) <= inject_Z t * (r - x))%Q
      by (apply Qmult_le_l; lra).
    assert (inject_Z t * inject_Z n <= inject_Z t * (r * 10 + (1 # 2)))%Q
      by (apply Qmult_le_l; lra).
    assert (inject_Z t * (r * 10 + (1 # 2)) < inject_Z t * (inject_Z n + 1))%Q
      by (apply Qmult_lt_l; lra).
    assert (inject_Z (2 * t * n) == 2 * (inject_Z t * inject_Z n))%Q as E1
      by (rewrite !inject_Z_mult; change (inject_Z 2) with 2%Q; ring).
    assert (inject_Z (2000 * (t - i) + t + 1)
            == 2000 * (inject_Z t - inject_Z i) + inject_Z t + 1)%Q as E2.
    { unfold Z.sub. rewrite !inject_Z_plus, inject_Z_mult, inject_Z_plus, inject_Z_opp.
      change (inject_Z 2000) with 2000%Q. change (inject_Z 1) with 1%Q. ring. }
    assert (inject_Z (2000 * (t - i) - t - 1)
            == 2000 * (inject_Z t - inject_Z i) - inject_Z t - 1)%Q as E3.
    { unfold Z.sub. rewrite !inject_Z_plus, inject_Z_mult, inject_Z_plus, !inject_Z_opp.
      change (inject_Z 2000) with 2000%Q. change (inject_Z 1) with 1%Q. ring. }
    assert (2 * t * n < 2000 * (t - i) + t + 1) by (rewrite Zlt_Qlt, E1, E2; lra).
    assert (2000 * (t - i) - t - 1 < 2 * t * n) by (rewrite Zlt_Qlt, E1, E3; lra).
    lia. }
  (* back to the rationals *)
  assert (inject_Z t * (inject_Z n - 10 * x) <= inject_Z t * (1 # 2)
          /\ inject_Z t * (- (1 # 2)) <= inject_Z t * (inject_Z n - 10 * x))%Q
    as [HupQ HdnQ].
  { rewrite Zle_Qle in Hup, Hdn.
    assert (inject_Z (2 * t * n) == 2 * (inject_Z t * inject_Z n))%Q as E1
      by (rewrite !inject_Z_mult; change (inject_Z 2) with 2%Q; ring).
    assert (inject_Z (2000 * (t - i) + t)
            == 2000 * (inject_Z t - inject_Z i) + inject_Z t)%Q as E2.
    { unfold Z.sub. rewrite !inject_Z_plus, inject_Z_mult, inject_Z_plus, inject_Z_opp.
      change (inject_Z 2000) with 2000%Q. ring. }
    assert (inject_Z (2000 * (t - i) - t)
            == 2000 * (inject_Z t - inject_Z i) - inject_Z t)%Q as E3.
    { unfold Z.sub. rewrite !inject_Z_plus, inject_Z_mult, inject_Z_plus, !inject_Z_opp.
      change (inject_Z 2000) with 2000%Q. ring. }
    rewrite E1, E2 in Hup. rewrite E1, E3 in Hdn. split; lra. }
  assert (inject_Z n - 10 * x <= 1 # 2)%Q as Hhalf_up
    by (apply (Qmult_le_l _ _ (inject_Z t)); assumption).
  assert (- (1 # 2) <= inject_Z n - 10 * x)%Q as Hhalf_dn
    by (apply (Qmult_le_l _ _ (inject_Z t)); assumption).
  split.
  - apply Qabs_Qle_condition.
    assert (inject_Z n / 10 == inject_Z n * (1 # 10))%Q as -> by field.
    split; lra.
  - intros Hnotie. f_equal. f_equal. symmetry. apply Qfloor_unique.
    split; [lra|].
    destruct (Qlt_le_dec (x * 10 + (1 # 2)) (inject_Z n + 1)) as [Hlt|Hge]; [exact Hlt|].
    exfalso. apply (Hnotie n). lra.
Qed.

Lemma length_currentCpuTicks (cpus : list CpuInfo) :
  length (currentCpuTicks cpus) = length cpus.
Proof. unfold currentCpuTicks. apply length_map. Qed.

(** The loop computes the two sums when the stored reading has an entry for
    every index it visits. *)
Lemma differences_sums (current previous : list CpuTick) (n i : nat) (acc : Z * Z) :
  (i + n = length current)%nat ->
  (length current <= length previous)%nat ->
  differences (seq i n) current previous acc
  = Ok (fst acc + sum_deltas tick_idle (drop i previous) (drop i current),
        snd acc + sum_deltas tick_total (drop i previous) (drop i current)).
Proof.
  revert i acc. induction n as [|n IH]; intros i acc Hlen Hle; simpl.
  - rewrite (drop_ge current i) by lia.
    destruct (drop i previous); simpl; rewrite !Z.add_0_r; destruct acc; reflexivity.
  - destruct (lookup_lt_is_Some_2 current i) as [c Hc]; [lia|].
    destruct (lookup_lt_is_Some_2 previous i) as [p Hp]; [lia|].
    rewrite Hc, Hp, IH by lia.
    rewrite (drop_S current c i Hc), (drop_S previous p i Hp). simpl.
    f_equal. f_equal; lia.
Qed.

(** The loop throws when it reaches an index the stored reading lacks. *)
Lemma differences_throw (current previous : list CpuTick) (n i : nat) (acc : Z * Z) :
  (i + n = length current)%nat ->
  (i <= length previous < length current)%nat ->
  differences (seq i n) current previous acc = Throw undefined_property.
Proof.
  revert i acc. induction n as [|n IH]; intros i acc Hlen Hlt; simpl.
  - lia.
  - destruct (lookup_lt_is_Some_2 current i) as [c Hc]; [lia|]. rewrite Hc.
    destruct (previous !! i) as [p|] eqn:Hp; [|reflexivity].
    apply IH; [lia|]. apply lookup_lt_Some in Hp. lia.
Qed.

Lemma deltas_nondecreasing (prev cur : list CpuInfo) :
  Forall2 nondecreasing prev cur ->
  0 <= idle_delta (currentCpuTicks prev) (currentCpuTicks cur)
    <= total_delta (currentCpuTicks prev) (currentCpuTicks cur).
Proof.
  unfold idle_delta, total_delta.
  induction 1 as [|p c prev cur (Hu & Hn & Hs & Hi & Hq) _ IH]; simpl; [lia|].
  unfold currentTick. lia.
Qed.

Lemma calculateCpuPercent_first (cpus : list CpuInfo) (w : World) :
  previousCpuTicks w = None ->
  calculateCpuPercent cpus w = (Ok 0%Q, sampled (currentCpuTicks cpus) w).
Proof. intros Hprev. unfold calculateCpuPercent. rewrite Hprev. reflexivity. Qed.

(** With a stored reading that covers every current CPU, the call does not
    throw: it stores the current reading and reports the rounded quotient,
    or 0 when the total did not grow. *)
Lemma calculateCpuPercent_next (cpus : list CpuInfo) (w : World) (previous : list CpuTick) :
  previousCpuTicks w = Some previous ->
  (length cpus <= length previous)%nat ->
  calculateCpuPercent cpus w
  = (Ok (if 0 <? total_delta previous (currentCpuTicks cpus)
         then toFixed1
                (fsub 100
                   (fmul (fdiv (inject_Z (idle_delta previous (currentCpuTicks cpus)))
                               (inject_Z (total_delta previous (currentCpuTicks cpus))))
                         100))
         else 0%Q),
     sampled (currentCpuTicks cpus) w).
Proof.
  intros Hprev Hlen. unfold calculateCpuPercent. rewrite Hprev.
  rewrite (differences_sums (currentCpuTicks cpus) previous (length cpus) 0 (0, 0))
    by (rewrite ?length_currentCpuTicks; lia).
  rewrite !drop_0. simpl fst. simpl snd. rewrite !Z.add_0_l.
  fold (idle_delta previous (currentCpuTicks cpus)).
  fold (total_delta previous (currentCpuTicks cpus)).
  destruct (0 <? total_delta previous (currentCpuTicks cpus)); reflexivity.
Qed.

(** A call that throws leaves [previousCpuTicks] as it was, so the same
    reading throws again. *)
Lemma calculateCpuPercent_throw_keeps_world (cpus : list CpuInfo) (w w' : World) e :
  calculateCpuPercent cpus w = (Throw e, w') -> w' = w.
Proof.
  unfold calculateCpuPercent. destruct (previousCpuTicks w) as [previous|].
  - destruct (differences _ _ _ _) as [[i t]|e'].
    + unfold mbind, M_bind, set_previousCpuTicks, mret, M_ret.
      destruct (0 <? t); discriminate.
    + congruence.
  - discriminate.
Qed.

(** With more CPUs than the stored reading has, the call throws. *)
Lemma calculateCpuPercent_more_cpus (cpus : list CpuInfo) (w : World) (previous : list CpuTick) :
  previousCpuTicks w = Some previous ->
  (length previous < length cpus)%nat ->
  calculateCpuPercent cpus w = (Throw undefined_property, w).
Proof.
  intros Hprev Hlen. unfold calculateCpuPercent. rewrite Hprev.
  rewrite (differences_throw (currentCpuTicks cpus) previous (length cpus) 0 (0, 0))
    by (rewrite ?length_currentCpuTicks; lia).
  reflexivity.
Qed.

(** C4. Between two consecutive readings of the same CPUs, none of whose
    counters went backwards, with a total that grew (by less than 2^40
    milliseconds, some 35 years of CPU time), the value reported is
    100 * (1 - idle_delta / total_delta), the deltas summed over all logical
    CPUs, rounded to one decimal: a whole number of tenths within half a
    tenth of it, and the tenth that is nearest to it unless it lies exactly
    halfway between two tenths, where the binary rounding of the three
    operations decides which of the two is reported.  The value lies in
    [0, 100], and the current reading is stored. *)
Theorem cpu_percent_between_samples (prev cur : list CpuInfo) (w : World) :
  previousCpuTicks w = Some (currentCpuTicks prev) ->
  Forall2 nondecreasing prev cur ->
  0 < total_delta (currentCpuTicks prev) (currentCpuTicks cur) < 2 ^ 40 ->
  let x := (100 * (1 - inject_Z (idle_delta (currentCpuTicks prev) (currentCpuTicks cur))
                       / inject_Z (total_delta (currentCpuTicks prev) (currentCpuTicks cur))))%Q in
  exists v : Q,
    calculateCpuPercent cur w = (Ok v, sampled (currentCpuTicks cur) w)
    /\ (exists n : Z, v == inject_Z n / 10)%Q
    /\ (Qabs (v - x) <= 1 # 20)%Q
    /\ (0 <= v <= 100)%Q
    /\ ((forall k : Z, ~ (10 * x == inject_Z k + (1 # 2))%Q) -> v = toFixed1 x).
Proof.
  intros Hprev Hmono [Htotal Hbound] x.
  pose proof (deltas_nondecreasing prev cur Hmono) as Hdeltas.
  set (i := idle_delta (currentCpuTicks prev) (currentCpuTicks cur)) in *.
  set (t := total_delta (currentCpuTicks prev) (currentCpuTicks cur)) in *.
  destruct (utilisation_double i t Hdeltas Htotal) as [Hrange Happrox].
  destruct (toFixed1_of_approximation i t _ Hdeltas (conj Htotal Hbound)
              (proj1 Hrange) Happrox) as [Hnear Hexact].
  eexists. split; [|split; [apply toFixed1_tenths|split; [exact Hnear|split]]].
  - rewrite (calculateCpuPercent_next cur w (currentCpuTicks prev) Hprev)
      by (rewrite length_currentCpuTicks; apply Forall2_length in Hmono; lia).
    fold i t. replace (0 <? t) with true by lia. reflexivity.
  - apply toFixed1_range. exact Hrange.
  - exact Hexact.
Qed.

(** C5, as the code has it. The first call (no stored reading) reports
    exactly 0 and stores the current reading, without throwing; with a stored
    reading that has an entry for every current CPU, a total that did not
    grow gives exactly 0 (no division takes place) and the current reading is
    stored; and between two readings of the same CPUs none of whose counters
    went backwards, the value reported is never negative. *)
Theorem cpu_percent_edge_cases :
  (forall cpus w, previousCpuTicks w = None ->
      calculateCpuPercent cpus w = (Ok 0%Q, sampled (currentCpuTicks cpus) w))
  /\ (forall cpus w previous, previousCpuTicks w = Some previous ->
      (length cpus <= length previous)%nat ->
      total_delta previous (currentCpuTicks cpus) <= 0 ->
      calculateCpuPercent cpus w = (Ok 0%Q, sampled (currentCpuTicks cpus) w))
  /\ (forall prev cur w, previousCpuTicks w = Some (currentCpuTicks prev) ->
      Forall2 nondecreasing prev cur ->
      exists v, calculateCpuPercent cur w = (Ok v, sampled (currentCpuTicks cur) w)
                /\ (0 <= v)%Q).
Proof.
  split; [exact calculateCpuPercent_first|split].
  - intros cpus w previous Hprev Hlen Htotal.
    rewrite (calculateCpuPercent_next cpus w previous Hprev Hlen).
    replace (0 <? total_delta previous (currentCpuTicks cpus)) with false by lia.
    reflexivity.
  - intros prev cur w Hprev Hmono.
    destruct (Z_lt_dec 0 (total_delta (currentCpuTicks prev) (currentCpuTicks cur)))
      as [Htotal|Htotal].
    + eexists. split.
      * rewrite (calculateCpuPercent_next cur w (currentCpuTicks prev) Hprev)
          by (rewrite length_currentCpuTicks; apply Forall2_length in Hmono; lia).
        replace (0 <? total_delta (currentCpuTicks prev) (currentCpuTicks cur))
          with true by lia.
        reflexivity.
      * apply toFixed1_range.
        apply (utilisation_double _ _ (deltas_nondecreasing prev cur Hmono) Htotal).
    + exists 0%Q. split; [|lra].
      rewrite (calculateCpuPercent_next cur w (currentCpuTicks prev) Hprev)
        by (rewrite length_currentCpuTicks; apply Forall2_length in Hmono; lia).
      replace (0 <? total_delta (currentCpuTicks prev) (currentCpuTicks cur))
        with false by lia.
      reflexivity.
Qed.

(** ** Identity *)

Lemma is_hex_not_space (c : ascii) : is_hex c = true -> is_space c = false.
Proof.
  destruct c as [[] [] [] [] [] [] [] []]; vm_compute; congruence.
Qed.

Lemma hex_run_no_space (n : nat) (s t : string) :
  hex_run n s = Some t -> no_space t = true -> no_space s = true.
Proof.
  revert s. induction n as [|n IH]; intros s; simpl.
  - congruence.
  - destruct s as [|c rest]; [discriminate|].
    destruct (is_hex c) eqn:Hc; [|discriminate].
    intros Hrun Ht. simpl. rewrite (is_hex_not_space c Hc). simpl. eauto.
Qed.

Lemma dash_no_space (s t : string) :
  dash (Some s) = Some t -> no_space t = true -> no_space s = true.
Proof.
  destruct s as [|c rest]; simpl; [discriminate|].
  destruct (Ascii.eqb c "-") eqn:Hc; [|discriminate].
  apply Ascii.eqb_eq in Hc. subst c. intros [= ->] Ht. exact Ht.
Qed.

Lemma canonical_uuid_no_space (s : string) :
  canonical_uuid s = true -> no_space s = true.
Proof.
  unfold canonical_uuid.
  destruct (hex_run 8 s) as [s1|] eqn:H1; [|discriminate].
  destruct (dash (Some s1)) as [s2|] eqn:D1; [|discriminate].
  destruct (hex_run 4 s2) as [s3|] eqn:H2; [|discriminate].
  destruct (dash (Some s3)) as [s4|] eqn:D2; [|discriminate].
  destruct (hex_run 4 s4) as [s5|] eqn:H3; [|discriminate].
  destruct (dash (Some s5)) as [s6|] eqn:D3; [|discriminate].
  destruct (hex_run 4 s6) as [s7|] eqn:H4; [|discriminate].
  destruct (dash (Some s7)) as [s8|] eqn:D4; [|discriminate].
  destruct (hex_run 12 s8) as [s9|] eqn:H5; [|discriminate].
  destruct s9; [|discriminate]. intros _.
  eapply hex_run_no_space; [exact H1|]. eapply dash_no_space; [exact D1|].
  eapply hex_run_no_space; [exact H2|]. eapply dash_no_space; [exact D2|].
  eapply hex_run_no_space; [exact H3|]. eapply dash_no_space; [exact D3|].
  eapply hex_run_no_space; [exact H4|]. eapply dash_no_space; [exact D4|].
  eapply hex_run_no_space; [exact H5|]. reflexivity.
Qed.

Lemma trim_no_space (s : string) : no_space s = true -> trim s = s.
Proof.
  intros Hs. unfold trim.
  assert (trimStart s = s) as ->.
  { destruct s as [|c rest]; [reflexivity|]. simpl in *.
    destruct (is_space c); [discriminate|reflexivity]. }
  induction s as [|c rest IH]; [reflexivity|]. simpl in *.
  apply andb_prop in Hs as [Hc Hrest]. rewrite (IH Hrest).
  destruct rest; [|reflexivity].
  destruct (is_space c); [discriminate|reflexivity].
Qed.

(** Trimming leaves a canonical UUID as it is. *)
Lemma trim_canonical_uuid (s : string) : canonical_uuid s = true -> trim s = s.
Proof. intros Hs. apply trim_no_space, canonical_uuid_no_space, Hs. Qed.

(** *** Creating the directory of the persistence file *)

(** [mkdirSync] touches directories only. *)
Lemma mkdirp_fields (f : FileSystem) (chain : list string) (code : string) :
  files (snd (mkdirp f chain code)) = files f
  /\ unreadable (snd (mkdirp f chain code)) = unreadable f
  /\ readonly (snd (mkdirp f chain code)) = readonly f.
Proof.
  revert code. induction chain as [|d up IH]; intros code; simpl; [auto|].
  destruct (bool_decide (d ∈ dirs f)); [auto|].
  destruct (bool_decide (is_Some (files f !! d))); [auto|].
  specialize (IH "ENOTDIR").
  destruct (mkdirp f up "ENOTDIR") as [[[]|e] f1]; simpl in *; [|exact IH].
  destruct (bool_decide (d ∈ readonly f1)); exact IH.
Qed.

(** It removes no directory, and adds none outside the chain. *)
Lemma mkdirp_dirs (f : FileSystem) (chain : list string) (code p : string) :
  (p ∈ dirs f -> p ∈ dirs (snd (mkdirp f chain code)))
  /\ (p ∈ dirs (snd (mkdirp f chain code)) -> p ∈ dirs f \/ In p chain).
Proof.
  revert code. induction chain as [|d up IH]; intros code; simpl; [auto|].
  destruct (bool_decide (d ∈ dirs f)); [auto|].
  destruct (bool_decide (is_Some (files f !! d))); [auto|].
  specialize (IH "ENOTDIR").
  destruct (mkdirp f up "ENOTDIR") as [[[]|e] f1]; simpl in *; [|tauto].
  destruct (bool_decide (d ∈ readonly f1)); simpl; [tauto|].
  rewrite elem_of_union, elem_of_singleton. split; [tauto|].
  intros [->|H]; tauto.
Qed.

(** When it returns, the directory asked for exists. *)
Lemma mkdirp_ok (f : FileSystem) (d : string) (up : list string) (code : string) :
  fst (mkdirp f (d :: up) code) = Ok tt ->
  d ∈ dirs (snd (mkdirp f (d :: up) code)).
Proof.
  simpl. destruct (bool_decide (d ∈ dirs f)) eqn:Hd.
  { intros _. apply bool_decide_eq_true in Hd. exact Hd. }
  destruct (bool_decide (is_Some (files f !! d))); [discriminate|].
  destruct (mkdirp f up "ENOTDIR") as [[[]|e] f1]; simpl; [|discriminate].
  destruct (bool_decide (d ∈ readonly f1)); simpl; [discriminate|].
  intros _. rewrite elem_of_union, elem_of_singleton. auto.
Qed.


Lemma persistence_dirs_value :
  persistence_dirs = ["/var/lib/sylon"; "/var/lib"; "/var"; "/"].
Proof. reflexivity. Qed.



Ltac run_io :=
  unfold getMachineId, try_catch, persistent_id, mbind, M_bind, mret, M_ret,
    existsSyncM, readFileSyncM, randomUUID, mkdirSyncM, writeFileSyncM,
    set_fs, emit, logM, log, throw, persist, ensure_dir, after_ensure_dir in *.

Lemma getMachineId_os_file (w : World) (id : string) :
  probe (fs w) paths = Some id -> getMachineId w = (Ok id, w).
Proof. intros Hp. unfold getMachineId. rewrite Hp. reflexivity. Qed.

Lemma getMachineId_persisted (w : World) (content : string) :
  probe (fs w) paths = None ->
  existsSync (fs w) persistencePath = true ->
  readFileSync (fs w) persistencePath = Ok content ->
  getMachineId w = (Ok (trim content), w).
Proof. intros Hp Hex Hrd. run_io. rewrite Hp, Hex, Hrd. reflexivity. Qed.

Lemma getMachineId_unreadable (w : World) (e : JsError) :
  probe (fs w) paths = None ->
  existsSync (fs w) persistencePath = true ->
  readFileSync (fs w) persistencePath = Throw e ->
  fst (getMachineId w) = Ok (uuid_source w 0%nat)
  /\ after_fallback w (snd (getMachineId w)) (fs w) 1 e.
Proof.
  intros Hp Hex Hrd. run_io. rewrite Hp, Hex, Hrd. simpl.
  repeat split. apply (last_skip (trace w) [] _ (EvSleep 0)).
Qed.

Lemma getMachineId_generated (w : World) (f' : FileSystem) :
  probe (fs w) paths = None ->
  existsSync (fs w) persistencePath = false ->
  persist (fs w) (uuid_source w 0%nat) = Ok f' ->
  fst (getMachineId w) = Ok (uuid_source w 0%nat)
  /\ fs (snd (getMachineId w)) = f'
  /\ (forall n, uuid_source (snd (getMachineId w)) n = uuid_source w (S n))
  /\ previousCpuTicks (snd (getMachineId w)) = previousCpuTicks w
  /\ List.last (trace (snd (getMachineId w))) (EvSleep 0)
     = EvFs (WriteFile persistencePath (uuid_source w 0%nat)) true.
Proof.
  intros Hp Hex Hpersist. run_io. rewrite Hp, Hex. simpl.
  destruct (existsSync (fs w) (dirname persistencePath)); simpl.
  - rewrite Hpersist. simpl. repeat split.
    apply (last_skip (trace w) [] _ (EvSleep 0)).
  - destruct (mkdirSync (fs w) (dirname persistencePath)) as [[[]|e] f1]; [|discriminate].
    simpl. rewrite Hpersist. simpl. repeat split.
    apply (last_skip (trace w ++ _) [] _ (EvSleep 0)).
Qed.

Lemma getMachineId_volatile (w : World) (e : JsError) :
  probe (fs w) paths = None ->
  existsSync (fs w) persistencePath = false ->
  persist (fs w) (uuid_source w 0%nat) = Throw e ->
  fst (getMachineId w) = Ok (uuid_source w 1%nat)
  /\ after_fallback w (snd (getMachineId w)) (after_ensure_dir (fs w)) 2 e
  /\ (forall f1, ensure_dir (fs w) = Ok f1 ->
        In (EvFs (WriteFile persistencePath (uuid_source w 0%nat)) false)
           (trace (snd (getMachineId w)))).
Proof.
  intros Hp Hex Hpersist. run_io. rewrite Hp, Hex. simpl.
  destruct (existsSync (fs w) (dirname persistencePath)); simpl.
  - rewrite Hpersist. simpl. repeat split.
    + apply (last_skip (trace w ++ _) [] _ (EvSleep 0)).
    + intros _ _. apply in_or_app. left. apply in_or_app. right. left. reflexivity.
  - destruct (mkdirSync (fs w) (dirname persistencePath)) as [[[]|e1] f1]; simpl.
    + rewrite Hpersist. simpl. repeat split.
      * apply (last_skip (_ ++ _) [] _ (EvSleep 0)).
      * intros _ _. apply in_or_app. left. apply in_or_app. right. left. reflexivity.
    + injection Hpersist as ->. repeat split.
      * apply (last_skip (_ ++ _) [] _ (EvSleep 0)).
      * discriminate.
Qed.

(** *** The filesystem between two calls *)

Lemma dirname_persistencePath : dirname persistencePath = "/var/lib/sylon".
Proof. reflexivity. Qed.

Lemma same_at_existsSync p f f' :
  same_at p f f' -> existsSync f' p = existsSync f p.
Proof.
  intros (Hfiles & Hdirs & _). unfold existsSync. rewrite Hfiles.
  f_equal. apply bool_decide_ext. exact Hdirs.
Qed.

Lemma same_at_readFileSync p f f' :
  same_at p f f' -> readFileSync f' p = readFileSync f p.
Proof.
  intros (Hfiles & Hdirs & Hunr). unfold readFileSync. rewrite Hfiles.
  rewrite (bool_decide_ext _ _ Hunr), (bool_decide_ext _ _ Hdirs). reflexivity.
Qed.

Lemma probe_same (candidates : list string) (f f' : FileSystem) :
  (forall p, In p candidates -> same_at p f f') ->
  probe f' candidates = probe f candidates.
Proof.
  induction candidates as [|p rest IH]; intros Hsame; simpl; [reflexivity|].
  rewrite (same_at_existsSync p f f'), (same_at_readFileSync p f f'), IH;
    auto using in_eq, in_cons.
Qed.

Lemma after_ensure_dir_spec (f : FileSystem) :
  files (after_ensure_dir f) = files f
  /\ unreadable (after_ensure_dir f) = unreadable f
  /\ readonly (after_ensure_dir f) = readonly f
  /\ (forall p, p ∈ dirs f -> p ∈ dirs (after_ensure_dir f))
  /\ (forall p, p ∈ dirs (after_ensure_dir f) -> p ∈ dirs f \/ In p persistence_dirs).
Proof.
  unfold after_ensure_dir.
  destruct (existsSync f (dirname persistencePath)); [auto 6|].
  unfold mkdirSync. fold persistence_dirs.
  destruct (mkdirp_fields f persistence_dirs "EEXIST") as (Hf & Hu & Hr).
  repeat split; try assumption; intros p; apply mkdirp_dirs.
Qed.

Lemma ensure_dir_after (f f1 : FileSystem) :
  ensure_dir f = Ok f1 -> f1 = after_ensure_dir f.
Proof.
  unfold ensure_dir, after_ensure_dir.
  destruct (existsSync f (dirname persistencePath)); [congruence|].
  destruct (mkdirSync f (dirname persistencePath)) as [[[]|e] f2]; simpl; congruence.
Qed.

Lemma ensure_dir_spec (f f1 : FileSystem) :
  ensure_dir f = Ok f1 ->
  files f1 = files f /\ unreadable f1 = unreadable f /\ readonly f1 = readonly f
  /\ (forall p, p ∈ dirs f -> p ∈ dirs f1)
  /\ (forall p, p ∈ dirs f1 -> p ∈ dirs f \/ In p persistence_dirs)
  /\ ensure_dir f1 = Ok f1.
Proof.
  intros Hdir. rewrite (ensure_dir_after f f1 Hdir).
  destruct (after_ensure_dir_spec f) as (Hf & Hu & Hr & Hd1 & Hd2).
  repeat split; try assumption.
  rewrite <- (ensure_dir_after f f1 Hdir). clear Hf Hu Hr Hd1 Hd2.
  unfold ensure_dir in *.
  destruct (existsSync f (dirname persistencePath)) eqn:Hex.
  - injection Hdir as <-. rewrite Hex. reflexivity.
  - pose proof (mkdirp_ok f (dirname persistencePath) (ancestors (dirname persistencePath))
                  "EEXIST") as Hok.
    fold (mkdirSync f (dirname persistencePath)) in Hok.
    destruct (mkdirSync f (dirname persistencePath)) as [[[]|e] f2]; [|discriminate].
    injection Hdir as <-. simpl in Hok.
    assert (existsSync f2 (dirname persistencePath) = true) as ->; [|reflexivity].
    unfold existsSync. apply orb_true_iff. right.
    apply bool_decide_eq_true. apply Hok. reflexivity.
Qed.


Lemma writeFileSync_spec (f f' : FileSystem) (p data : string) :
  writeFileSync f p data = Ok f' ->
  files f' = <[p := data]> (files f) /\ dirs f' = dirs f
  /\ unreadable f' = unreadable f /\ readonly f' = readonly f.
Proof.
  unfold writeFileSync.
  destruct (bool_decide (p ∈ readonly f)); [discriminate|].
  destruct (bool_decide (p ∈ dirs f)); [discriminate|].
  destruct (bool_decide (dirname p ∈ dirs f)); [|discriminate].
  intros [= <-]. auto.
Qed.


Lemma paths_apart (p : string) :
  In p paths -> p <> persistencePath /\ ~ In p persistence_dirs.
Proof.
  rewrite persistence_dirs_value.
  intros [<-|[<-|[]]]; (split; [discriminate|]); simpl; intros H;
    repeat (destruct H as [H|H]; [discriminate|]); exact H.
Qed.

(** The generating branch leaves the OS identity files as they were. *)
Lemma fallback_same_at (f : FileSystem) (p : string) :
  ~ In p persistence_dirs -> same_at p f (after_ensure_dir f).
Proof.
  intros Hp. destruct (after_ensure_dir_spec f) as (Hf & Hu & _ & Hd1 & Hd2).
  unfold same_at. rewrite Hf, Hu.
  split; [reflexivity|]. split; [|reflexivity].
  split; [|apply Hd1]. intros H. apply Hd2 in H as [H|H]; [exact H|contradiction].
Qed.

Lemma ensure_dir_same_at (f f1 : FileSystem) (p : string) :
  ensure_dir f = Ok f1 -> ~ In p persistence_dirs -> same_at p f f1.
Proof.
  intros Hdir Hp. rewrite (ensure_dir_after f f1 Hdir). apply fallback_same_at, Hp.
Qed.

Lemma persist_same_at (f f' : FileSystem) (mid p : string) :
  persist f mid = Ok f' ->
  p <> persistencePath -> ~ In p persistence_dirs -> same_at p f f'.
Proof.
  unfold persist. destruct (ensure_dir f) as [f1|e] eqn:Hdir; [|discriminate].
  intros Hwrite Hp Hpd.
  destruct (ensure_dir_same_at f f1 p Hdir Hpd) as (Hf & Hd & Hu).
  destruct (writeFileSync_spec f1 f' persistencePath mid Hwrite) as (Hf' & Hd' & Hu' & _).
  unfold same_at. rewrite Hf', Hd', Hu', lookup_insert_ne by congruence. auto.
Qed.

Lemma persist_written (f f' : FileSystem) (mid : string) :
  persist f mid = Ok f' ->
  files f' !! persistencePath = Some mid /\ unreadable f' = unreadable f.
Proof.
  unfold persist. destruct (ensure_dir f) as [f1|e] eqn:Hdir; [|discriminate].
  intros Hwrite.
  destruct (ensure_dir_spec f f1 Hdir) as (_ & Hu & _).
  destruct (writeFileSync_spec f1 f' persistencePath mid Hwrite) as (Hf' & _ & Hu' & _).
  rewrite Hf', Hu', Hu, lookup_insert_eq. auto.
Qed.




(** ** Snapshot *)

Lemma getDiskUsage_value (w : World) :
  fst (getDiskUsage w)
  = Ok {| disk_total := 100000000000; disk_used := 40000000000;
          disk_free := 60000000000; disk_percent := 40 |}.
Proof. reflexivity. Qed.

(** [collectMetrics] step by step: the host name is asked for first, the
    identity and the CPU percentage come next, then the disk record (and its
    log line), then the uptime and the interfaces. *)
Lemma collectMetrics_unfold (os : OsReading) (w : World) :
  collectMetrics os w
  = match os_error os Hostname with
    | Some e => (Throw e, w)
    | None =>
        match getMachineId w with
        | (Ok id, w1) =>
            match calculateCpuPercent (os_cpus os) w1 with
            | (Ok cpu, w2) =>
                match os_error os Uptime, os_error os NetworkInterfaces with
                | Some e, _ => (Throw e, snd (getDiskUsage w2))
                | None, Some e => (Throw e, snd (getDiskUsage w2))
                | None, None => (Ok (snapshot_of os id cpu), snd (getDiskUsage w2))
                end
            | (Throw e, w2) => (Throw e, w2)
            end
        | (Throw e, w1) => (Throw e, w1)
        end
    end.
Proof.
  unfold collectMetrics, checked, mbind, M_bind, throw.
  destruct (os_error os Hostname); [reflexivity|]. unfold mret at 1, M_ret at 1.
  destruct (getMachineId w) as [[id|e] w1]; [|reflexivity].
  destruct (calculateCpuPercent (os_cpus os) w1) as [[cpu|e] w2]; [|reflexivity].
  unfold getDiskUsage, logM, emit, log, mbind, M_bind, mret, M_ret. simpl.
  destruct (os_error os Uptime); [reflexivity|].
  destruct (os_error os NetworkInterfaces); reflexivity.
Qed.

Lemma collectMetrics_snapshot (os : OsReading) (w w' : World) (snap : MetricSnapshot) :
  collectMetrics os w = (Ok snap, w') ->
  exists id cpu, snap = snapshot_of os id cpu.
Proof.
  rewrite collectMetrics_unfold.
  destruct (os_error os Hostname); [discriminate|].
  destruct (getMachineId w) as [[id|e] w1]; [|discriminate].
  destruct (calculateCpuPercent (os_cpus os) w1) as [[cpu|e] w2]; [|discriminate].
  destruct (os_error os Uptime); [discriminate|].
  destruct (os_error os NetworkInterfaces); [discriminate|].
  intros [= <- _]. eauto.
Qed.

Lemma collectMetrics_disk (os : OsReading) (w w' : World) (snap : MetricSnapshot) :
  collectMetrics os w = (Ok snap, w') ->
  disk snap = {| disk_total := 100000000000; disk_used := 40000000000;
                 disk_free := 60000000000; disk_percent := 40 |}.
Proof.
  intros Hsnap. destruct (collectMetrics_snapshot os w w' snap Hsnap) as (id & cpu & ->).
  reflexivity.
Qed.

(** C9. Every snapshot [collectMetrics] produces has its disk fields: a
    total above zero, used and free space that are not negative, and a
    percentage.  They agree with each other: used + free = total, and percent
    is 100 * used / total rounded to one decimal (here a genuine quotient, the
    total not being zero, and an exact one: percent * total = 100 * used). *)
Theorem snapshot_disk_consistent (os : OsReading) (w w' : World) (snap : MetricSnapshot) :
  collectMetrics os w = (Ok snap, w') ->
  let d := disk snap in
  0 < disk_total d /\ 0 <= disk_used d /\ 0 <= disk_free d
  /\ disk_used d + disk_free d = disk_total d
  /\ (disk_percent d * inject_Z (disk_total d) == 100 * inject_Z (disk_used d))%Q
  /\ (disk_percent d == toFixed1 (100 * inject_Z (disk_used d) / inject_Z (disk_total d)))%Q
  /\ (Qabs (disk_percent d - 100 * inject_Z (disk_used d) / inject_Z (disk_total d))
      <= 1 # 20)%Q
  /\ (exists n : Z, disk_percent d == inject_Z n / 10)%Q.
Proof.
  intros Hsnap d. subst d. rewrite (collectMetrics_disk os w w' snap Hsnap). simpl.
  split; [lia|]. split; [lia|]. split; [lia|].
  split; [reflexivity|]. split; [reflexivity|]. split; [reflexivity|].
  split; [discriminate|].
  exists 400. reflexivity.
Qed.

(** ** The agent loop *)

Section AgentLoopProofs.

Variable url_parse : string -> UrlObject.
Variable JSON_stringify : MetricSnapshot -> string.

Lemma main_started_succ cfg inputs w0 (k : nat) :
  (started (main url_parse JSON_stringify cfg inputs w0 (S k))
   == network_phase url_parse JSON_stringify cfg inputs w0 0
      + inject_Z (Z.of_nat k) * inject_Z (interval_seconds cfg)
      + inject_Z (interval_seconds cfg))%Q.
Proof.
  unfold main. simpl started.
  rewrite Nat2Z.inj_succ. unfold Z.succ. rewrite inject_Z_plus.
  change (inject_Z 1) with 1%Q. ring.
Qed.

Lemma main_finished_succ cfg inputs w0 (k : nat) :
  (finished (main url_parse JSON_stringify cfg inputs w0 (S k))
   == started (main url_parse JSON_stringify cfg inputs w0 (S k))
      + network_phase url_parse JSON_stringify cfg inputs w0 (S k))%Q.
Proof. reflexivity. Qed.

(** C8, as the code has it. The first cycle is awaited before the interval
    timer is armed, so it never overlaps the next one.  The timer then fires
    every [interval] seconds whatever the previous callback is doing: the
    cycles it starts do not overlap when each one's network phase (requests
    and retry pauses) takes no longer than the interval, and a cycle whose
    network phase takes longer is still running when the next one starts. *)
Theorem main_cycles_overlap_iff_slow cfg inputs w0 :
  let run := main url_parse JSON_stringify cfg inputs w0 in
  let phase := network_phase url_parse JSON_stringify cfg inputs w0 in
  0 <= interval_seconds cfg ->
  (finished (run 0%nat) <= started (run 1%nat))%Q
  /\ ((forall k, (1 <= k)%nat -> (phase k <= inject_Z (interval_seconds cfg))%Q) ->
      forall k, (finished (run k) <= started (run (S k)))%Q)
  /\ (forall k, (1 <= k)%nat ->
      (inject_Z (interval_seconds cfg) < phase k)%Q ->
      (started (run (S k)) < finished (run k))%Q).
Proof.
  intros run phase Hint. subst run phase.
  rewrite Zle_Qle in Hint. change (inject_Z 0) with 0%Q in Hint.
  assert (forall k, (1 <= k)%nat ->
            (finished (main url_parse JSON_stringify cfg inputs w0 k)
             == started (main url_parse JSON_stringify cfg inputs w0 (S k))
                + (network_phase url_parse JSON_stringify cfg inputs w0 k
                   - inject_Z (interval_seconds cfg)))%Q) as Hstep.
  { intros [|k] Hk; [lia|].
    rewrite main_finished_succ, !main_started_succ.
    rewrite Nat2Z.inj_succ. unfold Z.succ. rewrite inject_Z_plus.
    change (inject_Z 1) with 1%Q. ring. }
  assert (finished (main url_parse JSON_stringify cfg inputs w0 0)
          <= started (main url_parse JSON_stringify cfg inputs w0 1))%Q as Hfirst.
  { rewrite main_started_succ. unfold main. cbn [started finished Z.of_nat].
    change (inject_Z (Z.of_nat 0)) with 0%Q. lra. }
  split; [exact Hfirst|]. split.
  - intros Hfast [|k]; [exact Hfirst|].
    rewrite (Hstep (S k)) by lia.
    assert (1 <= S k)%nat as Hk by lia. specialize (Hfast (S k) Hk). lra.
  - intros k Hk Hslow. rewrite (Hstep k Hk). lra.
Qed.

End AgentLoopProofs.

(** ** Concrete runs *)

(** *** Delivery *)

Lemma sendPayload_exhausts_retries_witness :
  endpoint example_cfg <> "NULL"
  /\ 0 <= max_retries example_cfg
  /\ (0 <= jitter example_cfg)%Q
  /\ (forall k, (0 <= random (always (Response 500 "")) k < 1)%Q)
  /\ (forall k, 1 <= k <= max_retries example_cfg ->
        is_transient (respond (always (Response 500 "")) k) = true)
  /\ (let run := sendPayload example_url_parse (fun _ : unit => "{}") example_cfg tt
                   (always (Response 500 "")) in
      fst run = false /\ outcome run = Some Exhausted
      /\ Z.of_nat (length (requests (snd run))) = 5
      /\ (2 ^ 3 <= sleepTime example_cfg (always (Response 500 "")) 3 <= 2 ^ 3 + (3 # 10))%Q).
Proof.
  assert (endpoint example_cfg <> "NULL") as H1 by discriminate.
  assert (0 <= max_retries example_cfg) as H2 by (simpl; lia).
  assert (0 <= jitter example_cfg)%Q as H3 by (unfold Qle; simpl; lia).
  assert (forall k, (0 <= random (always (Response 500 "")) k < 1)%Q) as H4
    by (intros k; unfold Qle, Qlt; simpl; lia).
  assert (forall k, 1 <= k <= max_retries example_cfg ->
            is_transient (respond (always (Response 500 "")) k) = true) as H5
    by (intros k _; reflexivity).
  repeat (split; [assumption|]).
  destruct (sendPayload_exhausts_retries example_url_parse (fun _ : unit => "{}")
              example_cfg tt (always (Response 500 "")) H1 H2 H3 H4 H5)
    as (Hret & Hout & Hcount & _ & Hsleep).
  repeat (split; [assumption|]).
  apply (Hsleep 3). simpl. lia.
Defined.

Lemma sendPayload_client_error_stops_witness :
  let net := always (Response 404 "not found") in
  let run := sendPayload example_url_parse (fun _ : unit => "{}") example_cfg tt net in
  (fst run = false
   /\ requests [EvLog "ERROR" msg_client_error [LNum 404; LStr "not found"]] = []
   /\ outcome run = Some (Rejected (Status 404)))
  /\ (endpoint example_cfg <> "NULL" /\ 1 <= max_retries example_cfg
      /\ (forall k, exists body, respond net k = Response 404 body)
      /\ length (requests (snd run)) = 1%nat).
Proof.
  intros net run.
  destruct (sendPayload_client_error_stops example_url_parse (fun _ : unit => "{}")
              example_cfg tt net) as [Hstop H404].
  split.
  - destruct (Hstop [] (build_options example_url_parse example_cfg "{}") "{}"
                404 "not found" 0%Q
                [EvLog "ERROR" msg_client_error [LNum 404; LStr "not found"]])
      as (Hret & _ & Hreq & _ & Hout); [reflexivity|lia|].
    auto.
  - assert (endpoint example_cfg <> "NULL") as H1 by discriminate.
    assert (1 <= max_retries example_cfg) as H2 by (simpl; lia).
    assert (forall k, exists body, respond net k = Response 404 body) as H3
      by (intros k; eexists; reflexivity).
    repeat (split; [assumption|]).
    apply (H404 H1 H2 H3).
Defined.

Lemma sendPayload_unconfigured_witness :
  endpoint DEFAULT_CONFIG = "NULL"
  /\ sendPayload example_url_parse (fun _ : unit => "{}") DEFAULT_CONFIG tt
       (always (Response 200 "ok"))
     = (false, [EvLog "ERROR" msg_unconfigured []])
  /\ outcome (sendPayload example_url_parse (fun _ : unit => "{}") DEFAULT_CONFIG tt
                (always (Response 200 "ok")))
     = Some (Rejected Unconfigured).
Proof.
  assert (endpoint DEFAULT_CONFIG = "NULL") as H by reflexivity.
  split; [exact H|].
  destruct (sendPayload_unconfigured example_url_parse (fun _ : unit => "{}")
              DEFAULT_CONFIG tt (always (Response 200 "ok")) H) as (Hrun & _ & _ & Hout).
  split; assumption.
Defined.

(** An endpoint with an explicit port and a query: the five requests of the
    run go to port 443 and path [/ingest] all the same. *)
Lemma requests_use_host_port_443_and_pathname_witness :
  let run := sendPayload example_url_parse (fun _ : unit => "{}") example_cfg tt
               (always (Response 500 "")) in
  endpoint example_cfg <> "NULL"
  /\ 1 <= max_retries example_cfg
  /\ url_port (example_url_parse (endpoint example_cfg)) = Some "8443"
  /\ search (example_url_parse (endpoint example_cfg)) = Some "?token=abc"
  /\ (exists opts rest,
        snd run = EvRequest opts "{}" (Response 500 "") 0 :: rest
        /\ opt_hostname opts = Some "collector.example"
        /\ opt_port opts = 443
        /\ opt_path opts = Some "/ingest")
  /\ length (requests (snd run)) = 5%nat
  /\ Forall (fun e => match e with
                      | EvRequest opts _ _ _ =>
                          opt_hostname opts = Some "collector.example"
                          /\ opt_port opts = 443
                          /\ opt_path opts = Some "/ingest"
                      | _ => True
                      end) (snd run)
  /\ sendPayload plain_url_parse (fun _ : unit => "{}") example_cfg tt
       (always (Response 500 "")) = run.
Proof.
  intros run.
  assert (endpoint example_cfg <> "NULL") as H1 by discriminate.
  assert (1 <= max_retries example_cfg) as H2 by (simpl; lia).
  destruct (requests_use_host_port_443_and_pathname example_url_parse
              (fun _ : unit => "{}") example_cfg tt (always (Response 500 "")))
    as (Hopts & Hfirst & Hsame).
  split; [exact H1|]. split; [exact H2|].
  split; [reflexivity|]. split; [reflexivity|].
  split; [exact (Hfirst H1 H2)|]. split; [reflexivity|]. split.
  - apply List.Forall_forall. intros [level message args|opts postData result elapsed|ms|call ok]
      Hin; try exact I.
    exact (Hopts _ _ _ _ Hin).
  - apply Hsame; reflexivity.
Defined.

(** Two answers 500 and then a 200: three attempts, two pauses, delivered. *)
Lemma sendPayload_delivered_example :
  let net := {| respond := fun k => if k <? 3 then Response 500 "" else Response 200 "ok";
                latency := fun _ => 0%Q;
                random := fun _ => (1 # 2)%Q |} in
  let run := sendPayload example_url_parse (fun _ : unit => "{}") example_cfg tt net in
  fst run = true
  /\ outcome run = Some Delivered
  /\ schedule (snd run)
     = [Attempt; Pause (sleepTime example_cfg net 1 * 1000);
        Attempt; Pause (sleepTime example_cfg net 2 * 1000); Attempt].
Proof. repeat split. Qed.

(** *** CPU utilisation *)

(** 31 busy and 49 idle milliseconds: 100 * (1 - 49/80) is 38.75, halfway
    between two tenths; the code computes 38.74999999999999 and reports 38.7.
    10 busy and 30 idle milliseconds: 25, and 25.0 is reported. *)
Lemma cpu_percent_between_samples_witness :
  (let w := world_of fresh_fs (Some (currentCpuTicks [cpu 0 0])) in
   previousCpuTicks w = Some (currentCpuTicks [cpu 0 0])
   /\ Forall2 nondecreasing [cpu 0 0] [cpu 31 49]
   /\ 0 < total_delta (currentCpuTicks [cpu 0 0]) (currentCpuTicks [cpu 31 49]) < 2 ^ 40
   /\ exists v, fst (calculateCpuPercent [cpu 31 49] w) = Ok v
        /\ v = (387 # 10)%Q
        /\ (Qabs (v - 100 * (1 - inject_Z 49 / inject_Z 80)) <= 1 # 20)%Q
        /\ (0 <= v <= 100)%Q)
  /\ (let w := world_of fresh_fs (Some (currentCpuTicks [cpu 10 10])) in
      previousCpuTicks w = Some (currentCpuTicks [cpu 10 10])
      /\ Forall2 nondecreasing [cpu 10 10] [cpu 20 40]
      /\ 0 < total_delta (currentCpuTicks [cpu 10 10]) (currentCpuTicks [cpu 20 40]) < 2 ^ 40
      /\ (forall k : Z, ~ (10 * (100 * (1 - inject_Z 30 / inject_Z 40))
                           == inject_Z k + (1 # 2))%Q)
      /\ fst (calculateCpuPercent [cpu 20 40] w)
         = Ok (toFixed1 (100 * (1 - inject_Z 30 / inject_Z 40)))).
Proof.
  split.
  - intros w.
    assert (previousCpuTicks w = Some (currentCpuTicks [cpu 0 0])) as H1 by reflexivity.
    assert (Forall2 nondecreasing [cpu 0 0] [cpu 31 49]) as H2
      by (constructor; [unfold nondecreasing; simpl; lia|constructor]).
    assert (0 < total_delta (currentCpuTicks [cpu 0 0]) (currentCpuTicks [cpu 31 49])
            < 2 ^ 40) as H3 by (vm_compute; split; reflexivity).
    repeat (split; [assumption|]).
    destruct (cpu_percent_between_samples [cpu 0 0] [cpu 31 49] w H1 H2 H3)
      as (v & Hcall & _ & Hnear & Hrange & _).
    exists v. split; [rewrite Hcall; reflexivity|].
    split; [|split; [exact Hnear|exact Hrange]].
    assert (fst (calculateCpuPercent [cpu 31 49] w) = Ok v) as Hv
      by (rewrite Hcall; reflexivity).
    vm_compute in Hv. injection Hv as <-. reflexivity.
  - intros w.
    assert (previousCpuTicks w = Some (currentCpuTicks [cpu 10 10])) as H1 by reflexivity.
    assert (Forall2 nondecreasing [cpu 10 10] [cpu 20 40]) as H2
      by (constructor; [unfold nondecreasing; simpl; lia|constructor]).
    assert (0 < total_delta (currentCpuTicks [cpu 10 10]) (currentCpuTicks [cpu 20 40])
            < 2 ^ 40) as H3 by (vm_compute; split; reflexivity).
    assert (forall k : Z, ~ (10 * (100 * (1 - inject_Z 30 / inject_Z 40))
                             == inject_Z k + (1 # 2))%Q) as H4
      by (intros k Hk; unfold Qeq in Hk; simpl in Hk; lia).
    repeat (split; [assumption|]).
    destruct (cpu_percent_between_samples [cpu 10 10] [cpu 20 40] w H1 H2 H3)
      as (v & Hcall & _ & _ & _ & Hexact).
    rewrite Hcall. simpl fst. f_equal. exact (Hexact H4).
Defined.

(** 31 busy and 49 idle milliseconds since the stored reading: the value
    100 * (1 - 49/80) is 38.75, which rounds to 38.8; the three floating-point
    operations give 38.74999999999999, and the code reports 38.7. *)
Lemma cpu_percent_tie_example :
  let w := world_of fresh_fs (Some (currentCpuTicks [cpu 0 0])) in
  Forall2 nondecreasing [cpu 0 0] [cpu 31 49]
  /\ idle_delta (currentCpuTicks [cpu 0 0]) (currentCpuTicks [cpu 31 49]) = 49
  /\ total_delta (currentCpuTicks [cpu 0 0]) (currentCpuTicks [cpu 31 49]) = 80
  /\ (100 * (1 - inject_Z 49 / inject_Z 80) == 155 # 4)%Q
  /\ toFixed1 (100 * (1 - inject_Z 49 / inject_Z 80)) = (388 # 10)%Q
  /\ (fsub 100 (fmul (fdiv (inject_Z 49) (inject_Z 80)) 100)
      == 5453577673768959 # 140737488355328)%Q
  /\ fst (calculateCpuPercent [cpu 31 49] w) = Ok (387 # 10)%Q
  /\ ~ ((387 # 10) == (388 # 10))%Q.
Proof.
  intros w. split; [constructor; [unfold nondecreasing; simpl; lia|constructor]|].
  repeat split; discriminate.
Qed.

(** Counters that went backwards: the busy time fell by 10 while the idle
    time grew by 20, so the total grew by 10 and the call reports -100. *)
Lemma cpu_percent_negative_example :
  fst (calculateCpuPercent [cpu 0 20]
         (world_of fresh_fs (Some (currentCpuTicks [cpu 10 0]))))
  = Ok (- (inject_Z 1000 / 10))%Q
  /\ (- (inject_Z 1000 / 10) < 0)%Q.
Proof. split; reflexivity. Qed.

(** A second CPU came online between two readings: the call throws, and
    leaves the stored reading as it was. *)
Lemma cpu_percent_throws_example :
  calculateCpuPercent [cpu 20 40; cpu 5 5]
    (world_of fresh_fs (Some (currentCpuTicks [cpu 10 10])))
  = (Throw undefined_property, world_of fresh_fs (Some (currentCpuTicks [cpu 10 10]))).
Proof. reflexivity. Qed.

Lemma cpu_percent_edge_cases_witness :
  calculateCpuPercent [cpu 20 40] (world_of fresh_fs None)
  = (Ok 0%Q, sampled (currentCpuTicks [cpu 20 40]) (world_of fresh_fs None))
  /\ calculateCpuPercent [cpu 20 40] (world_of fresh_fs (Some (currentCpuTicks [cpu 20 40])))
     = (Ok 0%Q, sampled (currentCpuTicks [cpu 20 40])
                  (world_of fresh_fs (Some (currentCpuTicks [cpu 20 40]))))
  /\ exists v,
       calculateCpuPercent [cpu 20 40] (world_of fresh_fs (Some (currentCpuTicks [cpu 10 10])))
       = (Ok v, sampled (currentCpuTicks [cpu 20 40])
                  (world_of fresh_fs (Some (currentCpuTicks [cpu 10 10]))))
       /\ (0 <= v)%Q.
Proof.
  destruct cpu_percent_edge_cases as (Hfirst & Hflat & Hmono).
  split; [|split].
  - apply Hfirst. reflexivity.
  - apply (Hflat _ _ (currentCpuTicks [cpu 20 40])).
    + reflexivity.
    + simpl. lia.
    + vm_compute. discriminate.
  - apply (Hmono [cpu 10 10]).
    + reflexivity.
    + constructor; [unfold nondecreasing; simpl; lia|constructor].
Defined.

(** *** Identity *)





(** *** Snapshot *)

Lemma snapshot_disk_consistent_witness :
  exists snap w',
    collectMetrics example_os (world_of host_fs None) = (Ok snap, w')
    /\ machine_id snap = "4c4c4544004b35108052b4c04f4d5731"
    /\ timestamp snap = "2025-01-15T10:30:00Z"
    /\ ipv4 snap = Some "192.0.2.10"
    /\ disk_total (disk snap) = 100000000000
    /\ 0 < disk_total (disk snap)
    /\ disk_used (disk snap) + disk_free (disk snap) = disk_total (disk snap)
    /\ (disk_percent (disk snap) * inject_Z (disk_total (disk snap))
        == 100 * inject_Z (disk_used (disk snap)))%Q
    /\ (disk_percent (disk snap)
        == toFixed1 (100 * inject_Z (disk_used (disk snap))
                     / inject_Z (disk_total (disk snap))))%Q.
Proof.
  destruct (collectMetrics example_os (world_of host_fs None)) as [[snap|e] w'] eqn:Hrun;
    [|vm_compute in Hrun; discriminate].
  exists snap, w'. split; [reflexivity|].
  destruct (snapshot_disk_consistent example_os (world_of host_fs None) w' snap Hrun)
    as (Htotal & _ & _ & Hsum & Hexact & Hpercent & _).
  assert (fst (collectMetrics example_os (world_of host_fs None)) = Ok snap) as Hsnap
    by (rewrite Hrun; reflexivity).
  vm_compute in Hsnap. injection Hsnap as <-.
  repeat split; assumption.
Defined.

(** *** The agent loop *)

(** With an interval of one second and a first retry pause above two
    seconds, cycle 2 starts while cycle 1 is still in its pause. *)
Lemma main_cycles_overlap_example :
  let run := main example_url_parse example_stringify hasty_cfg hasty_inputs
               (world_of host_fs None) in
  (started (run 2%nat) < finished (run 1%nat))%Q.
Proof. vm_compute. reflexivity. Qed.

Lemma main_cycles_overlap_iff_slow_witness :
  0 <= interval_seconds hasty_cfg
  /\ (let run := main example_url_parse example_stringify hasty_cfg hasty_inputs
                   (world_of host_fs None) in
      (finished (run 0%nat) <= started (run 1%nat))%Q
      /\ (started (run 2%nat) < finished (run 1%nat))%Q)
  /\ (let run := main example_url_parse example_stringify DEFAULT_CONFIG hasty_inputs
                   (world_of host_fs None) in
      forall k, (finished (run k) <= started (run (S k)))%Q).
Proof.
  assert (0 <= interval_seconds hasty_cfg) as H by (simpl; lia).
  split; [exact H|]. split.
  - destruct (main_cycles_overlap_iff_slow example_url_parse example_stringify
                hasty_cfg hasty_inputs (world_of host_fs None) H)
      as (Hfirst & _ & Hslow).
    split; [exact Hfirst|].
    apply Hslow; [lia|]. vm_compute. reflexivity.
  - destruct (main_cycles_overlap_iff_slow example_url_parse example_stringify
                DEFAULT_CONFIG hasty_inputs (world_of host_fs None))
      as (_ & Hfast & _); [simpl; lia|].
    apply Hfast. intros k _. unfold network_phase, delivery.
    destruct (collectMetrics _ _) as [[snap|e] w']; vm_compute; discriminate.
Defined.

(** * Further properties of the code *)

(** ** Delivery: every run of [sendPayload] *)

Lemma retry_loop_first_request cfg opts postData net a rest :
  exists e trace,
    snd (retry_loop cfg opts postData net (a :: rest)) = e :: trace
    /\ is_request e = true.
Proof.
  simpl. destruct (attempt_once_shape cfg opts postData net a) as (l & ret & -> & _).
  destruct ret as [ret|].
  - simpl. eauto.
  - destruct (retry_loop cfg opts postData net rest) as [ret trace]. simpl. eauto.
Qed.

(** The loop over the attempt numbers [a], [a + 1], ... up to [max_retries]:
    whatever the answers, attempts and pauses alternate, and no more attempts
    are made than numbers are left. *)
Lemma retry_loop_alternates cfg opts postData net (m a : nat) :
  m = 0%nat \/ Z.of_nat (a + m) = max_retries cfg + 1 ->
  let run := retry_loop cfg opts postData net (map Z.of_nat (seq a m)) in
  schedule (snd run)
  = alternating cfg net (Z.of_nat a) (length (requests (snd run)))
  /\ (length (requests (snd run)) <= m)%nat.
Proof.
  revert a. induction m as [|m IH]; intros a Hend; [simpl; auto|].
  destruct Hend as [Hend|Hend]; [discriminate|].
  rewrite attempt_numbers_from. cbv zeta.
  simpl retry_loop.
  destruct (attempt_once_shape cfg opts postData net (Z.of_nat a))
    as (l & ret & -> & Hl & Hsl).
  destruct ret as [ret|].
  - simpl. unfold requests, schedule. simpl. rewrite Hl, Hsl. simpl. split; [reflexivity|lia].
  - specialize (IH (S a)).
    destruct (retry_loop cfg opts postData net (map Z.of_nat (seq (S a) m)))
      as [ret trace] eqn:Hloop.
    simpl snd in *.
    assert (requests (EvRequest opts postData (respond net (Z.of_nat a))
                        (latency net (Z.of_nat a))
                      :: l :: backoff cfg net (Z.of_nat a) ++ trace)
            = EvRequest opts postData (respond net (Z.of_nat a)) (latency net (Z.of_nat a))
              :: requests trace) as Hreq.
    { unfold requests. simpl. rewrite Hl.
      rewrite List.filter_app. fold (requests (backoff cfg net (Z.of_nat a))).
      rewrite backoff_no_request. reflexivity. }
    rewrite Hreq. simpl length.
    assert (schedule (EvRequest opts postData (respond net (Z.of_nat a))
                        (latency net (Z.of_nat a))
                      :: l :: backoff cfg net (Z.of_nat a) ++ trace)
            = Attempt :: schedule (backoff cfg net (Z.of_nat a)) ++ schedule trace)
      as Hsch.
    { unfold schedule at 1. simpl. rewrite Hsl. simpl.
      fold (schedule (backoff cfg net (Z.of_nat a) ++ trace)).
      rewrite schedule_app. reflexivity. }
    rewrite Hsch.
    destruct m as [|m].
    + simpl in Hloop. injection Hloop as <- <-.
      unfold backoff. replace (Z.of_nat a <? max_retries cfg) with false by lia.
      simpl. split; [reflexivity|lia].
    + destruct IH as [IHs IHn]; [right; lia|].
      rewrite attempt_numbers_from in Hloop.
      destruct (retry_loop_first_request cfg opts postData net (Z.of_nat (S a))
                  (map Z.of_nat (seq (S (S a)) m))) as (e & trace' & Htrace & He).
      rewrite Hloop in Htrace. simpl in Htrace. subst trace.
      assert (exists n, length (requests (e :: trace')) = S n) as [n Hn].
      { unfold requests. simpl. rewrite He. simpl. eauto. }
      split; [|lia]. rewrite IHs, Hn.
      unfold backoff, log. replace (Z.of_nat a <? max_retries cfg) with true by lia.
      change (alternating cfg net (Z.of_nat a) (S (S n)))
        with (Attempt :: Pause (sleepTime cfg net (Z.of_nat a) * 1000)
                :: alternating cfg net (Z.of_nat a + 1) (S n)).
      replace (Z.of_nat a + 1) with (Z.of_nat (S a)) by lia.
      reflexivity.
Qed.

(** The loop when attempt [n] is the first one that is not transient and is
    answered with a status in [200,300). *)
Lemma retry_loop_delivered cfg opts postData net (m a : nat) (n : Z) s body :
  Z.of_nat a <= n < Z.of_nat (a + m) ->
  (forall k, Z.of_nat a <= k < n -> is_transient (respond net k) = true) ->
  respond net n = Response s body -> 200 <= s < 300 ->
  let run := retry_loop cfg opts postData net (map Z.of_nat (seq a m)) in
  fst run = true
  /\ List.last (snd run) (EvSleep 0) = EvLog "INFO" msg_accepted [LNum s]
  /\ Z.of_nat (length (requests (snd run))) = n - Z.of_nat a + 1.
Proof.
  intros Hn Htr Hr Hs. revert a Hn Htr.
  induction m as [|m IH]; intros a Hn Htr; [lia|].
  rewrite attempt_numbers_from. cbv zeta. simpl retry_loop.
  destruct (Z.eq_dec (Z.of_nat a) n) as [Ha|Ha].
  - rewrite Ha. unfold attempt_once, log. rewrite Hr.
    replace ((200 <=? s) && (s <? 300)) with true by lia.
    simpl. repeat split. lia.
  - pose proof (attempt_once_transient cfg opts postData net (Z.of_nat a)) as Hnone.
    destruct (attempt_once_shape cfg opts postData net (Z.of_nat a))
      as (l & ret & Hshape & Hl & _).
    rewrite Hshape in *. simpl in Hnone. rewrite Hnone by (apply Htr; lia).
    destruct (IH (S a)) as (Hret & Hlast & Hcount); [lia|intros; apply Htr; lia|].
    destruct (retry_loop cfg opts postData net (map Z.of_nat (seq (S a) m)))
      as [r trace] eqn:Hloop.
    simpl in *. subst r. split; [reflexivity|]. split.
    + destruct trace as [|t trace]; [discriminate|].
      etransitivity; [|exact Hlast].
      exact (last_skip (EvRequest opts postData (respond net (Z.of_nat a))
                          (latency net (Z.of_nat a))
                        :: l :: backoff cfg net (Z.of_nat a)) trace t (EvSleep 0)).
    + unfold requests in *. simpl. rewrite Hl, List.filter_app.
      fold (requests (backoff cfg net (Z.of_nat a))). rewrite backoff_no_request.
      simpl length. lia.
Qed.

(** A request that was answered with a status in [200,300) is the last
    one: the loop returns [true] after logging it. *)
Lemma retry_loop_accepted cfg opts postData net attempts
    pre opts' postData' s body elapsed post :
  snd (retry_loop cfg opts postData net attempts)
  = pre ++ EvRequest opts' postData' (Response s body) elapsed :: post ->
  200 <= s < 300 ->
  fst (retry_loop cfg opts postData net attempts) = true
  /\ post = [EvLog "INFO" msg_accepted [LNum s]].
Proof.
  intros Htrace Hs. revert pre Htrace.
  induction attempts as [|a rest IH]; intros pre Htrace; simpl in *.
  - destruct pre as [|? [|? ?]]; discriminate.
  - destruct (attempt_once_shape cfg opts postData net a) as (l & ret & Hshape & Hl & _).
    rewrite Hshape in *.
    assert (pre = [] -> ret = Some true /\ l = EvLog "INFO" msg_accepted [LNum s])
      as Hhere.
    { intros ->. simpl in Htrace.
      assert (respond net a = Response s body) as Hr
        by (destruct ret as [?|]; [|destruct (retry_loop _ _ _ _ rest)];
            simpl in Htrace; congruence).
      unfold attempt_once, log in Hshape. rewrite Hr in Hshape.
      replace ((200 <=? s) && (s <? 300)) with true in Hshape by lia.
      injection Hshape as <- <-. auto. }
    destruct ret as [ret|].
    + simpl in *. destruct pre as [|p [|? [|? ?]]]; try discriminate.
      * destruct Hhere as [[= ->] ->]; [reflexivity|].
        injection Htrace as _ <-. auto.
      * injection Htrace as _ Hreq. rewrite Hreq in Hl. discriminate.
    + destruct (retry_loop cfg opts postData net rest) as [ret trace] eqn:Hloop.
      simpl in *. destruct pre as [|p pre].
      * destruct Hhere as [[=] _]. reflexivity.
      * injection Htrace as _ Htrace.
        destruct (request_after_prefix (l :: backoff cfg net a) trace pre post
                    (EvRequest opts' postData' (Response s body) elapsed))
          as (pre' & Hpre'); [reflexivity| |exact (eq_sym Htrace)|].
        { unfold requests. simpl. rewrite Hl. apply backoff_no_request. }
        exact (IH pre' (eq_sym Hpre')).
Qed.

(** The loop returns [true] only from the branch of an accepted request. *)
Lemma retry_loop_true cfg opts postData net attempts :
  fst (retry_loop cfg opts postData net attempts) = true ->
  exists pre a s body,
    snd (retry_loop cfg opts postData net attempts)
    = pre ++ [EvRequest opts postData (Response s body) (latency net a);
              EvLog "INFO" msg_accepted [LNum s]]
    /\ In a attempts /\ respond net a = Response s body /\ 200 <= s < 300.
Proof.
  induction attempts as [|a rest IH]; simpl; [discriminate|].
  unfold attempt_once, log.
  destruct (respond net a) as [s body|message] eqn:Hr.
  - destruct ((200 <=? s) && (s <? 300)) eqn:H2.
    + intros _. exists [], a, s, body. simpl. repeat split; auto; lia.
    + destruct ((400 <=? s) && (s <? 500)); [discriminate|].
      destruct (retry_loop cfg opts postData net rest) as [ret trace]. simpl in *.
      intros Hret. destruct (IH Hret) as (pre & a' & s' & body' & -> & Hin & Hr' & Hs').
      eexists (_ :: _ :: backoff cfg net a ++ pre), a', s', body'.
      split; [simpl; rewrite <- app_assoc; reflexivity|auto].
  - destruct (retry_loop cfg opts postData net rest) as [ret trace]. simpl in *.
    intros Hret. destruct (IH Hret) as (pre & a' & s' & body' & -> & Hin & Hr' & Hs').
    eexists (_ :: _ :: backoff cfg net a ++ pre), a', s', body'.
    split; [simpl; rewrite <- app_assoc; reflexivity|auto].
Qed.

(** The requests of the loop, with the attempt each one belongs to. *)
Lemma retry_loop_requests_in cfg opts postData net attempts e :
  In e (snd (retry_loop cfg opts postData net attempts)) ->
  is_request e = true ->
  exists attempt, In attempt attempts
    /\ e = EvRequest opts postData (respond net attempt) (latency net attempt).
Proof.
  induction attempts as [|a rest IH]; simpl.
  - intros [<-|[]]; discriminate.
  - destruct (attempt_once_shape cfg opts postData net a) as (l & ret & -> & Hl & _).
    destruct ret as [ret|].
    + simpl. intros [<-|[<-|[]]] He; [eauto|congruence].
    + destruct (retry_loop cfg opts postData net rest) as [ret trace] eqn:Hloop.
      simpl in *. intros [<-|[<-|Hin]] He; [eauto|congruence|].
      apply in_app_or in Hin as [Hin|Hin].
      * exfalso. pose proof (backoff_no_request cfg net a) as Hb.
        unfold requests in Hb.
        assert (In e (List.filter is_request (backoff cfg net a))) as Hf
          by (apply List.filter_In; auto).
        rewrite Hb in Hf. destruct Hf.
      * destruct (IH Hin He) as (attempt & Hattempt & ->). eauto.
Qed.

Lemma attempt_once_well_formed cfg opts postData net attempt :
  Forall (fun e => well_formed e = true)
    (fst (attempt_once cfg opts postData net attempt)).
Proof.
  unfold attempt_once, log.
  destruct (respond net attempt) as [s body|message].
  - destruct ((200 <=? s) && (s <? 300)); [|destruct ((400 <=? s) && (s <? 500))];
      repeat constructor.
  - repeat constructor.
Qed.

Lemma retry_loop_well_formed cfg opts postData net attempts :
  Forall (fun e => well_formed e = true)
    (snd (retry_loop cfg opts postData net attempts)).
Proof.
  induction attempts as [|a rest IH]; simpl; [repeat constructor|].
  pose proof (attempt_once_well_formed cfg opts postData net a) as Ha.
  destruct (attempt_once cfg opts postData net a) as [evs [ret|]]; [exact Ha|].
  destruct (retry_loop cfg opts postData net rest) as [ret trace]. simpl in *.
  apply Forall_app. split; [exact Ha|]. apply Forall_app. split; [|exact IH].
  unfold backoff, log. destruct (a <? max_retries cfg); repeat constructor.
Qed.

Section DeliveryRuns.

Context {Payload : Type}.
Variable url_parse : string -> UrlObject.
Variable JSON_stringify : Payload -> string.

Lemma sendPayload_well_formed cfg (payload : Payload) net :
  Forall (fun e => well_formed e = true)
    (snd (sendPayload url_parse JSON_stringify cfg payload net)).
Proof.
  unfold sendPayload. destruct (String.eqb (endpoint cfg) "NULL").
  - repeat constructor.
  - apply retry_loop_well_formed.
Qed.

(** X1. When the first [n - 1] answers are transient and attempt [n] (within
    the retry bound) is answered with a status in [200,300), [sendPayload]
    returns [true] after exactly [n] attempts, with the backoff pause between
    any two of them, and its last log line is the acceptance. *)
Theorem sendPayload_delivers_on_attempt cfg (payload : Payload) net (n s : Z) body :
  endpoint cfg <> "NULL" ->
  1 <= n <= max_retries cfg ->
  (forall k, 1 <= k < n -> is_transient (respond net k) = true) ->
  respond net n = Response s body ->
  200 <= s < 300 ->
  let run := sendPayload url_parse JSON_stringify cfg payload net in
  fst run = true
  /\ outcome run = Some Delivered
  /\ Z.of_nat (length (requests (snd run))) = n
  /\ schedule (snd run) = alternating cfg net 1 (Z.to_nat n).
Proof.
  intros Hep Hn Htr Hr Hs run. subst run. unfold sendPayload.
  apply String.eqb_neq in Hep. rewrite Hep. unfold attempt_numbers.
  set (postData := JSON_stringify payload).
  set (opts := build_options url_parse cfg postData).
  destruct (retry_loop_delivered cfg opts postData net (Z.to_nat (max_retries cfg)) 1
              n s body) as (Hret & Hlast & Hcount); try assumption; [lia|].
  destruct (retry_loop_alternates cfg opts postData net (Z.to_nat (max_retries cfg)) 1)
    as [Hsched _]; [right; lia|].
  repeat split.
  - exact Hret.
  - unfold outcome. rewrite Hret, Hlast. reflexivity.
  - rewrite Hcount. change (Z.of_nat 1) with 1. lia.
  - rewrite Hsched. f_equal. change (Z.of_nat 1) with 1 in Hcount. lia.
Qed.

(** X2. [sendPayload] returns [true] exactly when its run ends with a request
    that was answered with a status in [200,300), followed by the acceptance
    log line: it never reports success without such an answer, and never
    goes on after one. *)
Theorem sendPayload_true_iff_accepted cfg (payload : Payload) net :
  fst (sendPayload url_parse JSON_stringify cfg payload net) = true
  <-> exists pre opts postData s body elapsed,
        200 <= s < 300
        /\ snd (sendPayload url_parse JSON_stringify cfg payload net)
           = pre ++ [EvRequest opts postData (Response s body) elapsed;
                     EvLog "INFO" msg_accepted [LNum s]].
Proof.
  unfold sendPayload. destruct (String.eqb (endpoint cfg) "NULL"); simpl.
  - split; [discriminate|].
    intros (pre & opts & postData & s & body & elapsed & _ & Htrace).
    destruct pre as [|? [|? ?]]; discriminate.
  - split.
    + intros Hret.
      destruct (retry_loop_true _ _ _ _ _ Hret) as (pre & a & s & body & Htrace & _ & _ & Hs).
      eauto 10.
    + intros (pre & opts & postData & s & body & elapsed & Hs & Htrace).
      eapply retry_loop_accepted; eauto.
Qed.

(** X3. In every run of [sendPayload], whatever the endpoint answers,
    attempts and pauses alternate (the pause after attempt [k] is the backoff
    of [k]; no pause comes first or last), and at most [max_retries] attempts
    are made; with a retry bound of 0 or less no attempt is made at all and
    the run is reported as failed. *)
Theorem sendPayload_alternates cfg (payload : Payload) net :
  let run := sendPayload url_parse JSON_stringify cfg payload net in
  schedule (snd run) = alternating cfg net 1 (length (requests (snd run)))
  /\ (length (requests (snd run)) <= Z.to_nat (max_retries cfg))%nat
  /\ (endpoint cfg <> "NULL" -> max_retries cfg <= 0 ->
      run = (false, [EvLog "ERROR" msg_all_failed []])).
Proof.
  intros run. subst run. unfold sendPayload.
  destruct (String.eqb (endpoint cfg) "NULL") eqn:Hep.
  - simpl. repeat split; try lia. intros Hne. apply String.eqb_eq in Hep. contradiction.
  - destruct (retry_loop_alternates cfg (build_options url_parse cfg (JSON_stringify payload))
                (JSON_stringify payload) net (Z.to_nat (max_retries cfg)) 1)
      as [Hsched Hcount]; [destruct (Z.to_nat (max_retries cfg)) eqn:E; [auto|right; lia]|].
    unfold attempt_numbers. repeat split; try assumption.
    intros _ Hmax. replace (Z.to_nat (max_retries cfg)) with 0%nat by lia. reflexivity.
Qed.

(** X4. Every request of a run is the same POST: the body is the serialized
    payload, [Content-Type] is [application/json], [Content-Length] is the
    byte length of that body, [Authorization] is [Bearer] and the API key,
    the timeout is [timeout_seconds * 1000] milliseconds; and it belongs to
    an attempt between 1 and [max_retries]. *)
Theorem sendPayload_requests_identical cfg (payload : Payload) net
    opts postData result elapsed :
  In (EvRequest opts postData result elapsed)
     (snd (sendPayload url_parse JSON_stringify cfg payload net)) ->
  postData = JSON_stringify payload
  /\ opts = build_options url_parse cfg (JSON_stringify payload)
  /\ opt_method opts = "POST"
  /\ content_type (opt_headers opts) = "application/json"
  /\ content_length (opt_headers opts) = String.length (JSON_stringify payload)
  /\ authorization (opt_headers opts) = String.append "Bearer " (api_key cfg)
  /\ opt_timeout opts = (timeout_seconds cfg * 1000)%Q
  /\ exists k, 1 <= k <= max_retries cfg
       /\ result = respond net k /\ elapsed = latency net k.
Proof.
  unfold sendPayload. destruct (String.eqb (endpoint cfg) "NULL").
  - intros [Hin|[]]. discriminate.
  - intros Hin.
    apply retry_loop_requests_in in Hin as (k & Hk & Heq); [|reflexivity].
    injection Heq as -> -> -> ->. apply in_attempt_numbers in Hk.
    repeat split; eauto.
Qed.

End DeliveryRuns.

(** ** Logging *)

(** Induction along the scan of [formattedMessage]: a message is empty, a
    single character, a placeholder followed by a message, or a character
    that does not start a placeholder followed by a non-empty message. *)
Lemma scan_ind (P : string -> Prop) :
  P EmptyString ->
  (forall c, P (String c EmptyString)) ->
  (forall rest, P rest -> P (String "%" (String "s" rest))) ->
  (forall c c' rest,
      Ascii.eqb c "%" && Ascii.eqb c' "s" = false ->
      P (String c' rest) -> P (String c (String c' rest))) ->
  forall message, P message.
Proof.
  intros Hempty Hone Hhole Hchar message.
  assert (P message /\ forall c, P (String c message)) as [H _]; [|exact H].
  induction message as [|c' rest [IH IHc]].
  - split; [exact Hempty|exact Hone].
  - split; [apply IHc|]. intros c.
    destruct (Ascii.eqb c "%" && Ascii.eqb c' "s") eqn:Hm.
    + apply andb_prop in Hm as [Hc Hc'].
      apply Ascii.eqb_eq in Hc, Hc'. subst. apply Hhole, IH.
    + apply Hchar; [exact Hm|apply IHc].
Qed.

Lemma formattedMessage_plain (message : string) (args : list string) :
  placeholders message = 0%nat -> formattedMessage message args = message.
Proof.
  induction message as [|c|rest IH|c c' rest Hm IH] using scan_ind.
  - reflexivity.
  - reflexivity.
  - discriminate.
  - intros Hp. change (placeholders (String c (String c' rest)))
      with (if Ascii.eqb c "%" && Ascii.eqb c' "s"
            then S (placeholders rest) else placeholders (String c' rest)) in Hp.
    change (formattedMessage (String c (String c' rest)) args)
      with (if Ascii.eqb c "%" && Ascii.eqb c' "s"
            then String.append (match args with a :: _ => a | [] => "undefined" end)
                   (formattedMessage rest (tl args))
            else String c (formattedMessage (String c' rest) args)).
    rewrite Hm in *. rewrite IH by exact Hp. reflexivity.
Qed.

(** X5. [log] fills the placeholders from left to right: a message without
    [%s] is printed as it is, and in a message whose first [%s] comes after
    the text [pre], that [%s] is replaced by the first argument (by
    ["undefined"] when there is none) and the rest of the message is filled
    with the remaining arguments; what was inserted is not scanned again. *)
Theorem formattedMessage_fills (pre post : string) (args : list string) :
  placeholders pre = 0%nat ->
  formattedMessage pre args = pre
  /\ formattedMessage (pre ++ "%s" ++ post)%string args
     = (pre ++ hd "undefined" args ++ formattedMessage post (tl args))%string.
Proof.
  intros Hpre. split; [apply formattedMessage_plain, Hpre|].
  induction pre as [|c|rest IH|c c' rest Hm IH] using scan_ind.
  - destruct args; reflexivity.
  - simpl. destruct (Ascii.eqb c "%"); destruct args; reflexivity.
  - discriminate.
  - change (placeholders (String c (String c' rest)))
      with (if Ascii.eqb c "%" && Ascii.eqb c' "s"
            then S (placeholders rest) else placeholders (String c' rest)) in Hpre.
    rewrite Hm in Hpre.
    change (formattedMessage (String c (String c' rest) ++ "%s" ++ post)%string args)
      with (if Ascii.eqb c "%" && Ascii.eqb c' "s"
            then String.append (match args with a :: _ => a | [] => "undefined" end)
                   (formattedMessage (rest ++ "%s" ++ post)%string (tl args))
            else String c (formattedMessage (String c' rest ++ "%s" ++ post)%string args)).
    rewrite Hm, (IH Hpre). reflexivity.
Qed.

(** X6. Arguments beyond the placeholders of the message are dropped, and
    missing ones are printed as ["undefined"]: the line is the same as with
    any number of ["undefined"] arguments added. *)
Theorem formattedMessage_arity (message : string) (args : list string) :
  (forall surplus, (placeholders message <= length args)%nat ->
     formattedMessage message (args ++ surplus) = formattedMessage message args)
  /\ (forall k, formattedMessage message (args ++ repeat "undefined" k)
                = formattedMessage message args).
Proof.
  revert args.
  induction message as [|c|rest IH|c c' rest Hm IH] using scan_ind; intros args.
  - split; reflexivity.
  - split; reflexivity.
  - change (placeholders (String "%" (String "s" rest))) with (S (placeholders rest)).
    split.
    + intros surplus Hlen. destruct args as [|a args]; [simpl in Hlen; lia|].
      simpl. f_equal. apply (IH args). simpl in Hlen. lia.
    + intros k. destruct args as [|a args].
      * destruct k as [|k]; [reflexivity|]. simpl. f_equal.
        exact (proj2 (IH []) k).
      * simpl. f_equal. apply (IH args).
  - change (placeholders (String c (String c' rest)))
      with (if Ascii.eqb c "%" && Ascii.eqb c' "s"
            then S (placeholders rest) else placeholders (String c' rest)).
    assert (forall l, formattedMessage (String c (String c' rest)) l
                      = String c (formattedMessage (String c' rest) l)) as Hstep.
    { intros l.
      change (formattedMessage (String c (String c' rest)) l)
        with (if Ascii.eqb c "%" && Ascii.eqb c' "s"
              then String.append (match l with a :: _ => a | [] => "undefined" end)
                     (formattedMessage rest (tl l))
              else String c (formattedMessage (String c' rest) l)).
      rewrite Hm. reflexivity. }
    rewrite Hm, !Hstep. split.
    + intros surplus Hlen. rewrite Hstep. f_equal. apply (IH args). exact Hlen.
    + intros k. rewrite Hstep. f_equal. apply (IH args).
Qed.

(** ** Identity: every call of [getMachineId] *)

(** What a call of [getMachineId] leaves alone and what it adds. *)
Lemma getMachineId_effects (w : World) :
  (exists id, fst (getMachineId w) = Ok id)
  /\ previousCpuTicks (snd (getMachineId w)) = previousCpuTicks w
  /\ exists new, trace (snd (getMachineId w)) = trace w ++ new
                 /\ Forall (fun e => well_formed e = true) new.
Proof.
  unfold getMachineId. destruct (probe (fs w) paths) as [id|].
  { simpl. split; [eauto|]. split; [reflexivity|].
    exists []. rewrite app_nil_r. auto. }
  run_io. destruct (existsSync (fs w) persistencePath); simpl.
  - destruct (readFileSync (fs w) persistencePath) as [content|e]; simpl.
    + split; [eauto|]. split; [reflexivity|]. exists []. rewrite app_nil_r. auto.
    + split; [eauto|]. split; [reflexivity|]. eexists. split; [reflexivity|].
      repeat constructor.
  - destruct (existsSync (fs w) (dirname persistencePath)); simpl.
    + destruct (writeFileSync (fs w) persistencePath (uuid_source w 0%nat)) as [f'|e];
        simpl; (split; [eauto|]; split; [reflexivity|]).
      * eexists. split; [reflexivity|]. repeat constructor.
      * rewrite <- app_assoc. eexists. split; [reflexivity|]. repeat constructor.
    + destruct (mkdirSync (fs w) (dirname persistencePath)) as [[[]|e1] f1]; simpl.
      * destruct (writeFileSync f1 persistencePath (uuid_source w 0%nat)) as [f'|e];
          simpl; (split; [eauto|]; split; [reflexivity|]).
        -- rewrite <- app_assoc. eexists. split; [reflexivity|]. repeat constructor.
        -- rewrite <- !app_assoc. eexists. split; [reflexivity|]. repeat constructor.
      * split; [eauto|]. split; [reflexivity|].
        rewrite <- app_assoc. eexists. split; [reflexivity|]. repeat constructor.
Qed.

Lemma trim_blank (s : string) : blank s = true -> trim s = EmptyString.
Proof.
  unfold trim. induction s as [|c rest IH]; simpl; [reflexivity|].
  intros H. apply andb_prop in H as [Hc Hrest]. rewrite Hc. auto.
Qed.

Lemma getMachineId_never_throws_aux (w : World) :
  exists id w',
    getMachineId w = (Ok id, w')
    /\ previousCpuTicks w' = previousCpuTicks w.
Proof.
  destruct (getMachineId_effects w) as ((id & Hid) & Hticks & _).
  destruct (getMachineId w) as [r w'] eqn:Hrun. simpl in *. subst r. eauto.
Qed.

(** X7. [getMachineId] never throws: whatever the filesystem does, it returns
    a string, and it leaves the stored CPU reading alone. *)
Theorem getMachineId_never_throws (w : World) :
  exists id w',
    getMachineId w = (Ok id, w')
    /\ previousCpuTicks w' = previousCpuTicks w.
Proof.
  destruct (getMachineId_effects w) as ((id & Hid) & Hticks & _).
  destruct (getMachineId w) as [r w'] eqn:Hrun. simpl in *. subst r. eauto.
Qed.

(** X8. The OS identity files come first, in their order, and finding one
    changes nothing: when [/etc/machine-id] can be read, its trimmed content
    is returned whatever the other files hold; when it does not exist or
    cannot be read and [/var/lib/dbus/machine-id] can be read, that one is
    returned; in both cases no file is written, no identifier is generated
    and nothing is logged. *)
Theorem getMachineId_prefers_os_files (w : World) (content : string) :
  (files (fs w) !! "/etc/machine-id" = Some content ->
   "/etc/machine-id" ∉ unreadable (fs w) ->
   getMachineId w = (Ok (trim content), w))
  /\ ((existsSync (fs w) "/etc/machine-id" = false
       \/ exists e, readFileSync (fs w) "/etc/machine-id" = Throw e) ->
      files (fs w) !! "/var/lib/dbus/machine-id" = Some content ->
      "/var/lib/dbus/machine-id" ∉ unreadable (fs w) ->
      getMachineId w = (Ok (trim content), w)).
Proof.
  assert (forall p, files (fs w) !! p = Some content -> p ∉ unreadable (fs w) ->
            existsSync (fs w) p = true /\ readFileSync (fs w) p = Ok content) as Hread.
  { intros p Hfile Hunr. unfold existsSync, readFileSync. rewrite Hfile.
    rewrite (bool_decide_eq_false_2 _ Hunr). auto. }
  split.
  - intros Hfile Hunr. destruct (Hread _ Hfile Hunr) as [Hex Hrd].
    apply getMachineId_os_file. simpl. rewrite Hex, Hrd. reflexivity.
  - intros Hfirst Hfile Hunr. destruct (Hread _ Hfile Hunr) as [Hex Hrd].
    apply getMachineId_os_file. simpl. rewrite Hex, Hrd.
    destruct Hfirst as [-> | [e ->]]; [reflexivity|].
    destruct (existsSync (fs w) "/etc/machine-id"); reflexivity.
Qed.

(** X9. An OS identity file that is empty or holds only whitespace is taken
    as it is: the identity is the empty string, and neither the next
    candidate nor the persistence file is looked at. *)
Theorem getMachineId_blank_file (w : World) (content : string) :
  files (fs w) !! "/etc/machine-id" = Some content ->
  "/etc/machine-id" ∉ unreadable (fs w) ->
  blank content = true ->
  getMachineId w = (Ok EmptyString, w).
Proof.
  intros Hfile Hunr Hblank. rewrite <- (trim_blank content Hblank).
  apply getMachineId_os_file. simpl. unfold existsSync, readFileSync.
  rewrite Hfile. rewrite (bool_decide_eq_false_2 _ Hunr). reflexivity.
Qed.

(** X10. An identity found in a file depends on the filesystem alone, and a
    generated identity that was written is found again by any later process
    on that filesystem, whatever its random source: the identity survives a
    restart. *)
Theorem getMachineId_survives_restart (w later : World) :
  (fs later = fs w ->
   (probe (fs w) paths <> None
    \/ exists content, existsSync (fs w) persistencePath = true
                       /\ readFileSync (fs w) persistencePath = Ok content) ->
   fst (getMachineId later) = fst (getMachineId w))
  /\ (forall f',
      probe (fs w) paths = None ->
      existsSync (fs w) persistencePath = false ->
      persist (fs w) (uuid_source w 0%nat) = Ok f' ->
      persistencePath ∉ unreadable (fs w) ->
      canonical_uuid (uuid_source w 0%nat) = true ->
      fs later = fs (snd (getMachineId w)) ->
      fst (getMachineId later) = fst (getMachineId w)
      /\ fst (getMachineId w) = Ok (uuid_source w 0%nat)).
Proof.
  split.
  - intros Hfs Hfound.
    destruct (probe (fs w) paths) as [id|] eqn:Hp.
    + rewrite (getMachineId_os_file w id Hp).
      rewrite (getMachineId_os_file later id) by (rewrite Hfs; exact Hp). reflexivity.
    + destruct Hfound as [Hne|(content & Hex & Hrd)]; [congruence|].
      rewrite (getMachineId_persisted w content Hp Hex Hrd).
      rewrite (getMachineId_persisted later content) by (rewrite Hfs; assumption).
      reflexivity.
  - intros f' Hp Hex Hpersist Hunr Hcanon Hfs.
    destruct (getMachineId_generated w f' Hp Hex Hpersist) as (Hid & Hf' & _).
    destruct (persist_written (fs w) f' (uuid_source w 0%nat) Hpersist) as [Hfile Hunr'].
    rewrite Hf' in Hfs. split; [|exact Hid]. rewrite Hid.
    rewrite (getMachineId_persisted later (uuid_source w 0%nat)).
    + rewrite trim_canonical_uuid by assumption. reflexivity.
    + rewrite Hfs. rewrite (probe_same paths (fs w)); [assumption|].
      intros p Hin. destruct (paths_apart p Hin). eapply persist_same_at; eauto.
    + rewrite Hfs. unfold existsSync. rewrite Hfile. reflexivity.
    + rewrite Hfs. unfold readFileSync. rewrite Hfile, Hunr'.
      rewrite bool_decide_eq_false_2 by assumption. reflexivity.
Qed.

(** ** CPU utilisation and the snapshot *)

Lemma sum_deltas_take (f : CpuTick -> Z) (previous current : list CpuTick) :
  sum_deltas f (take (length current) previous) current = sum_deltas f previous current.
Proof.
  revert previous. induction current as [|c current IH]; intros [|p previous]; simpl;
    try reflexivity.
  rewrite IH. reflexivity.
Qed.

(** X11. Readings are paired by position, and the entries of the stored
    reading beyond the current number of CPUs are ignored: with fewer CPUs
    than at the previous call, [calculateCpuPercent] does not throw, and
    reports what it would report had only the first entries been stored. *)
Theorem calculateCpuPercent_ignores_surplus (cpus : list CpuInfo) (w w' : World)
    (previous : list CpuTick) :
  previousCpuTicks w = Some previous ->
  (length cpus <= length previous)%nat ->
  previousCpuTicks w' = Some (take (length cpus) previous) ->
  exists v,
    calculateCpuPercent cpus w = (Ok v, sampled (currentCpuTicks cpus) w)
    /\ calculateCpuPercent cpus w' = (Ok v, sampled (currentCpuTicks cpus) w').
Proof.
  intros Hprev Hlen Hprev'.
  rewrite (calculateCpuPercent_next cpus w previous Hprev Hlen).
  rewrite (calculateCpuPercent_next cpus w' _ Hprev')
    by (rewrite length_take; lia).
  unfold idle_delta, total_delta.
  rewrite <- (length_currentCpuTicks cpus), !sum_deltas_take. eauto.
Qed.

(** X12. How [collectMetrics] fails.  It returns a snapshot exactly when none
    of the three [os] calls that can fail throws and the stored CPU reading,
    if there is one, has an entry for every CPU.  A host name query that
    fails is thrown before anything else is done: the world is untouched.  A
    stored reading that is too short throws the [TypeError] of the CPU loop
    and stays as it was.  An uptime or interface query that fails is thrown
    after the CPU percentage was computed: the current reading has replaced
    the stored one. *)
Theorem collectMetrics_succeeds_iff (os : OsReading) (w : World) :
  let covered :=
    previousCpuTicks w = None
    \/ exists previous, previousCpuTicks w = Some previous
                        /\ (length (os_cpus os) <= length previous)%nat in
  ((exists snap w', collectMetrics os w = (Ok snap, w'))
   <-> ((forall call, os_error os call = None) /\ covered))
  /\ (forall e, os_error os Hostname = Some e -> collectMetrics os w = (Throw e, w))
  /\ (os_error os Hostname = None -> ~ covered ->
      exists w', collectMetrics os w = (Throw undefined_property, w')
                 /\ previousCpuTicks w' = previousCpuTicks w)
  /\ (forall e, os_error os Hostname = None -> covered ->
        os_error os Uptime = Some e
        \/ (os_error os Uptime = None /\ os_error os NetworkInterfaces = Some e) ->
        exists w', collectMetrics os w = (Throw e, w')
                   /\ previousCpuTicks w' = Some (currentCpuTicks (os_cpus os))).
Proof.
  intros covered. rewrite collectMetrics_unfold.
  destruct (getMachineId_never_throws_aux w) as (id & w1 & Hid & Hticks).
  rewrite Hid. clear Hid.
  assert (covered ->
          exists v, calculateCpuPercent (os_cpus os) w1
                    = (Ok v, sampled (currentCpuTicks (os_cpus os)) w1)) as Hcovered.
  { intros [Hnone|(previous & Hprev & Hlen)].
    - rewrite Hnone in Hticks.
      rewrite (calculateCpuPercent_first (os_cpus os) w1 Hticks). eauto.
    - rewrite Hprev in Hticks.
      rewrite (calculateCpuPercent_next (os_cpus os) w1 previous Hticks Hlen). eauto. }
  assert (~ covered ->
          calculateCpuPercent (os_cpus os) w1 = (Throw undefined_property, w1))
    as Huncovered.
  { intros Hnot. destruct (previousCpuTicks w) as [previous|] eqn:Hprev.
    - apply (calculateCpuPercent_more_cpus (os_cpus os) w1 previous Hticks).
      destruct (le_lt_dec (length (os_cpus os)) (length previous)) as [Hlen|Hlen];
        [|exact Hlen].
      exfalso. apply Hnot. right. eauto.
    - exfalso. apply Hnot. left. reflexivity. }
  assert (covered \/ ~ covered) as Hdec.
  { subst covered. destruct (previousCpuTicks w) as [previous|]; [|auto].
    destruct (le_lt_dec (length (os_cpus os)) (length previous)) as [Hlen|Hlen].
    - left. right. eauto.
    - right. intros [H|(previous' & [= <-] & H)]; [discriminate|lia]. }
  split; [|split; [|split]].
  - split.
    + intros (snap & w' & Hrun).
      destruct (os_error os Hostname) eqn:Hh; [discriminate|].
      destruct Hdec as [Hc|Hc]; [|rewrite (Huncovered Hc) in Hrun; discriminate].
      destruct (Hcovered Hc) as [v Hv]. rewrite Hv in Hrun.
      destruct (os_error os Uptime) eqn:Hu; [discriminate|].
      destruct (os_error os NetworkInterfaces) eqn:Hn; [discriminate|].
      split; [|exact Hc]. intros []; assumption.
    + intros [Hok Hc]. rewrite !Hok. destruct (Hcovered Hc) as [v ->]. eauto.
  - intros e ->. reflexivity.
  - intros -> Hc. rewrite (Huncovered Hc). eauto.
  - intros e -> Hc Hfail. destruct (Hcovered Hc) as [v ->].
    destruct Hfail as [-> | [-> ->]]; eexists; split; reflexivity.
Qed.


Lemma find_app {A : Type} (f : A -> bool) (l1 l2 : list A) :
  List.find f (l1 ++ l2)
  = match List.find f l1 with Some x => Some x | None => List.find f l2 end.
Proof.
  induction l1 as [|x l1 IH]; simpl; [reflexivity|].
  destruct (f x); [reflexivity|exact IH].
Qed.

Lemma scan_interfaces_first (ifs : list (string * list NetAddr)) :
  (forall a, In a (all_addresses ifs) -> is_public_ipv4 a = true ->
             address a <> EmptyString) ->
  scan_interfaces ifs None
  = option_map address (List.find is_public_ipv4 (all_addresses ifs)).
Proof.
  unfold all_addresses.
  induction ifs as [|[name addrs] rest IH]; intros Hne; simpl; [reflexivity|].
  rewrite find_app.
  destruct (List.find is_public_ipv4 addrs) as [a|] eqn:Hfind.
  - apply List.find_some in Hfind as [Hin Hpub].
    assert (address a <> EmptyString) as Ha
      by (apply Hne; [apply in_or_app; left; exact Hin|exact Hpub]).
    simpl. destruct (address a); [congruence|reflexivity].
  - simpl. apply IH. intros a Hin. apply Hne. apply in_or_app. right. exact Hin.
Qed.

(** X14. The [ipv4] field of a snapshot is the address of the first entry,
    in the order the interfaces and their addresses are enumerated, that is
    IPv4 and not internal, and [null] when there is none (the addresses
    being non-empty strings). *)
Theorem snapshot_ipv4 (os : OsReading) (w w' : World) (snap : MetricSnapshot) :
  collectMetrics os w = (Ok snap, w') ->
  (forall a, In a (all_addresses (os_networkInterfaces os)) ->
             is_public_ipv4 a = true -> address a <> EmptyString) ->
  ipv4 snap
  = option_map address
      (List.find is_public_ipv4 (all_addresses (os_networkInterfaces os)))
  /\ (ipv4 snap = None <->
      forall a, In a (all_addresses (os_networkInterfaces os)) ->
                is_public_ipv4 a = false).
Proof.
  intros Hsnap Hne.
  destruct (collectMetrics_snapshot os w w' snap Hsnap) as (id & cpu & ->).
  simpl. rewrite (scan_interfaces_first _ Hne). split; [reflexivity|].
  destruct (List.find is_public_ipv4 (all_addresses (os_networkInterfaces os)))
    as [a|] eqn:Hfind; simpl.
  - split; [discriminate|]. intros Hnone.
    apply List.find_some in Hfind as [Hin Hpub]. rewrite (Hnone a Hin) in Hpub.
    discriminate.
  - split; [|reflexivity]. intros _. exact (List.find_none _ _ Hfind).
Qed.

Lemma list_ascii_of_string_app (s t : string) :
  list_ascii_of_string (s ++ t)%string
  = list_ascii_of_string s ++ list_ascii_of_string t.
Proof. induction s as [|c s IH]; simpl; [reflexivity|]. rewrite IH. reflexivity. Qed.

Lemma string_of_list_ascii_app (l m : list ascii) :
  string_of_list_ascii (l ++ m)
  = (string_of_list_ascii l ++ string_of_list_ascii m)%string.
Proof. induction l as [|c l IH]; simpl; [reflexivity|]. rewrite IH. reflexivity. Qed.

Lemma strip_millis_iso (body : string) (d1 d2 d3 : ascii) :
  is_digit d1 = true -> is_digit d2 = true -> is_digit d3 = true ->
  strip_millis (body ++ String "." (String d1 (String d2 (String d3 "Z"))))%string
  = (body ++ "Z")%string.
Proof.
  intros H1 H2 H3. unfold strip_millis.
  rewrite list_ascii_of_string_app, rev_app_distr. simpl.
  rewrite H1, H2, H3. simpl.
  rewrite rev_involutive, string_of_list_ascii_app, string_of_list_ascii_of_string.
  reflexivity.
Qed.

(** X15. The timestamp of a snapshot is the instant cut to whole seconds:
    from the ISO string of the clock, which ends in a dot, three digits and
    [Z], the dot and the digits are removed and the [Z] stays. *)
Theorem snapshot_timestamp (os : OsReading) (w w' : World) (snap : MetricSnapshot)
    (body : string) (d1 d2 d3 : ascii) :
  collectMetrics os w = (Ok snap, w') ->
  now_iso os = (body ++ String "." (String d1 (String d2 (String d3 "Z"))))%string ->
  is_digit d1 = true -> is_digit d2 = true -> is_digit d3 = true ->
  timestamp snap = (body ++ "Z")%string.
Proof.
  intros Hsnap Hnow H1 H2 H3.
  destruct (collectMetrics_snapshot os w w' snap Hsnap) as (id & cpu & ->).
  simpl. rewrite Hnow. apply strip_millis_iso; assumption.
Qed.

(** ** The agent loop: every cycle *)

Lemma calculateCpuPercent_trace (cpus : list CpuInfo) (w : World) :
  trace (snd (calculateCpuPercent cpus w)) = trace w.
Proof.
  unfold calculateCpuPercent. destruct (previousCpuTicks w) as [previous|];
    [|reflexivity].
  destruct (differences _ _ _ _) as [[i t]|e]; [|reflexivity].
  unfold mbind, M_bind, set_previousCpuTicks, mret, M_ret.
  destruct (0 <? t); reflexivity.
Qed.

Lemma collectMetrics_well_formed (os : OsReading) (w : World) :
  Forall (fun e => well_formed e = true) (trace w) ->
  Forall (fun e => well_formed e = true) (trace (snd (collectMetrics os w))).
Proof.
  intros Hw. rewrite collectMetrics_unfold.
  destruct (os_error os Hostname); [exact Hw|].
  destruct (getMachineId_effects w) as (_ & _ & new & Htrace & Hnew).
  destruct (getMachineId w) as [[id|e] w1]; simpl in Htrace.
  - pose proof (calculateCpuPercent_trace (os_cpus os) w1) as Hcpu.
    destruct (calculateCpuPercent (os_cpus os) w1) as [[cpu|e] w2]; simpl in *.
    + assert (Forall (fun e => well_formed e = true)
                (trace (snd (getDiskUsage w2)))) as Hdisk.
      { simpl. rewrite Hcpu, Htrace. apply Forall_app. split; [apply Forall_app; auto|].
        repeat constructor. }
      destruct (os_error os Uptime); [exact Hdisk|].
      destruct (os_error os NetworkInterfaces); exact Hdisk.
    + rewrite Hcpu, Htrace. apply Forall_app. auto.
  - simpl. rewrite Htrace. apply Forall_app. auto.
Qed.

Lemma duration_app (t1 t2 : list event) :
  (duration (t1 ++ t2) == duration t1 + duration t2)%Q.
Proof.
  unfold duration. induction t1 as [|e t1 IH]; simpl; [ring|].
  rewrite IH. ring.
Qed.

Lemma worst_case_step cfg (T : Q) (attempts : list Z) (k : Z) :
  (0 <= T)%Q -> (0 <= jitter cfg)%Q -> (0 <= backoff_base cfg)%Q ->
  (0 <= T + (if k <? max_retries cfg
             then backoff_base cfg ^ k + jitter cfg else 0))%Q.
Proof.
  intros HT Hj Hb. pose proof (Qpower_0_le (backoff_base cfg) k Hb).
  destruct (k <? max_retries cfg); lra.
Qed.

(** A run of the loop takes no longer than all its attempts at [T] seconds
    each and all its pauses at their largest. *)
Lemma retry_loop_duration cfg opts postData net (T : Q) (attempts : list Z) :
  (0 <= jitter cfg)%Q -> (0 <= backoff_base cfg)%Q ->
  (forall k, (0 <= latency net k <= T)%Q) ->
  (forall k, (0 <= random net k < 1)%Q) ->
  (duration (snd (retry_loop cfg opts postData net attempts))
   <= fold_right Qplus 0
        (map (fun k => T + if k <? max_retries cfg
                            then backoff_base cfg ^ k + jitter cfg else 0)
             attempts))%Q.
Proof.
  intros Hj Hb Hlat Hrand.
  assert (0 <= T)%Q as HT by (destruct (Hlat 0); lra).
  assert (forall l, (0 <= fold_right Qplus 0
                            (map (fun k => T + if k <? max_retries cfg
                                                then backoff_base cfg ^ k + jitter cfg
                                                else 0) l))%Q) as Hpos.
  { induction l as [|k l IH]; simpl; [lra|].
    pose proof (worst_case_step cfg T l k HT Hj Hb). lra. }
  induction attempts as [|a rest IH]; simpl.
  - unfold duration. simpl. lra.
  - destruct (attempt_once_shape cfg opts postData net a) as (l & ret & -> & Hl & Hsl).
    assert (event_seconds l == 0)%Q as Hl0
      by (destruct l; simpl in *; try discriminate; reflexivity).
    specialize (Hpos rest). destruct (Hlat a) as [Hlat0 HlatT].
    pose proof (Qpower_0_le (backoff_base cfg) a Hb) as Hpow.
    destruct ret as [ret|].
    + simpl. unfold duration. simpl. rewrite Hl0.
      destruct (a <? max_retries cfg); lra.
    + destruct (retry_loop cfg opts postData net rest) as [ret trace]. simpl in *.
      change (duration (EvRequest opts postData (respond net a) (latency net a)
                          :: l :: backoff cfg net a ++ trace))
        with (latency net a + (event_seconds l + duration (backoff cfg net a ++ trace)))%Q.
      rewrite duration_app, Hl0. unfold backoff, log.
      destruct (a <? max_retries cfg).
      * unfold duration at 1. simpl fold_right.
        destruct (sleepTime_bounds cfg net a Hj (Hrand a)) as [_ Hsleep].
        assert (sleepTime cfg net a * 1000 / 1000 == sleepTime cfg net a)%Q as ->
          by field.
        lra.
      * unfold duration at 1. simpl fold_right. lra.
Qed.

Section AgentRuns.

Variable url_parse : string -> UrlObject.
Variable JSON_stringify : MetricSnapshot -> string.

Lemma cycle_unfold cfg catch_message inp (w : World) :
  cycle url_parse JSON_stringify cfg catch_message inp w
  = match collectMetrics (reading inp) w with
    | (Ok payload, w1) =>
        emit (snd (sendPayload url_parse JSON_stringify cfg payload (network inp))) w1
    | (Throw e, w1) => logM "ERROR" catch_message [LStr (error_message e)] w1
    end.
Proof.
  unfold cycle, try_catch, mbind, M_bind.
  destruct (collectMetrics (reading inp) w) as [[payload|e] w1]; reflexivity.
Qed.

(** X16. A cycle never throws.  When sampling succeeds the cycle adds the run
    of [sendPayload] for the snapshot to what the process has done; when
    sampling throws, the cycle logs the error with the message of its
    [catch] and sends nothing. *)
Theorem cycle_never_throws cfg catch_message inp (w : World) :
  fst (cycle url_parse JSON_stringify cfg catch_message inp w) = Ok tt
  /\ (forall snap w1, collectMetrics (reading inp) w = (Ok snap, w1) ->
        trace (snd (cycle url_parse JSON_stringify cfg catch_message inp w))
        = trace w1 ++ snd (sendPayload url_parse JSON_stringify cfg snap (network inp)))
  /\ (forall e w1, collectMetrics (reading inp) w = (Throw e, w1) ->
        trace (snd (cycle url_parse JSON_stringify cfg catch_message inp w))
        = trace w1 ++ [EvLog "ERROR" catch_message [LStr (error_message e)]]
        /\ delivery url_parse JSON_stringify cfg inp w = []).
Proof.
  rewrite cycle_unfold. unfold delivery.
  destruct (collectMetrics (reading inp) w) as [[payload|e] w1].
  - split; [reflexivity|]. split; [intros snap w1' [= <- <-]; reflexivity|discriminate].
  - split; [reflexivity|]. split; [discriminate|].
    intros e' w1' [= <- <-]. split; reflexivity.
Qed.

Lemma cycle_ticks cfg catch_message inp (w : World) :
  previousCpuTicks (snd (cycle url_parse JSON_stringify cfg catch_message inp w))
  = previousCpuTicks (snd (collectMetrics (reading inp) w)).
Proof.
  rewrite cycle_unfold.
  destruct (collectMetrics (reading inp) w) as [[payload|e] w1]; reflexivity.
Qed.

(** X17. Once there are more CPUs than the stored reading has entries, the
    agent is stuck: as long as that stays so, every cycle fails in sampling
    (with the [TypeError] of the CPU loop, unless the host name query has
    failed before it is reached), the stored reading is never replaced, and
    no cycle sends anything. *)
Theorem main_stuck_after_cpu_added cfg inputs (w0 : World) (previous : list CpuTick) :
  previousCpuTicks w0 = Some previous ->
  (forall k, (length previous < length (os_cpus (reading (inputs k))))%nat) ->
  forall k,
    previousCpuTicks (world_before url_parse JSON_stringify cfg inputs w0 k)
    = Some previous
    /\ fst (collectMetrics (reading (inputs k))
              (world_before url_parse JSON_stringify cfg inputs w0 k))
       = Throw (match os_error (reading (inputs k)) Hostname with
                | Some e => e
                | None => undefined_property
                end)
    /\ delivery url_parse JSON_stringify cfg (inputs k)
         (world_before url_parse JSON_stringify cfg inputs w0 k) = [].
Proof.
  intros Hprev Hmore.
  assert (forall w os, previousCpuTicks w = Some previous ->
            (length previous < length (os_cpus os))%nat ->
            fst (collectMetrics os w)
            = Throw (match os_error os Hostname with
                     | Some e => e
                     | None => undefined_property
                     end)
            /\ previousCpuTicks (snd (collectMetrics os w)) = Some previous) as Hstep.
  { intros w os Hw Hlen. rewrite collectMetrics_unfold.
    destruct (os_error os Hostname); [auto|].
    destruct (getMachineId_never_throws_aux w) as (id & w1 & -> & Hticks).
    rewrite Hw in Hticks.
    rewrite (calculateCpuPercent_more_cpus (os_cpus os) w1 previous Hticks Hlen).
    auto. }
  assert (forall k, previousCpuTicks (world_before url_parse JSON_stringify cfg inputs w0 k)
                    = Some previous) as Hinv.
  { induction k as [|k IH]; [exact Hprev|].
    simpl. rewrite cycle_ticks. apply Hstep; auto. }
  intros k. destruct (Hstep _ (reading (inputs k)) (Hinv k) (Hmore k)) as [Hthrow _].
  repeat split; auto.
  unfold delivery. destruct (collectMetrics _ _) as [[snap|e] w1]; [discriminate|reflexivity].
Qed.

Lemma cycle_well_formed cfg catch_message inp (w : World) :
  placeholders catch_message = 1%nat ->
  Forall (fun e => well_formed e = true) (trace w) ->
  Forall (fun e => well_formed e = true)
    (trace (snd (cycle url_parse JSON_stringify cfg catch_message inp w))).
Proof.
  intros Hmsg Hw. rewrite cycle_unfold.
  pose proof (collectMetrics_well_formed (reading inp) w Hw) as Hcollect.
  destruct (collectMetrics (reading inp) w) as [[payload|e] w1]; simpl in *.
  - apply Forall_app. split; [exact Hcollect|apply sendPayload_well_formed].
  - apply Forall_app. split; [exact Hcollect|].
    repeat constructor. simpl. rewrite Hmsg. reflexivity.
Qed.

(** X18. Every log call the agent makes, in any cycle, passes exactly as
    many arguments as its message has placeholders: no line ever prints
    ["undefined"] for a missing argument, and no argument is dropped. *)
Theorem agent_logs_well_formed cfg inputs (w0 : World) (k : nat) :
  Forall (fun e => well_formed e = true) (trace w0) ->
  Forall (fun e => well_formed e = true)
    (trace (world_before url_parse JSON_stringify cfg inputs w0 k)).
Proof.
  intros Hw0. induction k as [|k IH]; [exact Hw0|].
  simpl. apply cycle_well_formed; [|exact IH].
  destruct (Nat.eqb k 0); reflexivity.
Qed.

Lemma network_phase_bound cfg inputs (w0 : World) (T : Q) (k : nat) :
  (0 <= jitter cfg)%Q -> (0 <= backoff_base cfg)%Q ->
  (forall a, (0 <= latency (network (inputs k)) a <= T)%Q) ->
  (forall a, (0 <= random (network (inputs k)) a < 1)%Q) ->
  (network_phase url_parse JSON_stringify cfg inputs w0 k <= worst_case cfg T)%Q.
Proof.
  intros Hj Hb Hlat Hrand. unfold network_phase, delivery, worst_case.
  assert (0 <= T)%Q as HT by (destruct (Hlat 0); lra).
  assert (forall l, (0 <= fold_right Qplus 0
                            (map (fun k => T + if k <? max_retries cfg
                                                then backoff_base cfg ^ k + jitter cfg
                                                else 0) l))%Q) as Hpos.
  { induction l as [|a l IH]; simpl; [lra|].
    pose proof (worst_case_step cfg T l a HT Hj Hb). lra. }
  destruct (collectMetrics _ _) as [[snap|e] w1]; [|apply Hpos].
  unfold sendPayload. destruct (String.eqb (endpoint cfg) "NULL"); [apply Hpos|].
  apply retry_loop_duration; assumption.
Qed.

(** X19. Cycles never overlap when the interval covers the longest a delivery
    can take: with every exchange taking at most [T] seconds, a delivery
    takes at most [max_retries] times [T] plus the largest pauses
    [backoff_base^k + jitter] for [k < max_retries]; when that is at most
    [interval_seconds], every cycle has finished before the next starts. *)
Theorem main_sequential_within_worst_case cfg inputs (w0 : World) (T : Q) :
  (0 <= jitter cfg)%Q -> (0 <= backoff_base cfg)%Q ->
  (forall k a, (0 <= latency (network (inputs k)) a <= T)%Q) ->
  (forall k a, (0 <= random (network (inputs k)) a < 1)%Q) ->
  (worst_case cfg T <= inject_Z (interval_seconds cfg))%Q ->
  forall k,
    (network_phase url_parse JSON_stringify cfg inputs w0 k <= worst_case cfg T)%Q
    /\ (finished (main url_parse JSON_stringify cfg inputs w0 k)
        <= started (main url_parse JSON_stringify cfg inputs w0 (S k)))%Q.
Proof.
  intros Hj Hb Hlat Hrand Hfit k.
  pose proof (network_phase_bound cfg inputs w0 T k Hj Hb (Hlat k) (Hrand k)) as Hk.
  split; [exact Hk|].
  rewrite main_started_succ. destruct k as [|k].
  - unfold main. cbn [started finished Z.of_nat].
    change (inject_Z (Z.of_nat 0)) with 0%Q.
    pose proof (network_phase_bound cfg inputs w0 T 0 Hj Hb (Hlat 0%nat) (Hrand 0%nat)).
    assert (0 <= worst_case cfg T)%Q.
    { unfold worst_case.
      assert (0 <= T)%Q as HT by (destruct (Hlat 0%nat 0); lra).
      induction (attempt_numbers (max_retries cfg)) as [|a l IH]; simpl; [lra|].
      pose proof (worst_case_step cfg T l a HT Hj Hb). lra. }
    lra.
  - rewrite main_finished_succ, main_started_succ.
    rewrite Nat2Z.inj_succ. unfold Z.succ. rewrite inject_Z_plus.
    change (inject_Z 1) with 1%Q. lra.
Qed.

End AgentRuns.

(** ** Configuration file *)

Section LoadConfigProofs.

Variable jsyaml_load : string -> string + YamlValue.

Lemma loadConfig_unfold (configPath : string) (w : World) :
  loadConfig jsyaml_load configPath w
  = let config := config_object DEFAULT_CONFIG in
    let failed message :=
      (Ok config, snd (logM "ERROR" msg_config_error [LStr message] w)) in
    if existsSync (fs w) configPath then
      match readFileSync (fs w) configPath with
      | Throw e => failed (error_message e)
      | Ok fileContents =>
          match jsyaml_load fileContents with
          | inl message => failed message
          | inr Falsy => (Ok config, w)
          | inr (Truthy own) =>
              (Ok (own ∪ config),
               snd (logM "INFO" msg_config_loaded [LStr configPath] w))
          end
      end
    else (Ok config, snd (logM "WARN" msg_config_missing [LStr configPath] w)).
Proof.
  unfold loadConfig, try_catch, mbind, M_bind, existsSyncM, readFileSyncM, mret, M_ret.
  destruct (existsSync (fs w) configPath); [|reflexivity].
  destruct (readFileSync (fs w) configPath) as [fileContents|e]; [|reflexivity].
  destruct (jsyaml_load fileContents) as [message|[|own]]; reflexivity.
Qed.

(** X20. [loadConfig] never throws and never writes.  A missing file gives
    the defaults and one WARN line; a file that cannot be read, or that
    [jsyaml.load] rejects, gives the defaults and one ERROR line with the
    message of the exception; an empty (falsy) document gives the defaults
    and no line at all. *)
Theorem loadConfig_falls_back (configPath : string) (w : World) :
  exists config w',
    loadConfig jsyaml_load configPath w = (Ok config, w')
    /\ fs w' = fs w
    /\ (existsSync (fs w) configPath = false ->
        config = config_object DEFAULT_CONFIG
        /\ trace w' = trace w ++ [EvLog "WARN" msg_config_missing [LStr configPath]])
    /\ (forall e, existsSync (fs w) configPath = true ->
        readFileSync (fs w) configPath = Throw e ->
        config = config_object DEFAULT_CONFIG
        /\ trace w' = trace w ++ [EvLog "ERROR" msg_config_error [LStr (error_message e)]])
    /\ (forall fileContents message, existsSync (fs w) configPath = true ->
        readFileSync (fs w) configPath = Ok fileContents ->
        jsyaml_load fileContents = inl message ->
        config = config_object DEFAULT_CONFIG
        /\ trace w' = trace w ++ [EvLog "ERROR" msg_config_error [LStr message]])
    /\ (forall fileContents, existsSync (fs w) configPath = true ->
        readFileSync (fs w) configPath = Ok fileContents ->
        jsyaml_load fileContents = inr Falsy ->
        config = config_object DEFAULT_CONFIG /\ w' = w).
Proof.
  rewrite loadConfig_unfold. cbv zeta.
  destruct (existsSync (fs w) configPath).
  - destruct (readFileSync (fs w) configPath) as [fileContents|e].
    + destruct (jsyaml_load fileContents) as [message|[|own]] eqn:Hload;
        do 2 eexists; (split; [reflexivity|]); (split; [reflexivity|]);
        (split; [discriminate|]); (split; [intros e _ He; discriminate|]).
      * split.
        -- intros fc m _ [= <-] Hm. rewrite Hload in Hm. injection Hm as <-.
           split; reflexivity.
        -- intros fc _ [= <-] Hm. congruence.
      * split.
        -- intros fc m _ [= <-] Hm. congruence.
        -- intros fc _ _ _. split; reflexivity.
      * split.
        -- intros fc m _ [= <-] Hm. congruence.
        -- intros fc _ [= <-] Hm. congruence.
    + do 2 eexists. split; [reflexivity|]. split; [reflexivity|].
      split; [discriminate|]. split; [|split].
      * intros e' _ [= <-]. split; reflexivity.
      * intros fc m _ Hfc. discriminate.
      * intros fc _ Hfc. discriminate.
  - do 2 eexists. split; [reflexivity|]. split; [reflexivity|].
    split; [intros _; split; reflexivity|].
    split; [intros e He; discriminate|].
    split; [intros fc m He; discriminate|intros fc He; discriminate].
Qed.

(** X21. A document that is a mapping is laid over the defaults: every
    setting the file gives is taken as it is (no type or range is checked),
    every other key keeps its default, keys the agent does not know are
    kept too, and one INFO line is logged; so all seven settings are always
    defined. *)
Theorem loadConfig_merges (configPath fileContents : string) (w : World)
    (own : gmap string JsValue) :
  existsSync (fs w) configPath = true ->
  readFileSync (fs w) configPath = Ok fileContents ->
  jsyaml_load fileContents = inr (Truthy own) ->
  exists config w',
    loadConfig jsyaml_load configPath w = (Ok config, w')
    /\ trace w' = trace w ++ [EvLog "INFO" msg_config_loaded [LStr configPath]]
    /\ (forall key v, own !! key = Some v -> config !! key = Some v)
    /\ (forall key, own !! key = None ->
          config !! key = config_object DEFAULT_CONFIG !! key)
    /\ (forall key, is_Some (config_object DEFAULT_CONFIG !! key) ->
          is_Some (config !! key)).
Proof.
  intros Hex Hrd Hload. rewrite loadConfig_unfold. cbv zeta.
  rewrite Hex, Hrd, Hload. do 2 eexists. split; [reflexivity|]. split; [reflexivity|].
  split; [|split].
  - intros key v Hkey. apply lookup_union_Some_l. exact Hkey.
  - intros key Hkey. apply lookup_union_r. exact Hkey.
  - intros key [v Hv]. destruct (own !! key) as [v'|] eqn:Hkey.
    + exists v'. apply lookup_union_Some_l. exact Hkey.
    + exists v. rewrite lookup_union_r by exact Hkey. exact Hv.
Qed.

End LoadConfigProofs.

Lemma read_config_default : read_config (config_object DEFAULT_CONFIG) = Some DEFAULT_CONFIG.
Proof. vm_compute. reflexivity. Qed.

(** X22. Without a configuration file the agent runs on the defaults, whose
    endpoint is the "not configured" value: no cycle ever makes a request. *)
Theorem unconfigured_agent_never_sends
    (jsyaml_load : string -> string + YamlValue)
    (url_parse : string -> UrlObject) (JSON_stringify : MetricSnapshot -> string)
    (configPath : string) (w : World) inputs :
  existsSync (fs w) configPath = false ->
  exists config w',
    loadConfig jsyaml_load configPath w = (Ok config, w')
    /\ read_config config = Some DEFAULT_CONFIG
    /\ forall k,
         requests (delivery url_parse JSON_stringify DEFAULT_CONFIG (inputs k)
                     (world_before url_parse JSON_stringify DEFAULT_CONFIG inputs w' k))
         = [].
Proof.
  intros Hex. rewrite loadConfig_unfold. cbv zeta. rewrite Hex.
  do 2 eexists. split; [reflexivity|]. split; [exact read_config_default|].
  intros k. unfold delivery.
  destruct (collectMetrics _ _) as [[snap|e] w1]; reflexivity.
Qed.

(** ** What [getMachineId] leaves untouched, and the ends of the CPU scale *)

Lemma same_at_refl (p : string) (f : FileSystem) : same_at p f f.
Proof. unfold same_at. auto. Qed.

(** X23. [getMachineId] changes nothing of the filesystem but the persistence
    file, its directory and the directories above it, which the recursive
    [mkdirSync] creates when they are missing: every other path looks as
    before, no file but the persistence file is written, no directory is
    removed, and permissions stay.  It changes nothing at all when an OS
    identity file was found or the persistence file exists: an identity on
    disk is never overwritten.  When it generates and writes an identity, the
    directory of the persistence file exists afterwards. *)
Theorem getMachineId_touches_only_persistence (w : World) :
  let f' := fs (snd (getMachineId w)) in
  (forall p, p <> persistencePath -> ~ In p persistence_dirs -> same_at p (fs w) f')
  /\ (forall p, p <> persistencePath -> files f' !! p = files (fs w) !! p)
  /\ (forall p, p ∈ dirs (fs w) -> p ∈ dirs f')
  /\ unreadable f' = unreadable (fs w)
  /\ readonly f' = readonly (fs w)
  /\ (probe (fs w) paths <> None \/ existsSync (fs w) persistencePath = true ->
      f' = fs w)
  /\ (probe (fs w) paths = None -> existsSync (fs w) persistencePath = false ->
      files f' !! persistencePath = Some (uuid_source w 0%nat) ->
      dirname persistencePath ∈ dirs f').
Proof.
  intros f'. subst f'.
  assert (forall f : FileSystem,
            (forall p, p <> persistencePath -> ~ In p persistence_dirs ->
                       same_at p f f)
            /\ (forall p, p <> persistencePath -> files f !! p = files f !! p)
            /\ (forall p, p ∈ dirs f -> p ∈ dirs f)
            /\ unreadable f = unreadable f /\ readonly f = readonly f) as Hrefl.
  { intros f. repeat split; auto. }
  destruct (probe (fs w) paths) as [id|] eqn:Hp.
  { rewrite (getMachineId_os_file w id Hp). simpl.
    destruct (Hrefl (fs w)) as (H1 & H2 & H3 & H4 & H5).
    repeat split; auto; discriminate. }
  destruct (existsSync (fs w) persistencePath) eqn:Hex.
  - assert (fs (snd (getMachineId w)) = fs w) as ->.
    { destruct (readFileSync (fs w) persistencePath) as [content|e] eqn:Hrd.
      - rewrite (getMachineId_persisted w content Hp Hex Hrd). reflexivity.
      - destruct (getMachineId_unreadable w e Hp Hex Hrd) as (_ & Hfs & _). exact Hfs. }
    destruct (Hrefl (fs w)) as (H1 & H2 & H3 & H4 & H5).
    repeat split; auto; discriminate.
  - destruct (persist (fs w) (uuid_source w 0%nat)) as [f'|e] eqn:Hpersist.
    + destruct (getMachineId_generated w f' Hp Hex Hpersist) as (_ & Hfs & _).
      rewrite Hfs. clear Hfs. unfold persist in Hpersist.
      destruct (ensure_dir (fs w)) as [f1|e] eqn:Hdir; [|discriminate].
      destruct (ensure_dir_spec (fs w) f1 Hdir) as (Hf & Hu & Hr & Hd1 & Hd2 & Hagain).
      destruct (writeFileSync_spec f1 f' persistencePath _ Hpersist)
        as (Hf' & Hd' & Hu' & Hr').
      split; [|split; [|split; [|split; [|split; [|split]]]]].
      * intros p Hp1 Hp2. apply (persist_same_at (fs w) f' (uuid_source w 0%nat));
          [unfold persist; rewrite Hdir; exact Hpersist|assumption|assumption].
      * intros p Hp1. rewrite Hf', lookup_insert_ne by congruence. rewrite Hf. reflexivity.
      * intros p Hin. rewrite Hd'. apply Hd1, Hin.
      * congruence.
      * congruence.
      * intros [H|H]; congruence.
      * intros _ _ _. rewrite Hd'. revert Hpersist. unfold writeFileSync.
        destruct (bool_decide (persistencePath ∈ readonly f1)); [discriminate|].
        destruct (bool_decide (persistencePath ∈ dirs f1)); [discriminate|].
        destruct (bool_decide (dirname persistencePath ∈ dirs f1)) eqn:Hdd;
          [|discriminate].
        intros _. apply bool_decide_eq_true in Hdd. exact Hdd.
    + destruct (getMachineId_volatile w e Hp Hex Hpersist) as (_ & (Hfs & _) & _).
      rewrite Hfs. clear Hfs.
      destruct (after_ensure_dir_spec (fs w)) as (Hf & Hu & Hr & Hd1 & Hd2).
      split; [|split; [|split; [|split; [|split; [|split]]]]]; auto.
      * intros p _ Hp2. apply fallback_same_at, Hp2.
      * intros p _. rewrite Hf. reflexivity.
      * intros [H|H]; congruence.
      * intros _ _. rewrite Hf. unfold existsSync in Hex.
        apply orb_false_iff in Hex as [Hfile _].
        apply bool_decide_eq_false in Hfile. intros H. exfalso. apply Hfile.
        rewrite H. eauto.
Qed.

(** X24. The ends of the scale: over an interval in which the total grew,
    [calculateCpuPercent] reports 0 when all of the growth was idle time and
    100 when none of it was. *)
Theorem calculateCpuPercent_extremes (cpus : list CpuInfo) (w : World)
    (previous : list CpuTick) :
  previousCpuTicks w = Some previous ->
  (length cpus <= length previous)%nat ->
  0 < total_delta previous (currentCpuTicks cpus) ->
  (idle_delta previous (currentCpuTicks cpus)
   = total_delta previous (currentCpuTicks cpus) ->
   exists v, fst (calculateCpuPercent cpus w) = Ok v /\ (v == 0)%Q)
  /\ (idle_delta previous (currentCpuTicks cpus) = 0 ->
      exists v, fst (calculateCpuPercent cpus w) = Ok v /\ (v == 100)%Q).
Proof.
  intros Hprev Hlen Htotal.
  rewrite (calculateCpuPercent_next cpus w previous Hprev Hlen).
  replace (0 <? total_delta previous (currentCpuTicks cpus)) with true by lia.
  simpl fst.
  assert (0 < inject_Z (total_delta previous (currentCpuTicks cpus)))%Q as Ht
    by (rewrite Zlt_Qlt in Htotal; exact Htotal).
  set (t := inject_Z (total_delta previous (currentCpuTicks cpus))) in *.
  assert (double (t / t) = 1%Q) as Hone
    by (rewrite (double_Qeq (t / t) 1) by (field; lra); reflexivity).
  assert (double (inject_Z 0 / t) = 0%Q) as Hzero
    by (rewrite (double_Qeq (inject_Z 0 / t) 0) by (field; lra); reflexivity).
  unfold fsub, fmul, fdiv.
  split; intros Hidle; rewrite Hidle; fold t; eexists; (split; [reflexivity|]).
  - rewrite Hone. reflexivity.
  - rewrite Hzero. reflexivity.
Qed.

(** ** Concrete runs of the further properties *)

Lemma sendPayload_delivers_on_attempt_witness :
  endpoint example_cfg <> "NULL"
  /\ 1 <= 3 <= max_retries example_cfg
  /\ (forall k, 1 <= k < 3 -> is_transient (respond recovering k) = true)
  /\ respond recovering 3 = Response 200 "ok"
  /\ 200 <= 200 < 300
  /\ (let run := sendPayload example_url_parse (fun _ : unit => "{}") example_cfg tt
                   recovering in
      fst run = true /\ outcome run = Some Delivered
      /\ Z.of_nat (length (requests (snd run))) = 3
      /\ schedule (snd run) = alternating example_cfg recovering 1 3).
Proof.
  assert (endpoint example_cfg <> "NULL") as H1 by discriminate.
  assert (1 <= 3 <= max_retries example_cfg) as H2 by (simpl; lia).
  assert (forall k, 1 <= k < 3 -> is_transient (respond recovering k) = true) as H3.
  { intros k Hk. simpl. replace (k <? 3) with true by lia. reflexivity. }
  assert (respond recovering 3 = Response 200 "ok") as H4 by reflexivity.
  assert (200 <= 200 < 300) as H5 by lia.
  repeat (split; [assumption|]).
  exact (sendPayload_delivers_on_attempt example_url_parse (fun _ : unit => "{}")
           example_cfg tt recovering 3 200 "ok" H1 H2 H3 H4 H5).
Defined.

Lemma sendPayload_true_iff_accepted_witness :
  fst (sendPayload example_url_parse (fun _ : unit => "{}") example_cfg tt recovering)
  = true
  /\ exists pre opts postData s body elapsed,
       200 <= s < 300
       /\ snd (sendPayload example_url_parse (fun _ : unit => "{}") example_cfg tt
                 recovering)
          = pre ++ [EvRequest opts postData (Response s body) elapsed;
                    EvLog "INFO" msg_accepted [LNum s]].
Proof.
  assert (fst (sendPayload example_url_parse (fun _ : unit => "{}") example_cfg tt
                 recovering) = true) as H by reflexivity.
  split; [exact H|].
  exact (proj1 (sendPayload_true_iff_accepted example_url_parse (fun _ : unit => "{}")
                  example_cfg tt recovering) H).
Defined.

Lemma sendPayload_alternates_witness :
  (let run := sendPayload example_url_parse (fun _ : unit => "{}") example_cfg tt
                (always (Failure "ECONNREFUSED")) in
   schedule (snd run)
   = alternating example_cfg (always (Failure "ECONNREFUSED")) 1
       (length (requests (snd run)))
   /\ (length (requests (snd run)) <= 5)%nat)
  /\ (let idle_cfg := {| endpoint := example_endpoint; api_key := "secret";
                         interval_seconds := 300; timeout_seconds := 10;
                         max_retries := 0; backoff_base := 2; jitter := 3 # 10 |} in
      endpoint idle_cfg <> "NULL" /\ max_retries idle_cfg <= 0
      /\ sendPayload example_url_parse (fun _ : unit => "{}") idle_cfg tt
           (always (Response 200 "ok"))
         = (false, [EvLog "ERROR" msg_all_failed []])).
Proof.
  split.
  - destruct (sendPayload_alternates example_url_parse (fun _ : unit => "{}")
                example_cfg tt (always (Failure "ECONNREFUSED"))) as (Hs & Hn & _).
    split; [exact Hs|exact Hn].
  - cbv zeta.
    set (idle_cfg := {| endpoint := example_endpoint; api_key := "secret";
                        interval_seconds := 300; timeout_seconds := 10;
                        max_retries := 0; backoff_base := 2; jitter := 3 # 10 |}).
    assert (endpoint idle_cfg <> "NULL") as H1 by discriminate.
    assert (max_retries idle_cfg <= 0) as H2 by (simpl; lia).
    repeat (split; [assumption|]).
    destruct (sendPayload_alternates example_url_parse (fun _ : unit => "{}")
                idle_cfg tt (always (Response 200 "ok"))) as (_ & _ & Hnone).
    exact (Hnone H1 H2).
Defined.

Lemma sendPayload_requests_identical_witness :
  let opts := build_options example_url_parse example_cfg "{}" in
  In (EvRequest opts "{}" (Response 200 "ok") 0%Q)
     (snd (sendPayload example_url_parse (fun _ : unit => "{}") example_cfg tt recovering))
  /\ opt_method opts = "POST"
  /\ content_length (opt_headers opts) = 2%nat
  /\ authorization (opt_headers opts) = "Bearer secret".
Proof.
  intros opts.
  assert (In (EvRequest opts "{}" (Response 200 "ok") 0%Q)
            (snd (sendPayload example_url_parse (fun _ : unit => "{}") example_cfg tt
                    recovering))) as Hin.
  { vm_compute. do 8 right. left. reflexivity. }
  split; [exact Hin|].
  destruct (sendPayload_requests_identical example_url_parse (fun _ : unit => "{}")
              example_cfg tt recovering _ _ _ _ Hin)
    as (_ & _ & Hm & _ & Hl & Ha & _).
  repeat split; assumption.
Defined.

(** *** Logging *)

Lemma formattedMessage_fills_witness :
  placeholders "Erreur serveur " = 0%nat
  /\ formattedMessage msg_server_error ["500"; "2"; "5"]
     = "Erreur serveur 500; tentative 2/5".
Proof.
  assert (placeholders "Erreur serveur " = 0%nat) as H by reflexivity.
  split; [exact H|].
  destruct (formattedMessage_fills "Erreur serveur " "; tentative %s/%s"
              ["500"; "2"; "5"] H) as [_ Hfill].
  etransitivity; [exact Hfill|]. reflexivity.
Defined.

Lemma formattedMessage_arity_witness :
  (placeholders msg_accepted <= length ["200"])%nat
  /\ formattedMessage msg_accepted (["200"] ++ ["dropped"])
     = formattedMessage msg_accepted ["200"]
  /\ formattedMessage msg_client_error (["404"] ++ repeat "undefined" 1)
     = formattedMessage msg_client_error ["404"].
Proof.
  assert (placeholders msg_accepted <= length ["200"])%nat as H
    by (vm_compute; lia).
  split; [exact H|]. split.
  - exact (proj1 (formattedMessage_arity msg_accepted ["200"]) ["dropped"] H).
  - exact (proj2 (formattedMessage_arity msg_client_error ["404"]) 1%nat).
Defined.

(** *** Identity *)

Lemma getMachineId_prefers_os_files_witness :
  files (fs (world_of host_fs None)) !! "/etc/machine-id"
  = Some (String.append "4c4c4544004b35108052b4c04f4d5731" (String "010"%char EmptyString))
  /\ ("/etc/machine-id" ∉ unreadable (fs (world_of host_fs None)))
  /\ getMachineId (world_of host_fs None)
     = (Ok "4c4c4544004b35108052b4c04f4d5731", world_of host_fs None).
Proof.
  assert (files (fs (world_of host_fs None)) !! "/etc/machine-id"
          = Some (String.append "4c4c4544004b35108052b4c04f4d5731"
                    (String "010"%char EmptyString))) as H1 by reflexivity.
  assert ("/etc/machine-id" ∉ unreadable (fs (world_of host_fs None))) as H2
    by apply not_elem_of_empty.
  repeat (split; [assumption|]).
  exact (proj1 (getMachineId_prefers_os_files (world_of host_fs None) _) H1 H2).
Defined.

Lemma getMachineId_blank_file_witness :
  files (fs (world_of blank_fs None)) !! "/etc/machine-id"
  = Some (String "010"%char EmptyString)
  /\ ("/etc/machine-id" ∉ unreadable (fs (world_of blank_fs None)))
  /\ blank (String "010"%char EmptyString) = true
  /\ getMachineId (world_of blank_fs None) = (Ok EmptyString, world_of blank_fs None).
Proof.
  assert (files (fs (world_of blank_fs None)) !! "/etc/machine-id"
          = Some (String "010"%char EmptyString)) as H1 by reflexivity.
  assert ("/etc/machine-id" ∉ unreadable (fs (world_of blank_fs None))) as H2
    by apply not_elem_of_empty.
  assert (blank (String "010"%char EmptyString) = true) as H3 by reflexivity.
  repeat (split; [assumption|]).
  exact (getMachineId_blank_file (world_of blank_fs None) _ H1 H2 H3).
Defined.

Lemma getMachineId_survives_restart_witness :
  let w := world_of fresh_fs None in
  let later := {| fs := fs (snd (getMachineId w));
                  uuid_source := fun _ => uuid_d;
                  previousCpuTicks := None; trace := [] |} in
  fst (getMachineId later) = fst (getMachineId w)
  /\ fst (getMachineId w) = Ok uuid_a.
Proof.
  intros w later.
  apply (proj2 (getMachineId_survives_restart w later)
           (match persist fresh_fs uuid_a with Ok f => f | Throw _ => fresh_fs end)).
  - reflexivity.
  - reflexivity.
  - vm_compute. reflexivity.
  - apply not_elem_of_empty.
  - reflexivity.
  - reflexivity.
Defined.

(** On a host without [/var/lib] the call creates [/var/lib] and
    [/var/lib/sylon] and writes the identity; [/etc/passwd] is not touched.
    On a host with a machine id nothing changes. *)
Lemma getMachineId_touches_only_persistence_witness :
  let f' := fs (snd (getMachineId (world_of bare_fs None))) in
  "/etc/passwd" <> persistencePath
  /\ ~ In "/etc/passwd" persistence_dirs
  /\ same_at "/etc/passwd" bare_fs f'
  /\ existsSync bare_fs "/var/lib" = false
  /\ existsSync f' "/var/lib" = true
  /\ probe bare_fs paths = None
  /\ existsSync bare_fs persistencePath = false
  /\ files f' !! persistencePath = Some uuid_a
  /\ dirname persistencePath ∈ dirs f'
  /\ fs (snd (getMachineId (world_of host_fs None))) = host_fs.
Proof.
  intros f'.
  assert ("/etc/passwd" <> persistencePath) as H1 by discriminate.
  assert (~ In "/etc/passwd" persistence_dirs) as H2.
  { rewrite persistence_dirs_value. simpl. intros H.
    repeat (destruct H as [H|H]; [discriminate|]). exact H. }
  assert (probe bare_fs paths = None) as H3 by reflexivity.
  assert (existsSync bare_fs persistencePath = false) as H4 by reflexivity.
  assert (files f' !! persistencePath = Some uuid_a) as H5 by reflexivity.
  destruct (getMachineId_touches_only_persistence (world_of bare_fs None))
    as (Hsame & _ & _ & _ & _ & _ & Hdir).
  split; [exact H1|]. split; [exact H2|]. split; [exact (Hsame _ H1 H2)|].
  split; [reflexivity|]. split; [reflexivity|].
  split; [exact H3|]. split; [exact H4|]. split; [exact H5|].
  split; [exact (Hdir H3 H4 H5)|].
  destruct (getMachineId_touches_only_persistence (world_of host_fs None))
    as (_ & _ & _ & _ & _ & Hnone & _).
  apply Hnone. left. vm_compute. discriminate.
Defined.

(** *** CPU utilisation and the snapshot *)

Lemma calculateCpuPercent_ignores_surplus_witness :
  let stored := currentCpuTicks [cpu 10 10; cpu 7 7] in
  let w := world_of fresh_fs (Some stored) in
  let w' := world_of fresh_fs (Some (take (length [cpu 20 40]) stored)) in
  previousCpuTicks w = Some stored
  /\ (length [cpu 20 40] <= length stored)%nat
  /\ previousCpuTicks w' = Some (take (length [cpu 20 40]) stored)
  /\ exists v,
       calculateCpuPercent [cpu 20 40] w = (Ok v, sampled (currentCpuTicks [cpu 20 40]) w)
       /\ calculateCpuPercent [cpu 20 40] w'
          = (Ok v, sampled (currentCpuTicks [cpu 20 40]) w').
Proof.
  intros stored w w'.
  assert (previousCpuTicks w = Some stored) as H1 by reflexivity.
  assert (length [cpu 20 40] <= length stored)%nat as H2 by (simpl; lia).
  assert (previousCpuTicks w' = Some (take (length [cpu 20 40]) stored)) as H3
    by reflexivity.
  repeat (split; [assumption|]).
  exact (calculateCpuPercent_ignores_surplus [cpu 20 40] w w' stored H1 H2 H3).
Defined.

Lemma calculateCpuPercent_extremes_witness :
  let w := world_of fresh_fs (Some (currentCpuTicks [cpu 10 10])) in
  (exists v, fst (calculateCpuPercent [cpu 10 30] w) = Ok v /\ (v == 0)%Q)
  /\ (exists v, fst (calculateCpuPercent [cpu 30 10] w) = Ok v /\ (v == 100)%Q).
Proof.
  intros w. split.
  - apply (proj1 (calculateCpuPercent_extremes [cpu 10 30] w (currentCpuTicks [cpu 10 10])
                    eq_refl ltac:(simpl; lia) ltac:(vm_compute; reflexivity))).
    vm_compute. reflexivity.
  - apply (proj2 (calculateCpuPercent_extremes [cpu 30 10] w (currentCpuTicks [cpu 10 10])
                    eq_refl ltac:(simpl; lia) ltac:(vm_compute; reflexivity))).
    vm_compute. reflexivity.
Defined.

(** A first sample succeeds; a failed host name query leaves the world as it
    was; a failed uptime query comes after the CPU reading was stored; a CPU
    that came online throws the [TypeError] and the stored reading stays. *)
Lemma collectMetrics_succeeds_iff_witness :
  let w := world_of host_fs None in
  let stored := world_of host_fs (Some (currentCpuTicks [cpu 20 40])) in
  (exists snap w', collectMetrics example_os w = (Ok snap, w'))
  /\ collectMetrics (failing_os Hostname) w = (Throw (SystemError "ERR_SYSTEM_ERROR"), w)
  /\ (exists w', collectMetrics (failing_os Uptime) w
                 = (Throw (SystemError "ERR_SYSTEM_ERROR"), w')
                 /\ previousCpuTicks w' = Some (currentCpuTicks [cpu 20 40]))
  /\ (exists w', collectMetrics bigger_os stored = (Throw undefined_property, w')
                 /\ previousCpuTicks w' = Some (currentCpuTicks [cpu 20 40])).
Proof.
  intros w stored.
  assert (previousCpuTicks w = None
          \/ exists previous, previousCpuTicks w = Some previous
               /\ (length (os_cpus (failing_os Uptime)) <= length previous)%nat) as Hc
    by (left; reflexivity).
  split; [|split; [|split]].
  - apply (proj1 (collectMetrics_succeeds_iff example_os w)).
    split; [intros call; reflexivity|exact Hc].
  - destruct (collectMetrics_succeeds_iff (failing_os Hostname) w) as (_ & Hhost & _).
    apply Hhost. reflexivity.
  - destruct (collectMetrics_succeeds_iff (failing_os Uptime) w) as (_ & _ & _ & Hlate).
    apply Hlate; [reflexivity|exact Hc|left; reflexivity].
  - destruct (collectMetrics_succeeds_iff bigger_os stored) as (_ & _ & Hcpu & _).
    apply Hcpu; [reflexivity|].
    intros [H|(previous & [= <-] & H)]; [discriminate|simpl in H; lia].
Defined.


Lemma snapshot_ipv4_witness :
  exists snap w',
    collectMetrics example_os (world_of host_fs None) = (Ok snap, w')
    /\ (forall a, In a (all_addresses (os_networkInterfaces example_os)) ->
                  is_public_ipv4 a = true -> address a <> EmptyString)
    /\ ipv4 snap = Some "192.0.2.10".
Proof.
  destruct (collectMetrics example_os (world_of host_fs None)) as [[snap|e] w'] eqn:Hrun;
    [|vm_compute in Hrun; discriminate].
  assert (forall a, In a (all_addresses (os_networkInterfaces example_os)) ->
                    is_public_ipv4 a = true -> address a <> EmptyString) as Hne.
  { intros a [<-|[<-|[<-|[]]]]; simpl; discriminate. }
  exists snap, w'. split; [reflexivity|]. split; [exact Hne|].
  destruct (snapshot_ipv4 example_os (world_of host_fs None) w' snap Hrun Hne) as [Hip _].
  rewrite Hip. reflexivity.
Defined.

Lemma snapshot_timestamp_witness :
  exists snap w',
    collectMetrics example_os (world_of host_fs None) = (Ok snap, w')
    /\ now_iso example_os
       = ("2025-01-15T10:30:00" ++ String "." (String "1" (String "2" (String "3" "Z"))))%string
    /\ timestamp snap = "2025-01-15T10:30:00Z".
Proof.
  destruct (collectMetrics example_os (world_of host_fs None)) as [[snap|e] w'] eqn:Hrun;
    [|vm_compute in Hrun; discriminate].
  assert (now_iso example_os
          = ("2025-01-15T10:30:00"
             ++ String "." (String "1" (String "2" (String "3" "Z"))))%string) as Hnow
    by reflexivity.
  exists snap, w'. split; [reflexivity|]. split; [exact Hnow|].
  exact (snapshot_timestamp example_os (world_of host_fs None) w' snap
           "2025-01-15T10:30:00" "1" "2" "3" Hrun Hnow eq_refl eq_refl eq_refl).
Defined.

(** *** The agent loop and the configuration file *)

Lemma cycle_never_throws_witness :
  let stuck := world_of host_fs (Some (currentCpuTicks [cpu 20 40])) in
  fst (cycle example_url_parse example_stringify example_cfg msg_main_loop
         (bigger_inputs 0%nat) stuck) = Ok tt
  /\ trace (snd (cycle example_url_parse example_stringify example_cfg msg_main_loop
                   (bigger_inputs 0%nat) stuck))
     = [EvLog "ERROR" msg_main_loop [LStr (error_message undefined_property)]]
  /\ delivery example_url_parse example_stringify example_cfg (bigger_inputs 0%nat) stuck
     = [].
Proof.
  intros stuck.
  destruct (cycle_never_throws example_url_parse example_stringify example_cfg
              msg_main_loop (bigger_inputs 0%nat) stuck) as (Hok & _ & Hthrow).
  split; [exact Hok|].
  destruct (Hthrow undefined_property stuck) as [Htrace Hnone]; [reflexivity|].
  split; [exact Htrace|exact Hnone].
Defined.

Lemma main_stuck_after_cpu_added_witness :
  let stuck := world_of host_fs (Some (currentCpuTicks [cpu 20 40])) in
  previousCpuTicks stuck = Some (currentCpuTicks [cpu 20 40])
  /\ (forall k, (length (currentCpuTicks [cpu 20 40])
                 < length (os_cpus (reading (bigger_inputs k))))%nat)
  /\ fst (collectMetrics (reading (bigger_inputs 7%nat))
            (world_before example_url_parse example_stringify example_cfg bigger_inputs
               stuck 7)) = Throw undefined_property
  /\ delivery example_url_parse example_stringify example_cfg (bigger_inputs 7%nat)
       (world_before example_url_parse example_stringify example_cfg bigger_inputs
          stuck 7) = [].
Proof.
  intros stuck.
  assert (previousCpuTicks stuck = Some (currentCpuTicks [cpu 20 40])) as H1
    by reflexivity.
  assert (forall k, (length (currentCpuTicks [cpu 20 40])
                     < length (os_cpus (reading (bigger_inputs k))))%nat) as H2
    by (intros k; simpl; lia).
  repeat (split; [assumption|]).
  exact (proj2 (main_stuck_after_cpu_added example_url_parse example_stringify
                  example_cfg bigger_inputs stuck _ H1 H2 7%nat)).
Defined.

Lemma agent_logs_well_formed_witness :
  Forall (fun e => well_formed e = true) (trace (world_of host_fs None))
  /\ Forall (fun e => well_formed e = true)
       (trace (world_before example_url_parse example_stringify hasty_cfg hasty_inputs
                 (world_of host_fs None) 3)).
Proof.
  assert (Forall (fun e => well_formed e = true) (trace (world_of host_fs None))) as H
    by constructor.
  split; [exact H|].
  exact (agent_logs_well_formed example_url_parse example_stringify hasty_cfg
           hasty_inputs (world_of host_fs None) 3 H).
Defined.

Lemma main_sequential_within_worst_case_witness :
  (0 <= jitter example_cfg)%Q
  /\ (0 <= backoff_base example_cfg)%Q
  /\ (forall k a, (0 <= latency (network (hasty_inputs k)) a <= 10)%Q)
  /\ (forall k a, (0 <= random (network (hasty_inputs k)) a < 1)%Q)
  /\ (worst_case example_cfg 10 == 812 # 10)%Q
  /\ (worst_case example_cfg 10 <= inject_Z (interval_seconds example_cfg))%Q
  /\ forall k,
       (finished (main example_url_parse example_stringify example_cfg hasty_inputs
                    (world_of host_fs None) k)
        <= started (main example_url_parse example_stringify example_cfg hasty_inputs
                      (world_of host_fs None) (S k)))%Q.
Proof.
  assert (0 <= jitter example_cfg)%Q as H1 by (unfold Qle; simpl; lia).
  assert (0 <= backoff_base example_cfg)%Q as H2 by (unfold Qle; simpl; lia).
  assert (forall k a, (0 <= latency (network (hasty_inputs k)) a <= 10)%Q) as H3
    by (intros k a; unfold Qle; simpl; lia).
  assert (forall k a, (0 <= random (network (hasty_inputs k)) a < 1)%Q) as H4
    by (intros k a; unfold Qle, Qlt; simpl; lia).
  assert (worst_case example_cfg 10 == 812 # 10)%Q as H5 by reflexivity.
  assert (worst_case example_cfg 10 <= inject_Z (interval_seconds example_cfg))%Q as H6
    by (vm_compute; discriminate).
  repeat (split; [assumption|]).
  intros k.
  exact (proj2 (main_sequential_within_worst_case example_url_parse example_stringify
                  example_cfg hasty_inputs (world_of host_fs None) 10 H1 H2 H3 H4 H6 k)).
Defined.

Lemma loadConfig_falls_back_witness :
  existsSync fresh_fs default_config_path = false
  /\ fst (loadConfig example_jsyaml_load default_config_path (world_of fresh_fs None))
     = Ok (config_object DEFAULT_CONFIG)
  /\ trace (snd (loadConfig example_jsyaml_load default_config_path
                   (world_of fresh_fs None)))
     = [EvLog "WARN" msg_config_missing [LStr default_config_path]].
Proof.
  assert (existsSync fresh_fs default_config_path = false) as H by reflexivity.
  split; [exact H|].
  destruct (loadConfig_falls_back example_jsyaml_load default_config_path
              (world_of fresh_fs None)) as (config & w' & Hrun & _ & Hmissing & _).
  destruct (Hmissing H) as [Hconfig Htrace]. rewrite Hrun. simpl.
  split; [rewrite Hconfig; reflexivity|exact Htrace].
Defined.

Lemma loadConfig_merges_witness :
  existsSync configured_fs default_config_path = true
  /\ readFileSync configured_fs default_config_path
     = Ok "endpoint: https://collector.example/ingest"
  /\ example_jsyaml_load "endpoint: https://collector.example/ingest"
     = inr (Truthy {["endpoint" := VStr "https://collector.example/ingest"]})
  /\ exists config w',
       loadConfig example_jsyaml_load default_config_path (world_of configured_fs None)
       = (Ok config, w')
       /\ config !! "endpoint" = Some (VStr "https://collector.example/ingest")
       /\ config !! "max_retries" = Some (VNum 5).
Proof.
  assert (existsSync configured_fs default_config_path = true) as H1 by reflexivity.
  assert (readFileSync configured_fs default_config_path
          = Ok "endpoint: https://collector.example/ingest") as H2 by reflexivity.
  assert (example_jsyaml_load "endpoint: https://collector.example/ingest"
          = inr (Truthy {["endpoint" := VStr "https://collector.example/ingest"]})) as H3
    by reflexivity.
  repeat (split; [assumption|]).
  destruct (loadConfig_merges example_jsyaml_load default_config_path _
              (world_of configured_fs None) _ H1 H2 H3)
    as (config & w' & Hrun & _ & Hown & Hdefault & _).
  exists config, w'. split; [exact Hrun|]. split.
  - apply Hown. reflexivity.
  - rewrite Hdefault by reflexivity. reflexivity.
Defined.

Lemma unconfigured_agent_never_sends_witness :
  existsSync fresh_fs default_config_path = false
  /\ exists config w',
       loadConfig example_jsyaml_load default_config_path (world_of fresh_fs None)
       = (Ok config, w')
       /\ read_config config = Some DEFAULT_CONFIG
       /\ forall k,
            requests (delivery example_url_parse example_stringify DEFAULT_CONFIG
                        (hasty_inputs k)
                        (world_before example_url_parse example_stringify DEFAULT_CONFIG
                           hasty_inputs w' k)) = [].
Proof.
  assert (existsSync fresh_fs default_config_path = false) as H by reflexivity.
  split; [exact H|].
  exact (unconfigured_agent_never_sends example_jsyaml_load example_url_parse
           example_stringify default_config_path (world_of fresh_fs None) hasty_inputs H).
Defined.
